(** * Fukayo: the fetch engine of the scrapers and the file server

    A shallow embedding of [Mirror], the class every scraper extends, and
    of [FileServer] (utils/fileserv), followed by the properties the design
    document states of them.

    Conventions.
    - A JavaScript function that may throw returns an [outcome]; a method
      that changes [this] or the process is a function in the monad [Eff.M]
      of state and exceptions.  An [await] is sequencing; where operations
      of one instance interleave, an operation is cut at its first
      suspension ([MirrorSpec.step]).
    - What the two classes import (axios, the rendering cluster, cheerio,
      [JSON], [file-type], [filenamify], [URL], the library store, the
      identifier generator, the settings) is a field of [Mirror.Env]: the
      theorems hold for every behaviour of these collaborators.
    - [node:fs] and the timer queue are modelled, because the properties
      of the file server speak of files, links and live timers. *)

From stdpp Require Import base option list gmap strings.
From Stdlib Require Import ZArith QArith Lia.

Open Scope Z_scope.
Open Scope string_scope.

(** ** JavaScript values, exceptions and the effect monad *)

Definition Buffer := list Byte.byte.

(** What a [throw] carries.  [instanceof Error] and [.message] are the only
    observations the code makes, besides [.response] on an axios error. *)
Inductive exn :=
| Error (message : string)
| AxiosError (message : string) (response : option string)
| NonError (description : string).

Definition instanceof_Error (e : exn) : bool :=
  match e with
  | Error _ | AxiosError _ _ => true
  | NonError _ => false
  end.

Definition message (e : exn) : string :=
  match e with
  | Error m | AxiosError m _ => m
  | NonError _ => EmptyString
  end.

Inductive outcome (A : Type) :=
| Ret (a : A)
| Throw (e : exn).
Arguments Ret {A} a.
Arguments Throw {A} e.

(** [String.prototype.includes]. *)
Fixpoint includes (sub s : string) : bool :=
  String.prefix sub s ||
  match s with
  | EmptyString => false
  | String _ s' => includes sub s'
  end.

(** [String.prototype.startsWith]. *)
Definition startsWith (s pre : string) : bool := String.prefix pre s.

(** A string in a condition: the empty string is falsy. *)
Definition truthy_string (s : string) : bool :=
  match s with EmptyString => false | _ => true end.

Definition truthy_opt_string (o : option string) : bool :=
  match o with Some s => truthy_string s | None => false end.

Module Eff.
(** State threaded through a method, with exceptions. *)
Definition M (S A : Type) : Type := S -> S * outcome A.

Definition ret {S A} (a : A) : M S A := fun s => (s, Ret a).
Definition throw {S A} (e : exn) : M S A := fun s => (s, Throw e).
Definition bind {S A B} (m : M S A) (k : A -> M S B) : M S B :=
  fun s => match m s with
           | (s', Ret a) => k a s'
           | (s', Throw e) => (s', Throw e)
           end.
(** [try { m } catch (e) { h e }] *)
Definition try_catch {S A} (m : M S A) (h : exn -> M S A) : M S A :=
  fun s => match m s with
           | (s', Ret a) => (s', Ret a)
           | (s', Throw e) => h e s'
           end.
Definition get {S} : M S S := fun s => (s, Ret s).
Definition gets {S A} (f : S -> A) : M S A := fun s => (s, Ret (f s)).
Definition modify {S} (f : S -> S) : M S unit := fun s => (f s, Ret tt).
Definition lift_outcome {S A} (o : outcome A) : M S A := fun s => (s, o).
End Eff.

Declare Scope eff_scope.
Delimit Scope eff_scope with eff.
Notation "x <- m ;; k" := (Eff.bind m (fun x => k))
  (at level 100, m at next level, right associativity) : eff_scope.
Notation "m ;;; k" := (Eff.bind m (fun _ => k))
  (at level 100, right associativity) : eff_scope.

(** ** [node:fs] and the timer queue *)

Module Fs.

(** A path is a directory and an entry name in it: every path the two
    classes build is [resolve(dir, name)] or [join(dir, name)].  The name
    is a plain entry name: what [path.resolve] makes of an empty name, of
    [..] or of a separator in it is not modelled. *)
Definition path : Type := string * string.

Inductive node :=
| File (data : Buffer)
| Directory
| Symlink (target : path).

Record Disk := mkDisk {
  dirs : gset string;           (* the directories that exist *)
  nodes : gmap path node;       (* their entries *)
  readonly : gset string        (* directories refusing creation and removal *)
}.

Inductive kind := KFile | KDirectory | KSymbolicLink.

Record Stats := mkStats { st_kind : kind }.

Definition isSymbolicLink (st : Stats) : bool :=
  match st_kind st with KSymbolicLink => true | _ => false end.

(** The operating system follows at most this many links (ELOOP). *)
Definition max_links : nat := 40.

(** Resolution of a path, following symbolic links: the final path and
    what is there. *)
Fixpoint follow (fuel : nat) (d : Disk) (p : path) : option (path * option node) :=
  match nodes d !! p with
  | Some (Symlink t) =>
      match fuel with
      | O => None
      | S fuel' => follow fuel' d t
      end
  | o => Some (p, o)
  end.

Definition target (d : Disk) (p : path) : option node :=
  match follow max_links d p with
  | Some (_, o) => o
  | None => None
  end.

(** [existsSync] on an entry: follows links, false on a dangling one. *)
Definition existsSync (d : Disk) (p : path) : bool :=
  match target d p with Some _ => true | None => false end.

Definition existsSync_dir (d : Disk) (folder : string) : bool :=
  bool_decide (folder ∈ dirs d).

Definition kind_of (n : node) : kind :=
  match n with
  | File _ => KFile
  | Directory => KDirectory
  | Symlink _ => KSymbolicLink
  end.

(** [statSync] describes what the path resolves to. *)
Definition statSync (d : Disk) (p : path) : outcome Stats :=
  match target d p with
  | Some n => Ret (mkStats (kind_of n))
  | None => Throw (Error "ENOENT")
  end.

(** [lstatSync] describes the entry itself; the code never calls it. *)
Definition lstatSync (d : Disk) (p : path) : outcome Stats :=
  match nodes d !! p with
  | Some n => Ret (mkStats (kind_of n))
  | None => Throw (Error "ENOENT")
  end.

Definition readdirSync (d : Disk) (folder : string) : outcome (list string) :=
  if existsSync_dir d folder
  then Ret (omap (fun '(p, _) => if decide (p.1 = folder) then Some p.2 else None)
                 (map_to_list (nodes d)))
  else Throw (Error "ENOENT").

Definition mkdirSync (d : Disk) (folder : string) : outcome Disk :=
  if bool_decide (folder ∈ dirs d) then Ret d
  else if bool_decide (folder ∈ readonly d) then Throw (Error "EACCES")
  else Ret (mkDisk ({[folder]} ∪ dirs d) (nodes d) (readonly d)).

(** [unlinkSync] removes the entry itself, a link included; it fails on a
    missing entry, on a directory and in a read-only directory. *)
Definition unlinkSync (d : Disk) (p : path) : outcome Disk :=
  match nodes d !! p with
  | None => Throw (Error "ENOENT")
  | Some Directory => Throw (Error "EPERM")
  | Some _ =>
      if bool_decide (p.1 ∈ readonly d) then Throw (Error "EACCES")
      else Ret (mkDisk (dirs d) (delete p (nodes d)) (readonly d))
  end.

Definition writeFileSync (d : Disk) (p : path) (data : Buffer) : outcome Disk :=
  match follow max_links d p with
  | None => Throw (Error "ELOOP")
  | Some (q, Some Directory) => Throw (Error "EISDIR")
  | Some (q, _) =>
      if negb (bool_decide (q.1 ∈ dirs d)) then Throw (Error "ENOENT")
      else if bool_decide (q.1 ∈ readonly d) then Throw (Error "EACCES")
      else Ret (mkDisk (dirs d) (<[q := File data]> (nodes d)) (readonly d))
  end.

Definition readFileSync (d : Disk) (p : path) : outcome Buffer :=
  match target d p with
  | Some (File data) => Ret data
  | Some _ => Throw (Error "EISDIR")
  | None => Throw (Error "ENOENT")
  end.

(** [path.resolve(root, '.cache', name)], for a plain [name]: neither
    absolute nor with [.] or [..] segments. *)
Definition resolve_cache (root name : string) : string :=
  root ++ "/.cache/" ++ name.

End Fs.

Module Timers.

(** A pending [setTimeout(() => this.delete(filename), delay)]. *)
Record Timer := mkTimer { tm_filename : string; tm_delay : Z }.

Record Queue := mkQueue {
  live : gmap nat Timer;     (* the timers that may still fire *)
  next : nat                 (* the next handle *)
}.

Definition setTimeout (q : Queue) (t : Timer) : Queue * nat :=
  (mkQueue (<[next q := t]> (live q)) (S (next q)), next q).

Definition clearTimeout (q : Queue) (h : nat) : Queue :=
  mkQueue (delete h (live q)) (next q).

Definition empty : Queue := mkQueue ∅ O.

End Timers.

(** The part of the process that outlives a call: the environment
    variable, the disk, the timer queue, and a record of the attempts to
    remove or write an entry. *)
Inductive syscall :=
| SysUnlink (p : Fs.path)
| SysWrite (p : Fs.path).

Record Sys := mkSys {
  USER_DATA : option string;          (* env.USER_DATA *)
  disk : Fs.Disk;
  timers : Timers.Queue;
  syscalls : list syscall
}.

Definition set_disk (d : Fs.Disk) (s : Sys) : Sys :=
  mkSys (USER_DATA s) d (timers s) (syscalls s).
Definition set_timers (q : Timers.Queue) (s : Sys) : Sys :=
  mkSys (USER_DATA s) (disk s) q (syscalls s).
Definition record_syscall (c : syscall) (s : Sys) : Sys :=
  mkSys (USER_DATA s) (disk s) (timers s) (syscalls s ++ [c]).

(** ** [FileServer] (utils/fileserv.ts) *)

Module FileServer.

Record entry := mkEntry { filename : string; timeout : nat }.

Record t := mkFileServer {
  folder : string;
  timeouts : list entry
}.

(** A method runs on [this] and on the process. *)
Record State := mkState { this : t; sys : Sys }.

Definition on_sys (f : Sys -> Sys) (st : State) : State :=
  mkState (this st) (f (sys st)).
Definition set_timeouts (l : list entry) (st : State) : State :=
  mkState (mkFileServer (folder (this st)) l) (sys st).

Local Open Scope eff_scope.

Definition unlinkSync (p : Fs.path) : Eff.M State unit :=
  Eff.modify (on_sys (record_syscall (SysUnlink p))) ;;;
  st <- Eff.get ;;
  match Fs.unlinkSync (disk (sys st)) p with
  | Ret d => Eff.modify (on_sys (set_disk d))
  | Throw e => Eff.throw e
  end.

Definition writeFileSync (p : Fs.path) (data : Buffer) : Eff.M State unit :=
  Eff.modify (on_sys (record_syscall (SysWrite p))) ;;;
  st <- Eff.get ;;
  match Fs.writeFileSync (disk (sys st)) p data with
  | Ret d => Eff.modify (on_sys (set_disk d))
  | Throw e => Eff.throw e
  end.

Definition setTimeout (tm : Timers.Timer) : Eff.M State nat :=
  fun st =>
    let (q, h) := Timers.setTimeout (timers (sys st)) tm in
    (on_sys (set_timers q) st, Ret h).

Definition clearTimeout (h : nat) : Eff.M State unit :=
  Eff.modify (on_sys (fun s => set_timers (Timers.clearTimeout (timers s) h) s)).

(** [this.timeouts.find(({filename: f}) => f === filename)], with the
    position of the entry found so that it can be updated in place. *)
Definition find (fn : string) (l : list entry) : option (nat * entry) :=
  list_find (fun e => filename e = fn) l.

Definition setup : Eff.M State string :=
  st <- Eff.get ;;
  (if Fs.existsSync_dir (disk (sys st)) (folder (this st)) then Eff.ret tt
   else match Fs.mkdirSync (disk (sys st)) (folder (this st)) with
        | Ret d => Eff.modify (on_sys (set_disk d))
        | Throw e => Eff.throw e
        end) ;;;
  Eff.ret (folder (this st)).

(** The body of the [for] loop of [empty]. *)
Definition empty_one (dir file : string) : Eff.M State unit :=
  let path2file := (dir, file) in
  st <- Eff.get ;;
  if Fs.existsSync (disk (sys st)) path2file then
    stat <- Eff.lift_outcome (Fs.statSync (disk (sys st)) path2file) ;;
    if negb (Fs.isSymbolicLink stat) then
      Eff.try_catch (unlinkSync path2file) (fun _ => Eff.ret tt)
    else Eff.ret tt
  else Eff.ret tt.

Fixpoint for_of {S A} (l : list A) (body : A -> Eff.M S unit) : Eff.M S unit :=
  match l with
  | [] => Eff.ret tt
  | x :: l' => body x ;;; for_of l' body
  end.

Definition empty : Eff.M State unit :=
  st <- Eff.get ;;
  let dir := folder (this st) in
  if negb (Fs.existsSync_dir (disk (sys st)) dir)
  then Eff.throw (Error (dir ++ " does not exist"))
  else
    files <- Eff.lift_outcome (Fs.readdirSync (disk (sys st)) dir) ;;
    for_of files (empty_one dir).

(** [new FileServer(folder)] *)
Definition new (folder_name : string) : Eff.M Sys t :=
  fun s =>
    match USER_DATA s with
    | None => (s, Throw (Error "USER_DATA not set"))
    | Some root =>
        if negb (truthy_string root) then (s, Throw (Error "USER_DATA not set"))
        else
          let this0 := mkFileServer (Fs.resolve_cache root folder_name) [] in
          match (setup ;;; empty) (mkState this0 s) with
          | (st, Ret _) => (sys st, Ret (this st))
          | (st, Throw e) => (sys st, Throw e)
          end
    end.

Definition resolveFile (fs : t) (fn : string) : Fs.path := (folder fs, fn).

(** The callback of every timer is [() => this.delete(filename)]. *)
Definition delete_after (fn : string) (lifetime : Z) : Timers.Timer :=
  Timers.mkTimer fn (lifetime * 1000).

Definition resetFile (fn : string) (lifetime : Z) : Eff.M State bool :=
  st <- Eff.get ;;
  match find fn (timeouts (this st)) with
  | Some (i, found) =>
      clearTimeout (timeout found) ;;;
      h <- setTimeout (delete_after fn lifetime) ;;
      Eff.modify (fun st => set_timeouts (<[i := mkEntry (filename found) h]> (timeouts (this st))) st) ;;;
      Eff.ret true
  | None => Eff.ret false
  end.

Definition initFile (fn : string) (buffer : Buffer) (lifetime : Z) : Eff.M State bool :=
  Eff.try_catch
    (st <- Eff.get ;;
     writeFileSync (resolveFile (this st) fn) buffer ;;;
     h <- setTimeout (delete_after fn lifetime) ;;
     Eff.modify (fun st => set_timeouts (timeouts (this st) ++ [mkEntry fn h]) st) ;;;
     Eff.ret true)
    (fun _ => Eff.ret false).

Definition default_lifetime : Z := 600.

Definition served_path (fn : string) : string := "/files/" ++ fn.

Definition serv (data : Buffer) (fn : string) (lifetime : option Z) : Eff.M State string :=
  let lifetime := default default_lifetime lifetime in
  exist <- resetFile fn lifetime ;;
  if exist then Eff.ret (served_path fn)
  else
    create <- initFile fn data lifetime ;;
    if create then Eff.ret (served_path fn)
    else Eff.ret (served_path fn).

Definition delete (fn : string) : Eff.M State bool :=
  Eff.try_catch
    (st <- Eff.get ;;
     match find fn (timeouts (this st)) with
     | Some (_, found) => clearTimeout (timeout found)
     | None => Eff.ret tt
     end ;;;
     Eff.modify (fun st => set_timeouts (filter (fun e => filename e ≠ fn) (timeouts (this st))) st) ;;;
     st <- Eff.get ;;
     unlinkSync (resolveFile (this st) fn) ;;;
     Eff.ret true)
    (fun _ => Eff.ret false).

(** A live timer fires: it leaves the queue and its callback runs. *)
Definition fire (h : nat) : Eff.M State unit :=
  st <- Eff.get ;;
  match Timers.live (timers (sys st)) !! h with
  | Some tm =>
      clearTimeout h ;;;
      delete (Timers.tm_filename tm) ;;;
      Eff.ret tt
  | None => Eff.ret tt
  end.

(** [FileServer.getInstance(folder?)], on the static [_instance]. *)
Definition getInstance (folder_name : option string) : Eff.M (option t * Sys) t :=
  fun '(inst, s) =>
    match inst with
    | Some fs => ((inst, s), Ret fs)
    | None =>
        if negb (truthy_opt_string folder_name)
        then ((inst, s), Throw (Error "couldn't create instance, no folder given"))
        else match new (default EmptyString folder_name) s with
             | (s', Ret fs) => ((Some fs, s'), Ret fs)
             | (s', Throw e) => ((inst, s'), Throw e)
             end
    end.

End FileServer.

(** ** [Mirror], the class every scraper extends *)

Module Mirror.

(** *** Data *)

(** The [type] argument of [fetch]; TypeScript admits three, the code also
    guards against any other. *)
Inductive fetch_type :=
| THtml
| TJson
| TString
| TOther (name : string).

Definition type_name (t : fetch_type) : string :=
  match t with
  | THtml => "html"
  | TJson => "json"
  | TString => "string"
  | TOther n => n
  end.

Inductive return_type := Cover | Page.

Inductive method := Post | Patch | Put | Delete.

(** Structured data, as [JSON.parse] or axios produce it. *)
#[local] Unset Elimination Schemes.
Inductive json :=
| JNull
| JBool (b : bool)
| JNum (n : Q)
| JStr (s : string)
| JArr (items : list json)
| JObj (fields : list (string * json)).
#[local] Set Elimination Schemes.

(** What a transport may hand back. *)
Inductive value :=
| VUndefined
| VData (j : json)
| VBuffer (b : Buffer)
| VError (e : exn)            (* an Error returned, not thrown *)
| VHtml (markup : string).    (* the CheerioAPI of [load(markup)] *)

Definition VString (s : string) : value := VData (JStr s).

Definition typeof (v : value) : string :=
  match v with
  | VUndefined => "undefined"
  | VData (JStr _) => "string"
  | VData (JBool _) => "boolean"
  | VData (JNum _) => "number"
  | VData _ => "object"
  | VBuffer _ => "object"
  | VError _ => "object"
  | VHtml _ => "function"
  end.

(** A value in a condition. *)
Definition truthy (v : value) : bool :=
  match v with
  | VUndefined => false
  | VData JNull => false
  | VData (JBool b) => b
  | VData (JNum n) => negb (Qeq_bool n 0)
  | VData (JStr s) => truthy_string s
  | _ => true
  end.

Record Cookie := mkCookie { c_name : string; c_value : string }.

(** [AxiosRequestConfig]: a bag of properties the code only passes on. *)
Definition AxiosRequestConfig : Type := list (string * string).

(** [ClusterJob], with [spread] for the properties a caller's axios
    configuration adds when it is spread into a job. *)
Record ClusterJob := mkJob {
  url : string;
  referer : option string;
  headers : gmap string string;
  cookies : option (list Cookie);
  waitForSelector : option string;
  timeout : option Z;
  spread : AxiosRequestConfig
}.

Definition set_timeout (ms : Z) (j : ClusterJob) : ClusterJob :=
  mkJob (url j) (referer j) (headers j) (cookies j) (waitForSelector j) (Some ms) (spread j).
Definition set_headers (h : gmap string string) (j : ClusterJob) : ClusterJob :=
  mkJob (url j) (referer j) h (cookies j) (waitForSelector j) (timeout j) (spread j).

Record URL := mkURL { origin : string; pathname : string; search : string }.

Record Meta := mkMeta { quality : Q; speed : Q; popularity : Q }.

Record Options := mkOptions {
  enabled : bool;
  cache : bool;
  others : list (string * string)
}.

Record MirrorConstructor := mkMirrorConstructor {
  mc_name : string;
  mc_displayName : string;
  mc_host : string;
  mc_althost : option (list string);
  mc_langs : list string;
  mc_waitTime : option Z;
  mc_icon : string;
  mc_meta : Meta;
  mc_version : Z;
  mc_entryLanguageHasItsOwnURL : option bool;
  mc_options : Options
}.

(** The fields of an instance. *)
Record t := mkMirror {
  concurrency : Z;                      (* #concurrency *)
  icon : string;                        (* #icon *)
  version : Z;
  entryLanguageHasItsOwnURL : bool;
  name : string;
  displayName : string;
  host : string;
  althost : option (list string);
  langs : list string;
  meta : Meta;
  waitTime : Z;
  options : Options                     (* #db.data *)
}.

Definition set_concurrency (c : Z) (m : t) : t :=
  mkMirror c (icon m) (version m) (entryLanguageHasItsOwnURL m) (name m)
    (displayName m) (host m) (althost m) (langs m) (meta m) (waitTime m) (options m).

Record mirrorInfo := mkMirrorInfo {
  mi_version : Z;
  mi_name : string;
  mi_displayName : string;
  mi_host : string;
  mi_enabled : bool;
  mi_icon : string;
  mi_langs : list string;
  mi_meta : Meta;
  mi_options : Options;
  mi_entryLanguageHasItsOwnURL : bool
}.

(** What the instance does that the outside can see. *)
Inductive event :=
| EvSleep (ms : Z)                                                   (* #wait *)
| EvAxiosGet (job : ClusterJob)
| EvAxiosGetImage (url referer : string) (config : AxiosRequestConfig)
| EvAxiosSend (m : method) (url : string) (config : AxiosRequestConfig)
| EvCrawl (job : ClusterJob) (isBinary : bool) (type : option fetch_type)
| EvLog (what : string).

Definition is_transport (e : event) : bool :=
  match e with
  | EvSleep _ | EvLog _ => false
  | _ => true
  end.

(** An instance in its process. *)
Record World := mkWorld {
  this : t;
  FileServer_instance : option FileServer.t;    (* FileServer._instance *)
  sys : Sys;
  trace : list event
}.

Definition on_this (f : t -> t) (w : World) : World :=
  mkWorld (f (this w)) (FileServer_instance w) (sys w) (trace w).
Definition on_sys (f : Sys -> Sys) (w : World) : World :=
  mkWorld (this w) (FileServer_instance w) (f (sys w)) (trace w).
Definition emit (e : event) (w : World) : World :=
  mkWorld (this w) (FileServer_instance w) (sys w) (trace w ++ [e]).

(** The records the builders finish: what they receive (the identifier, the
    date and the read flag optional) and what they return.  [rest] stands
    for the fields the builders copy untouched. *)
Record ChapterInput := mkChapterInput {
  ch_id : option string;
  ch_url : string;
  ch_lang : string;
  ch_number : Q;
  ch_date : option Z;
  ch_read : option bool;
  ch_rest : list (string * string)
}.

Record Chapter := mkChapter {
  chapter_id : string;
  chapter_url : string;
  chapter_lang : string;
  chapter_number : Q;
  chapter_date : Z;
  chapter_read : bool;
  chapter_rest : list (string * string)
}.

Record MangaInput := mkMangaInput {
  mg_id : option string;
  mg_url : string;
  mg_langs : list string;
  mg_chapters : list Chapter;
  mg_rest : list (string * string)
}.

Record MangaPage := mkMangaPage {
  page_id : string;
  page_url : string;
  page_langs : list string;
  page_chapters : list Chapter;
  page_rest : list (string * string);
  page_mirror : string * Z;           (* { name, version } *)
  page_inLibrary : bool;
  page_userCategories : list string
}.

Record SearchInput := mkSearchInput {
  sr_id : option string;
  sr_url : string;
  sr_langs : list string;
  sr_rest : list (string * string)
}.

Record SearchResult := mkSearchResult {
  result_id : string;
  result_url : string;
  result_langs : list string;
  result_rest : list (string * string);
  result_mirrorinfo : mirrorInfo;
  result_inLibrary : bool
}.

(** The argument of [UUID.generate]. *)
Record uuid := mkUuid {
  u_mirror : string * Z;
  u_langs : list string;
  u_url : string;
  u_id : option string
}.

(** A query to [MangaDatabase.get]. *)
Inductive db_query :=
| ById (id : string) (langs : list string)
| ByUrl (mirror : string) (langs : list string) (url : string).

(** *** The collaborators *)

(** Modelled from the spec: the library store [MangaDatabase] (db/mangas),
    which is not among the sources.  "has(source, languages, url) →
    boolean; get({id, languages} | {source, languages, url}) →
    record|undefined": a query answers the identifier of the record
    found. *)
Record LibraryStore := mkLibraryStore {
  store_get : db_query -> option string;
  store_has : string -> list string -> string -> bool
}.

(** Modelled from the spec: the identifier generator [UUID.generate]
    (db/uuids), which is not among the sources: "an opaque function from
    (source, language-set, url, optional forced id) to a stable identifier
    string".  The boolean is the [force] argument of the call. *)
Definition Generator : Type := uuid -> bool -> string.

(** One field for each imported function the class calls.  A [None] or a
    [Throw] is the call throwing. *)
Record Env := mkEnv {
  axios_get : ClusterJob -> outcome json;                    (* response.data: a string or parsed data *)
  axios_get_arraybuffer : string -> string -> AxiosRequestConfig -> outcome Buffer;
  axios_send : method -> string -> value -> AxiosRequestConfig -> outcome value;
  crawler : ClusterJob -> bool -> option fetch_type -> outcome value;
  selector_matches : string -> string -> bool;               (* $(selector).length, on load(markup) *)
  JSON_parse : string -> option json;
  JSON_stringify : value -> string;
  fileTypeFromBuffer : Buffer -> option string;              (* the mime of the type found *)
  filenamify : string -> string;
  base64 : Buffer -> string;                                 (* buffer.toString('base64') *)
  new_URL : string -> option URL;
  MangaDatabase : LibraryStore;
  uuidgen : Generator;
  Date_now : Z;
  cache_age_enabled : bool;                                  (* SettingsDatabase.data.cache.age.enabled *)
  cache_size_enabled : bool                                  (* SettingsDatabase.data.cache.size.enabled *)
}.

Definition MangaDatabase_get (E : Env) : db_query -> option string :=
  store_get (MangaDatabase E).
Definition MangaDatabase_has (E : Env) : string -> list string -> string -> bool :=
  store_has (MangaDatabase E).
Definition uuidgen_generate (E : Env) : uuid -> bool -> string := uuidgen E.

(** *** Strings *)

(** [s.replace(/http(s?):\/\//g, '')]: [skip] characters of a match are
    still to be dropped. *)
Fixpoint strip_scheme_from (skip : nat) (s : string) : string :=
  match s with
  | EmptyString => EmptyString
  | String c s' =>
      match skip with
      | S k => strip_scheme_from k s'
      | O =>
          if String.prefix "https://" s then strip_scheme_from 7 s'
          else if String.prefix "http://" s then strip_scheme_from 6 s'
          else String c (strip_scheme_from 0 s')
      end
  end.

Definition strip_scheme (s : string) : string := strip_scheme_from 0 s.

(** [cookies.map(c => c.name+'='+c.value+';').join(' ')] *)
Fixpoint join_cookies (l : list Cookie) : string :=
  match l with
  | [] => EmptyString
  | [c] => c_name c ++ "=" ++ c_value c ++ ";"
  | c :: l' => c_name c ++ "=" ++ c_value c ++ ";" ++ " " ++ join_cookies l'
  end.

(** [a || b] on optional strings. *)
Definition or_string (a : option string) (b : string) : string :=
  match a with
  | Some s => if truthy_string s then s else b
  | None => b
  end.

(** [chapters.sort((a, b) => a.number - b.number)]: the sort is stable.
    The chapters are inserted from the last to the first, each before
    the ones already there that are not smaller, so that chapters of
    equal number keep their order. *)
Definition number (c : Chapter) : Q := chapter_number c.

Fixpoint insert_sorted (c : Chapter) (l : list Chapter) : list Chapter :=
  match l with
  | [] => [c]
  | x :: l' =>
      if Qle_bool (number c) (number x) then c :: l
      else x :: insert_sorted c l'
  end.

Definition sort_chapters (l : list Chapter) : list Chapter :=
  foldr insert_sorted [] l.

Section Methods.
Context (E : Env).
Local Open Scope eff_scope.

Local Abbreviation M := (Eff.M World).

(** *** Construction and getters *)

Definition cacheEnabled : bool := cache_age_enabled E || cache_size_enabled E.

Definition cache_dir (root : string) (m : t) : string := Fs.resolve_cache root (name m).

Definition new (opts : MirrorConstructor) : Eff.M Sys t :=
  fun s =>
    match USER_DATA s with
    | None => (s, Throw (Error "USER_DATA is not defined"))
    | Some root =>
        let m :=
          mkMirror 0 (mc_icon opts) (mc_version opts)
            (default true (mc_entryLanguageHasItsOwnURL opts))
            (mc_name opts) (mc_displayName opts) (mc_host opts) (mc_althost opts)
            (mc_langs opts) (mc_meta opts)
            (match mc_waitTime opts with
             | Some 0 | None => 200
             | Some n => n
             end)
            (mc_options opts) in
        if cacheEnabled && negb (Fs.existsSync_dir (disk s) (cache_dir root m)) then
          match Fs.mkdirSync (disk s) (cache_dir root m) with
          | Ret d => (set_disk d s, Ret m)
          | Throw e => (s, Throw e)
          end
        else (s, Ret m)
    end.

(** [const { _v, ...options } = allOptions]: the options without the
    key [_v]. *)
Definition without_v (o : Options) : Options :=
  mkOptions (enabled o) (cache o) (filter (fun kv => kv.1 <> "_v") (others o)).

(** The getter [mirrorInfo], outside development mode, where [icon] is
    the icon the instance was given. *)
Definition get_mirrorInfo (m : t) : mirrorInfo :=
  mkMirrorInfo (version m) (name m) (displayName m) (host m)
    (enabled (options m)) (icon m) (langs m) (meta m) (without_v (options m))
    (entryLanguageHasItsOwnURL m).

(** [#wait]: the delay handed to [setTimeout]. *)
Definition wait_delay (m : t) : Z := waitTime m * concurrency m.

Definition wait : M unit :=
  w <- Eff.get ;;
  Eff.modify (emit (EvSleep (wait_delay (this w)))).

Definition logger (what : string) : M unit := Eff.modify (emit (EvLog what)).

Definition isInLibrary (mirror : string) (langs : list string) (url : string) : bool :=
  MangaDatabase_has E mirror langs url.

(** *** Identity and the builders *)

Definition uuidv5 (m : t) (force : bool) (langs : list string) (url : string)
    (id : option string) : outcome string :=
  if force && truthy_opt_string id then
    match MangaDatabase_get E (ById (default EmptyString id) langs) with
    | Some mg_id => Ret mg_id
    | None => Ret (uuidgen_generate E (mkUuid (name m, version m) langs url id) true)
    end
  else if negb force && truthy_string url then
    match MangaDatabase_get E (ByUrl (name m) langs url) with
    | Some mg_id => Ret mg_id
    | None => Ret (uuidgen_generate E (mkUuid (name m, version m) langs url id) false)
    end
  else Throw (Error "uuidgen: missing options").

Definition assign_id (m : t) (id : option string) (langs : list string) (url : string)
    : outcome string :=
  if truthy_opt_string id then uuidv5 m true langs url id
  else uuidv5 m false langs url None.

Definition mangaPageBuilder (m : t) (mg : MangaInput) : outcome MangaPage :=
  match assign_id m (mg_id mg) (mg_langs mg) (mg_url mg) with
  | Throw e => Throw e
  | Ret id =>
      Ret (mkMangaPage id (mg_url mg) (mg_langs mg) (sort_chapters (mg_chapters mg))
             (mg_rest mg) (name m, version m)
             (isInLibrary (name m) (mg_langs mg) (mg_url mg)) [])
  end.

Definition chaptersBuilder (m : t) (chapter : ChapterInput) : outcome Chapter :=
  match assign_id m (ch_id chapter) [ch_lang chapter] (ch_url chapter) with
  | Throw e => Throw e
  | Ret id =>
      Ret (mkChapter id (ch_url chapter) (ch_lang chapter) (ch_number chapter)
             (match ch_date chapter with
              | Some 0 | None => Date_now E
              | Some d => d
              end)
             (default false (ch_read chapter))
             (ch_rest chapter))
  end.

Definition searchResultsBuilder (m : t) (mg : SearchInput) : outcome SearchResult :=
  match assign_id m (sr_id mg) (sr_langs mg) (sr_url mg) with
  | Throw e => Throw e
  | Ret id =>
      Ret (mkSearchResult id (sr_url mg) (sr_langs mg) (sr_rest mg) (get_mirrorInfo m)
             (isInLibrary (name m) (sr_langs mg) (sr_url mg)))
  end.

(** *** The single exit point *)

(** [FileServer.getInstance().serv(data, filename)] *)
Definition FileServer_serv (data : Buffer) (fn : string) : M string :=
  fun w =>
    match FileServer.getInstance None (FileServer_instance w, sys w) with
    | ((inst, s), Throw e) => (mkWorld (this w) inst s (trace w), Throw e)
    | ((inst, s), Ret fs) =>
        match FileServer.serv data fn None (FileServer.mkState fs s) with
        | (st, Ret servable) =>
            (mkWorld (this w) (Some (FileServer.this st)) (FileServer.sys st) (trace w),
             Ret servable)
        | (st, Throw e) =>
            (mkWorld (this w) (Some (FileServer.this st)) (FileServer.sys st) (trace w),
             Throw e)
        end
    end.

Definition decrement (clamp : bool) (m : t) : t :=
  let c := concurrency m - 1 in
  set_concurrency (if clamp && (c <? 0)%Z then 0 else c) m.

Definition returnFetch (data : value) (fn : option string) : M value :=
  Eff.modify (on_this (decrement true)) ;;;
  match data, fn with
  | VBuffer b, Some f =>
      if truthy_string f then
        servable <- FileServer_serv b f ;;
        Eff.ret (VString servable)
      else Eff.ret data
  | _, _ => Eff.ret data
  end.

(** [this.#concurrency--] on the paths that throw. *)
Definition release : M unit := Eff.modify (on_this (decrement false)).

(** [this.#concurrency++], the first statement of every operation. *)
Definition acquire : M unit :=
  Eff.modify (on_this (fun m => set_concurrency (concurrency m + 1) m)).

Definition loadHTML (content : string) : value := VHtml content.

(** *** The response cache *)

Definition getFileMime (buffer : Buffer) : string :=
  match fileTypeFromBuffer E buffer with
  | Some mime => mime
  | None => "image/jpeg"
  end.

Definition generateCacheFilename (u : string) (dependsOnParams : bool)
    : outcome (string * string) :=
  match new_URL E u with
  | None => Throw (Error "Invalid URL")
  | Some uri =>
      let identifier := origin uri ++ pathname uri ++ (if dependsOnParams then search uri else EmptyString) in
      Ret (identifier, filenamify E identifier)
  end.

(** [#saveToCache] is called without [await] and has none inside: it runs
    to its end at once, and what it throws is lost with its promise. *)
Definition saveToCache (fn : string) (buffer : Buffer) : M unit :=
  w <- Eff.get ;;
  match USER_DATA (sys w) with
  | None => Eff.ret tt
  | Some root =>
      if cacheEnabled then
        Eff.modify (on_sys (record_syscall (SysWrite (cache_dir root (this w), fn)))) ;;;
        match Fs.writeFileSync (disk (sys w)) (cache_dir root (this w), fn) buffer with
        | Ret d => Eff.modify (on_sys (set_disk d)) ;;; logger "saved to cache"
        | Throw _ => Eff.ret tt
        end
      else Eff.ret tt
  end.

Definition loadFromCache (fn : string) (returnType : return_type) : M (option value) :=
  w <- Eff.get ;;
  match USER_DATA (sys w) with
  | None => Eff.throw (Error "USER_DATA is not defined")
  | Some root =>
      if cacheEnabled then
        match Fs.readFileSync (disk (sys w)) (cache_dir root (this w), fn) with
        | Ret buffer =>
            logger "cache hit" ;;;
            match returnType with
            | Cover =>
                Eff.ret (Some (VString ("data:" ++ getFileMime buffer ++ ";base64," ++ base64 E buffer)))
            | Page => Eff.ret (Some (VBuffer buffer))
            end
        | Throw _ => Eff.ret None
        end
      else Eff.ret None
  end.

(** *** [downloadImage] *)

Definition double_quote : string := String (Ascii.ascii_of_nat 34) EmptyString.

(** The selector [img[src^="<identifier>"]]. *)
Definition image_selector (identifier : string) : string :=
  "img[src^=" ++ double_quote ++ identifier ++ double_quote ++ "]".

(** [mime && mime.startsWith('image/')] *)
Definition is_image (mime : string) : bool :=
  truthy_string mime && startsWith mime "image/".

(** The two transports, tried in turn for the bytes of an image. *)
Definition fetch_image (u referer : string) (identifier : string)
    (config : AxiosRequestConfig) : M (option Buffer) :=
  Eff.modify (emit (EvAxiosGetImage u referer config)) ;;;
  match axios_get_arraybuffer E u referer config with
  | Ret ab => Eff.ret (Some ab)
  | Throw _ =>
      let job := mkJob u (Some referer) ∅ None (Some (image_selector identifier))
                   (Some 10000) config in
      Eff.modify (emit (EvCrawl job true None)) ;;;
      res <- Eff.lift_outcome (crawler E job true None) ;;
      match res with
      | VBuffer b => Eff.ret (Some b)
      | _ => Eff.ret None
      end
  end.

(** [downloadImage] once the cache has answered nothing. *)
Definition downloadImage_miss (u : string) (returnType : return_type)
    (referer : option string) (identifier fn : string) (config : AxiosRequestConfig)
    : M value :=
  wait ;;;
  w <- Eff.get ;;
  buffer <- fetch_image u (or_string referer (host (this w))) identifier config ;;
  match buffer with
  | None => returnFetch VUndefined None
  | Some buffer =>
      let mime := getFileMime buffer in
      if is_image mime then
        (if cache (options (this w)) then saveToCache fn buffer else Eff.ret tt) ;;;
        match returnType with
        | Page => returnFetch (VBuffer buffer) (Some fn)
        | Cover =>
            returnFetch
              (VString ("data:" ++ mime ++ ";charset=utf-8;base64," ++ base64 E buffer))
              None
        end
      else Eff.ret VUndefined
  end.

(** [downloadImage] after its first statement. *)
Definition downloadImage_rest (u : string) (returnType : return_type)
    (referer : option string) (dependsOnParams : bool) (config : AxiosRequestConfig)
    : M value :=
  id <- Eff.lift_outcome (generateCacheFilename u dependsOnParams) ;;
  let identifier := id.1 in
  let fn := id.2 in
  cached <- loadFromCache fn returnType ;;
  if truthy (default VUndefined cached)
  then returnFetch (default VUndefined cached) (Some fn)
  else downloadImage_miss u returnType referer identifier fn config.

Definition downloadImage (u : string) (returnType : return_type)
    (referer : option string) (dependsOnParams : bool) (config : AxiosRequestConfig)
    : M value :=
  acquire ;;; downloadImage_rest u returnType referer dependsOnParams config.

(** *** [post] *)

(** [post] once it has waited. *)
Definition post_rest (u : string) (data : value) (type : method)
    (config : AxiosRequestConfig) : M value :=
  Eff.modify (emit (EvAxiosSend type u config)) ;;;
  match axios_send E type u data config with
  | Ret resp_data => Eff.ret resp_data
  | Throw e => logger "post error" ;;; Eff.ret VUndefined
  end.

Definition post (u : string) (data : value) (type : method)
    (config : AxiosRequestConfig) : M value :=
  acquire ;;; wait ;;; post_rest u data type config.

(** *** [fetch] *)

(** The headers both transports receive. *)
Definition prepare (m : t) (config : ClusterJob) (type : fetch_type) : ClusterJob :=
  let domain := strip_scheme (host m) in
  let h0 := headers config in
  let h1 :=
    match type with
    | TJson => h0
    | _ => <["referer" := or_string (referer config) domain]> h0
    end in
  let h2 :=
    match cookies config with
    | Some cs => <["Cookie" := join_cookies cs ++ " path=/; domain=" ++ domain]> h1
    | None => h1
    end in
  set_headers h2 config.

Definition as_text (v : value) : string :=
  match v with VData (JStr text) => text | _ => EmptyString end.

(** The [try] block of [#internalFetch]: the direct attempt and the check
    of the selector. *)
Definition direct_attempt (config : ClusterJob) : M value :=
  Eff.modify (emit (EvAxiosGet (set_timeout 5000 config))) ;;;
  response <- Eff.lift_outcome (axios_get E (set_timeout 5000 config)) ;;
  let data := VData response in
  if String.eqb (typeof data) "string" then
    if truthy_opt_string (waitForSelector config) then
      if selector_matches E (as_text data) (default EmptyString (waitForSelector config))
      then Eff.ret data
      else Eff.throw (Error "selector_not_found")
    else Eff.ret data
  else
    if truthy_opt_string (waitForSelector config)
    then Eff.throw (Error ("no_selector_in_" ++ typeof data))
    else Eff.ret data.

(** The test of the [catch] block: the exception is thrown again. *)
Definition is_no_selector (e : exn) : bool :=
  instanceof_Error e && includes "no_selector_in_" (message e).

Definition render (config : ClusterJob) (type : fetch_type) : M value :=
  Eff.modify (emit (EvCrawl (set_timeout 10000 config) false (Some type))) ;;;
  Eff.lift_outcome (crawler E (set_timeout 10000 config) false (Some type)).

Definition internalFetch (config : ClusterJob) (type : fetch_type) : M value :=
  w <- Eff.get ;;
  let config := prepare (this w) config type in
  Eff.try_catch (direct_attempt config)
    (fun e =>
       if is_no_selector e then Eff.throw e
       else render config type).

Definition is_VError (v : value) : bool :=
  match v with VError _ => true | _ => false end.

Definition as_exn (v : value) : exn :=
  match v with VError e => e | _ => NonError (typeof v) end.

(** What [fetch] makes of the answer of the transports. *)
Definition fetch_finish (res : value) (type : fetch_type) : M value :=
  if String.eqb (typeof res) "undefined" || is_VError res then
    release ;;;
    Eff.throw (if truthy res then as_exn res else Error "no_response")
  else if String.eqb (typeof res) "string" then
    match type with
    | TString => returnFetch res None
    | THtml => returnFetch (loadHTML (as_text res)) None
    | TJson =>
        Eff.try_catch
          (match JSON_parse E (as_text res) with
           | Some j => returnFetch (VData j) None
           | None => Eff.throw (Error "SyntaxError")
           end)
          (fun _ => release ;;; Eff.throw (Error "invalid_json"))
    | TOther _ => release ;;; Eff.throw (Error ("unknown_type: " ++ type_name type))
    end
  else if String.eqb (typeof res) "object" then
    match type with
    | TJson => returnFetch res None
    | TString => returnFetch (VString (JSON_stringify E res)) None
    | THtml => release ;;; Eff.throw (Error "cant_parse_json_to_html")
    | TOther _ => release ;;; Eff.throw (Error ("unknown_type: " ++ type_name type))
    end
  else
    release ;;; Eff.throw (Error "unknown_fetch_error").

(** [fetch] once it has waited. *)
Definition fetch_rest (config : ClusterJob) (type : fetch_type) : M value :=
  res <- internalFetch config type ;;
  fetch_finish res type.

Definition fetch (config : ClusterJob) (type : fetch_type) : M value :=
  acquire ;;; wait ;;; fetch_rest config type.

End Methods.

End Mirror.

(** * What is stated of the file server *)

Module FileServerSpec.
Import FileServer.

(** The states a server goes through: built by [new] in a process with no
    pending timer, then any sequence of [serv], [delete] and timers
    firing. *)
Inductive op :=
| OpServ (data : Buffer) (fn : string) (lifetime : option Z)
| OpDelete (fn : string)
| OpFire (h : nat).

Definition run_op (o : op) (st : State) : State :=
  match o with
  | OpServ data fn lifetime => (serv data fn lifetime st).1
  | OpDelete fn => (delete fn st).1
  | OpFire h => (fire h st).1
  end.

Inductive reachable : State -> Prop :=
| reach_new s folder_name s' fs :
    Timers.live (timers s) = ∅ ->
    new folder_name s = (s', Ret fs) ->
    reachable (mkState fs s')
| reach_op st o :
    reachable st ->
    reachable (run_op o st).

Definition live_timers (st : State) : gmap nat Timers.Timer :=
  Timers.live (timers (sys st)).

(** At most one live timer per file name. *)
Definition one_timer_per_file (st : State) : Prop :=
  forall h1 h2 t1 t2,
    live_timers st !! h1 = Some t1 ->
    live_timers st !! h2 = Some t2 ->
    Timers.tm_filename t1 = Timers.tm_filename t2 ->
    h1 = h2.

(** The table has one entry per file name and every live timer is the one
    its file's entry holds. *)
Definition table_ok (st : State) : Prop :=
  NoDup (filename <$> timeouts (this st)) /\
  forall h tm, live_timers st !! h = Some tm ->
               mkEntry (Timers.tm_filename tm) h ∈ timeouts (this st).

(** The state [resetFile] leaves when it finds the entry [found] at [i]:
    its timer cleared and a new one in its place. *)
Definition reset_state (st : State) (i : nat) (found : entry) (fn : string) (lifetime : Z) : State :=
  let q := timers (sys st) in
  mkState
    (mkFileServer (folder (this st))
       (<[i := mkEntry (filename found) (Timers.next q)]> (timeouts (this st))))
    (set_timers
       (Timers.mkQueue
          (<[Timers.next q := delete_after fn lifetime]> (base.delete (timeout found) (Timers.live q)))
          (S (Timers.next q)))
       (sys st)).

Definition is_link (n : Fs.node) : bool :=
  match n with Fs.Symlink _ => true | _ => false end.

(** One attempt to unlink [p], whose failure is ignored. *)
Definition attempt_unlink (p : Fs.path) (st : State) : State :=
  mkState (this st)
    (mkSys (USER_DATA (sys st))
       (match Fs.unlinkSync (disk (sys st)) p with
        | Ret d => d
        | Throw _ => disk (sys st)
        end)
       (timers (sys st))
       (syscalls (sys st) ++ [SysUnlink p])%list).

(** The names [readdirSync] lists. *)
Definition listing (d : Fs.Disk) (dir : string) : list string :=
  omap (fun '(p, _) => if decide (p.1 = dir) then Some p.2 else None)
       (map_to_list (Fs.nodes d)).

(** The purge of [dir] at the moment it has gone through the entries
    [seen], started on the disk [d1] that [setup] left. *)
Definition purge_after (s : Sys) (dir : string) (d1 : Fs.Disk) (seen : list string)
    : State :=
  (for_of seen (empty_one dir) (mkState (mkFileServer dir []) (set_disk d1 s))).1.

(** C10 as stated: construction attempts to unlink every entry of the
    folder. *)
Definition purge_unlinks_every_entry (s : Sys) (folder_name : string) : Prop :=
  forall s' fs,
    new folder_name s = (s', Ret fs) ->
    forall file,
      is_Some (Fs.nodes (disk s) !! (folder fs, file)) ->
      SysUnlink (folder fs, file) ∈ syscalls s'.

(** A serving folder left with a regular file, a link to a file elsewhere
    and a link whose target is gone. *)
Definition stale_disk : Fs.Disk :=
  Fs.mkDisk {["/data/.cache/files"; "/data/covers"]}
    (<[("/data/.cache/files", "a.png") := Fs.File []]>
       (<[("/data/.cache/files", "cover") := Fs.Symlink ("/data/covers", "1.jpg")]>
          (<[("/data/.cache/files", "dangling") := Fs.Symlink ("/tmp", "gone")]>
             (<[("/data/covers", "1.jpg") := Fs.File []]> ∅))))
    ∅.

Definition stale_process : Sys :=
  mkSys (Some "/data") stale_disk Timers.empty [].

End FileServerSpec.

(** * What is stated of the fetch engine *)

Module MirrorSpec.
Import Mirror.

(** ** Interleaved operations

    An operation runs up to its first suspension when it is called, and
    the rest of it later; other operations of the same instance run in
    between.  The counter is written by the first statement of an
    operation and then once more at most, where the operation ends: a run
    of the instance is a sequence of operations starting and of started
    operations finishing, in any order. *)
Inductive call :=
| CallFetch (config : ClusterJob) (type : fetch_type)
| CallPost (u : string) (data : value) (type : method) (config : AxiosRequestConfig)
| CallDownloadImage (u : string) (returnType : return_type) (referer : option string)
    (dependsOnParams : bool) (config : AxiosRequestConfig).

Local Open Scope eff_scope.

Definition perform (E : Env) (c : call) : Eff.M World value :=
  match c with
  | CallFetch config type => fetch E config type
  | CallPost u data type config => post E u data type config
  | CallDownloadImage u returnType referer dependsOnParams config =>
      downloadImage E u returnType referer dependsOnParams config
  end.

(** Up to the first suspension: [fetch] and [post] have called [#wait],
    [downloadImage] has only raised the counter. *)
Definition start (c : call) : Eff.M World unit :=
  match c with
  | CallFetch _ _ | CallPost _ _ _ _ => acquire ;;; wait
  | CallDownloadImage _ _ _ _ _ => acquire
  end.

Definition rest (E : Env) (c : call) : Eff.M World value :=
  match c with
  | CallFetch config type => fetch_rest E config type
  | CallPost u data type config => post_rest E u data type config
  | CallDownloadImage u returnType referer dependsOnParams config =>
      downloadImage_rest E u returnType referer dependsOnParams config
  end.

Inductive move :=
| Start (c : call)
| Finish (i : nat).

Record Run := mkRun { world : World; in_flight : list call }.

(** [Finish i]: the i-th operation in flight ends. *)
Definition step (E : Env) (r : Run) (mv : move) : Run :=
  match mv with
  | Start c => mkRun (start c (world r)).1 (in_flight r ++ [c])
  | Finish i =>
      match in_flight r !! i with
      | Some c => mkRun (rest E c (world r)).1 (base.delete i (in_flight r))
      | None => r
      end
  end.

Definition run (E : Env) (moves : list move) (r : Run) : Run :=
  foldl (step E) r moves.

(** A freshly constructed instance, in its process. *)
Definition fresh (m : t) (inst : option FileServer.t) (s : Sys) : Run :=
  mkRun (mkWorld m inst s []) [].

Definition counter (r : Run) : Z := concurrency (this (world r)).

(** How an operation may leave the counter when it ends. *)
Inductive exit := ExitNone | ExitRelease | ExitReturnFetch.

Definition apply_exit (k : exit) (m : t) : t :=
  match k with
  | ExitNone => m
  | ExitRelease => decrement false m
  | ExitReturnFetch => decrement true m
  end.

Definition balanced (r : Run) : Prop :=
  Z.of_nat (length (in_flight r)) <= counter r.

(** What a computation does to the fields of the instance. *)
Definition preserves {A} (m : Eff.M World A) : Prop :=
  forall w, this (m w).1 = this w.

Definition exits {A} (m : Eff.M World A) : Prop :=
  forall w, exists k, this (m w).1 = apply_exit k (this w).

(** The world in which [fetch] calls the transports: the counter raised
    and the wait recorded. *)
Definition entered (w : World) : World := ((acquire ;;; wait) w).1.

(** The delay [#wait] computes for a [fetch] or a [post] called in [w]: the
    counter is raised first. *)
Definition delay_of_call (w : World) : Z := wait_delay (this (acquire w).1).

Section WithEnv.
Context (E : Env).

(** C5 as stated: from a fresh instance, on every run the counter is not
    negative and the delay of [#wait] grows with the counter. *)
Definition wait_grows_with_counter (opts : MirrorConstructor) (s : Sys) : Prop :=
  forall s' m inst moves1 moves2,
    new E opts s = (s', Ret m) ->
    let r1 := run E moves1 (fresh m inst s') in
    let r2 := run E moves2 (fresh m inst s') in
    0 <= counter r1 /\
    (counter r1 <= counter r2 ->
     delay_of_call (world r1) <= delay_of_call (world r2)).

(** The job and the world the rendering transport is called with. *)
Definition rendered (w : World) (job : ClusterJob) (type : fetch_type)
    : World * outcome value :=
  (emit (EvCrawl (set_timeout 10000 job) false (Some type))
     (emit (EvAxiosGet (set_timeout 5000 job)) w),
   crawler E (set_timeout 10000 job) false (Some type)).

(** The identifier of a tuple nobody forces: the one the library holds for
    it, else the one generated from it. *)
Definition stable_id (m : t) (langs : list string) (u : string) : string :=
  match MangaDatabase_get E (ByUrl (name m) langs u) with
  | Some existing => existing
  | None => uuidgen_generate E (mkUuid (name m, version m) langs u None) false
  end.

(** The key of the cache for a url. *)
Definition cache_key (uri : URL) (dependsOnParams : bool) : string :=
  filenamify E
    (origin uri ++ pathname uri ++ (if dependsOnParams then search uri else EmptyString)).

(** The cache of the instance holds [buffer] under the key of [u]. *)
Definition cache_holds (w : World) (u : string) (dependsOnParams : bool)
    (buffer : Buffer) : Prop :=
  exists root uri,
    USER_DATA (sys w) = Some root /\
    cacheEnabled E = true /\
    new_URL E u = Some uri /\
    Fs.readFileSync (disk (sys w))
      (cache_dir root (this w), cache_key uri dependsOnParams) = Ret buffer.

Definition cached_value (returnType : return_type) (buffer : Buffer) : value :=
  match returnType with
  | Cover => VString ("data:" ++ getFileMime E buffer ++ ";base64," ++ base64 E buffer)
  | Page => VBuffer buffer
  end.

(** The world after the direct transport has delivered the bytes of an
    image and the cache has been offered them. *)
Definition image_saved (w : World) (u : string) (referer : option string)
    (fn : string) (config : AxiosRequestConfig) (buffer : Buffer) : World :=
  let w1 := (wait w).1 in
  let w2 := emit (EvAxiosGetImage u (or_string referer (host (this w))) config) w1 in
  ((if cache (options (this w)) then saveToCache E fn buffer else Eff.ret tt) w2).1.

End WithEnv.

(** ** Example collaborators *)

(** A machine without network: axios fails, the rendering cluster answers
    nothing, nothing is in the library. *)
Definition offline : Env :=
  mkEnv
    (fun _ => Throw (AxiosError "getaddrinfo ENOTFOUND" None))
    (fun _ _ _ => Throw (AxiosError "getaddrinfo ENOTFOUND" None))
    (fun _ _ _ _ => Throw (AxiosError "getaddrinfo ENOTFOUND" None))
    (fun _ _ _ => Ret VUndefined)
    (fun _ _ => false)
    (fun _ => None)
    (fun _ => "{}")
    (fun _ => None)
    (fun s => s)
    (fun _ => "AAAA")
    (fun u => Some (mkURL u EmptyString EmptyString))
    (mkLibraryStore (fun _ => None) (fun _ _ _ => false))
    (fun u _ => u_url u)
    0 true false.

(** A site that answers every request with a page that is not JSON and has
    none of the selectors asked for; the rendering cluster gets the page
    with them. *)
Definition site : Env :=
  mkEnv
    (fun _ => Ret (JStr "<html>loading</html>"))
    (fun _ _ _ => Ret [])
    (fun _ _ _ _ => Ret VUndefined)
    (fun _ _ _ => Ret (VString "<html><div id=main></div></html>"))
    (fun _ _ => false)
    (fun _ => None)
    (fun _ => "{}")
    (fun _ => None)
    (fun s => s)
    (fun _ => "AAAA")
    (fun u => Some (mkURL u EmptyString EmptyString))
    (mkLibraryStore
       (fun q => match q with ById id _ => Some id | ByUrl _ _ _ => None end)
       (fun _ _ _ => false))
    (fun u _ => u_url u)
    0 true false.

Definition example_options (w : option Z) : MirrorConstructor :=
  mkMirrorConstructor "mangadex" "MangaDex" "https://mangadex.org" None ["en"]
    w "icon.png" (mkMeta 1 1 1) 1 None (mkOptions true true []).

Definition example_process : Sys :=
  mkSys (Some "/data") (Fs.mkDisk ∅ ∅ ∅) Timers.empty [].

Definition example_job : ClusterJob :=
  mkJob "https://mangadex.org/title/1" None ∅ None None None [].

Definition example_mirror : t :=
  mkMirror 0 "icon.png" 1 true "mangadex" "MangaDex" "https://mangadex.org" None
    ["en"] (mkMeta 1 1 1) 200 (mkOptions true true []).

(** The instance in a process whose cache holds one cover. *)
Definition example_world : World :=
  mkWorld example_mirror None
    (mkSys (Some "/data")
       (Fs.mkDisk {["/data/.cache/mangadex"]}
          {[("/data/.cache/mangadex", "https://mangadex.org/cover.jpg") := Fs.File []]} ∅)
       Timers.empty [])
    [].

End MirrorSpec.


(** * More of the file server: what is stated *)

Module FileServerMoreSpec.
Import FileServer FileServerSpec.

(** The handles of the table were all issued by the queue, each once. *)
Definition handles_ok (st : State) : Prop :=
  NoDup (timeout <$> timeouts (this st)) /\
  forall e, e ∈ timeouts (this st) ->
            (timeout e < Timers.next (timers (sys st)))%nat.

(** The name an operation is about. *)
Definition op_name (st : State) (o : op) : option string :=
  match o with
  | OpServ _ fn _ => Some fn
  | OpDelete fn => Some fn
  | OpFire h => Timers.tm_filename <$> live_timers st !! h
  end.

(** What the table and the queue hold for the name [g]. *)
Definition same_for (g : string) (st st' : State) : Prop :=
  (forall e, filename e = g ->
             (e ∈ timeouts (this st') <-> e ∈ timeouts (this st))) /\
  (forall h tm, Timers.tm_filename tm = g ->
                (live_timers st' !! h = Some tm <-> live_timers st !! h = Some tm)).

(** Nothing that has to be followed or that is not a file stands at [p]. *)
Definition plain (d : Fs.Disk) (p : Fs.path) : Prop :=
  match Fs.nodes d !! p with
  | None | Some (Fs.File _) => True
  | _ => False
  end.

(** Whether [unlinkSync] removes the entry at [p]. *)
Definition removable (d : Fs.Disk) (p : Fs.path) : bool :=
  match Fs.nodes d !! p with
  | None | Some Fs.Directory => false
  | Some _ => negb (bool_decide (p.1 ∈ Fs.readonly d))
  end.

(** A server that serves nothing yet, over a folder that exists. *)
Definition idle_server : State :=
  mkState (mkFileServer "/data/.cache/files" [])
    (mkSys (Some "/data") (Fs.mkDisk {["/data/.cache/files"]} ∅ ∅) Timers.empty []).

(** The same over a folder that was removed behind its back. *)
Definition orphan_server : State :=
  mkState (mkFileServer "/data/.cache/files" [])
    (mkSys (Some "/data") (Fs.mkDisk ∅ ∅ ∅) Timers.empty []).

End FileServerMoreSpec.


(** * More of the fetch engine: what is stated *)

Module MirrorMoreSpec.
Import Mirror MirrorSpec.

Local Open Scope eff_scope.

(** A computation that leaves the process (disk, timers, file server)
    alone, and one that records nothing. *)
Definition keeps_process {A} (m : Eff.M World A) : Prop :=
  forall w, sys (m w).1 = sys w /\ FileServer_instance (m w).1 = FileServer_instance w.

Definition keeps_trace {A} (m : Eff.M World A) : Prop :=
  forall w, trace (m w).1 = trace w.

(** The arguments of one call of [post]. *)
Record post_call := mkPostCall {
  pc_url : string;
  pc_data : value;
  pc_type : method;
  pc_config : AxiosRequestConfig
}.

(** Calls of [post] one after the other, each awaited. *)
Fixpoint post_all (E : Env) (calls : list post_call) : Eff.M World unit :=
  match calls with
  | [] => Eff.ret tt
  | c :: calls' =>
      post E (pc_url c) (pc_data c) (pc_type c) (pc_config c) ;;;
      post_all E calls'
  end.

(** The delays [#wait] has recorded. *)
Definition sleeps (tr : list event) : list Z :=
  omap (fun e => match e with EvSleep ms => Some ms | _ => None end) tr.

(** [waitTime * (c + 1)], ..., [waitTime * (c + n)] *)
Fixpoint delays_from (waitTime c : Z) (n : nat) : list Z :=
  match n with
  | O => []
  | S n' => waitTime * (c + 1) :: delays_from waitTime (c + 1) n'
  end.

(** Each element of [l] stands in [R] to the next. *)
Fixpoint chain (R : Z -> Z -> Prop) (l : list Z) : Prop :=
  match l with
  | x :: (y :: _) as l' => R x y /\ chain R l'
  | _ => True
  end.

(** Chapters in ascending order of their number. *)
Fixpoint ascending (l : list Chapter) : Prop :=
  match l with
  | [] => True
  | c :: l' => Forall (fun x => Qle (number c) (number x)) l' /\ ascending l'
  end.

(** The operations that call [#wait] before their first suspension. *)
Definition waits_at_start (c : call) : bool :=
  match c with
  | CallDownloadImage _ _ _ _ _ => false
  | _ => true
  end.

(** ** More example collaborators *)

(** An API that answers every request with an object; nothing renders,
    no image can be had, and [URL] rejects what it is given. *)
Definition api : Env :=
  mkEnv
    (fun _ => Ret (JObj [("result", JStr "ok")]))
    (fun _ _ _ => Throw (AxiosError "Request failed with status code 404" (Some "{}")))
    (fun _ _ _ _ => Ret (VData (JObj [("result", JStr "ok")])))
    (fun _ _ _ => Throw (Error "Navigation timeout of 10000 ms exceeded"))
    (fun _ _ => false)
    (fun _ => None)
    (fun _ => "{}")
    (fun _ => None)
    (fun s => s)
    (fun _ => "AAAA")
    (fun _ => None)
    (mkLibraryStore (fun _ => None) (fun _ _ _ => false))
    (fun u _ => u_url u)
    0 false false.

(** A job that requires an element of the page. *)
Definition selector_job : ClusterJob :=
  mkJob "https://mangadex.org/title/1" None ∅ None (Some "#main") None [].

(** The instance in a process without its cache directory. *)
Definition bare_world : World :=
  mkWorld example_mirror None example_process [].

(** The instance of [example_world] beside a file server that serves
    nothing yet. *)
Definition served_world : World :=
  mkWorld example_mirror
    (Some (FileServer.mkFileServer "/data/.cache/files" []))
    (mkSys (Some "/data")
       (Fs.mkDisk {["/data/.cache/mangadex"; "/data/.cache/files"]}
          {[("/data/.cache/mangadex", "https://mangadex.org/cover.jpg") := Fs.File []]} ∅)
       Timers.empty [])
    [].

Definition example_chapter (n : Q) : Chapter :=
  mkChapter "id" "/chapter" "en" n 0 false [].

End MirrorMoreSpec.

(** * Properties of the file server *)

Module FileServerFacts.
Import FileServer FileServerSpec.

Lemma find_Some fn l i e :
  find fn l = Some (i, e) -> l !! i = Some e /\ filename e = fn.
Proof.
  unfold find. intros H. apply list_find_Some in H. tauto.
Qed.

Lemma find_None fn l :
  find fn l = None -> forall e, e ∈ l -> filename e <> fn.
Proof.
  unfold find. intros H e He. apply list_find_None in H.
  rewrite Forall_forall in H. by apply H.
Qed.

Lemma find_is_Some fn l e :
  e ∈ l -> filename e = fn -> is_Some (find fn l).
Proof.
  intros He Hf. destruct (find fn l) eqn:E; [eauto|].
  exfalso. eapply find_None; eauto.
Qed.

(** What each method does to the state, as an equation. *)

Lemma resetFile_miss fn lifetime st :
  find fn (timeouts (this st)) = None ->
  resetFile fn lifetime st = (st, Ret false).
Proof.
  intros H. unfold resetFile, Eff.bind, Eff.get. simpl. by rewrite H.
Qed.

Lemma resetFile_hit fn lifetime st i found :
  find fn (timeouts (this st)) = Some (i, found) ->
  resetFile fn lifetime st = (reset_state st i found fn lifetime, Ret true).
Proof.
  intros H. unfold resetFile, Eff.bind, Eff.get. simpl. rewrite H.
  destruct st as [[f l] [u d q c]]. reflexivity.
Qed.

Lemma table_ok_one_timer st : table_ok st -> one_timer_per_file st.
Proof.
  intros [Hnd Hlive] h1 h2 t1 t2 H1 H2 Hf.
  apply Hlive in H1, H2. rewrite Hf in H1.
  apply list_elem_of_lookup in H1 as [i Hi], H2 as [j Hj].
  assert (i = j) as ->.
  { eapply NoDup_alt; [exact Hnd| |]; rewrite list_lookup_fmap.
    - by rewrite Hi.
    - by rewrite Hj. }
  congruence.
Qed.

Ltac eff_unfold :=
  unfold Eff.bind, Eff.try_catch, Eff.get, Eff.gets, Eff.modify, Eff.ret,
    Eff.throw, Eff.lift_outcome in *.

Lemma delete_spec fn st :
  exists st' b,
    delete fn st = (st', Ret b) /\
    folder (this st') = folder (this st) /\
    timeouts (this st') = filter (fun e => filename e ≠ fn) (timeouts (this st)) /\
    live_timers st' =
      match find fn (timeouts (this st)) with
      | Some (_, found) => base.delete (timeout found) (live_timers st)
      | None => live_timers st
      end /\
    syscalls (sys st') = (syscalls (sys st) ++ [SysUnlink (resolveFile (this st) fn)])%list /\
    match Fs.unlinkSync (disk (sys st)) (resolveFile (this st) fn) with
    | Ret d => b = true /\ disk (sys st') = d
    | Throw _ => b = false /\ disk (sys st') = disk (sys st)
    end.
Proof.
  destruct st as [[f l] [u d q c]].
  unfold delete, unlinkSync, clearTimeout, live_timers. eff_unfold. simpl.
  unfold resolveFile.
  destruct (find fn l) as [[i found]|]; simpl;
    destruct (Fs.unlinkSync d (f, fn)) eqn:E; simpl;
    eexists _, _; repeat split; reflexivity.
Qed.

Lemma initFile_spec fn data lifetime st :
  let p := resolveFile (this st) fn in
  match Fs.writeFileSync (disk (sys st)) p data with
  | Throw _ =>
      initFile fn data lifetime st = (on_sys (record_syscall (SysWrite p)) st, Ret false)
  | Ret d =>
      let q := timers (sys st) in
      initFile fn data lifetime st =
        (mkState
           (mkFileServer (folder (this st))
              (timeouts (this st) ++ [mkEntry fn (Timers.next q)])%list)
           (mkSys (USER_DATA (sys st)) d
              (Timers.mkQueue (<[Timers.next q := delete_after fn lifetime]> (Timers.live q))
                 (S (Timers.next q)))
              (syscalls (sys st) ++ [SysWrite p])%list),
         Ret true)
  end.
Proof.
  destruct st as [[f l] [u d q c]].
  unfold initFile, writeFileSync, setTimeout, resolveFile. eff_unfold. simpl.
  destruct (Fs.writeFileSync d (f, fn) data) eqn:E; reflexivity.
Qed.

Lemma serv_hit data fn lifetime st i found :
  find fn (timeouts (this st)) = Some (i, found) ->
  serv data fn lifetime st =
    (reset_state st i found fn (default default_lifetime lifetime), Ret (served_path fn)).
Proof.
  intros H. unfold serv. unfold Eff.bind at 1.
  by rewrite (resetFile_hit _ _ _ _ _ H).
Qed.

Lemma serv_miss data fn lifetime st :
  find fn (timeouts (this st)) = None ->
  serv data fn lifetime st =
    ((initFile fn data (default default_lifetime lifetime) st).1, Ret (served_path fn)).
Proof.
  intros H. unfold serv. unfold Eff.bind at 1.
  rewrite (resetFile_miss _ _ _ H). unfold Eff.bind.
  pose proof (initFile_spec fn data (default default_lifetime lifetime) st) as Hi.
  simpl in Hi. destruct (Fs.writeFileSync _ _ _); rewrite Hi; reflexivity.
Qed.

Lemma serv_returns data fn lifetime st :
  (serv data fn lifetime st).2 = Ret (served_path fn).
Proof.
  destruct (find fn (timeouts (this st))) as [[i found]|] eqn:E.
  - by rewrite (serv_hit _ _ _ _ _ _ E).
  - by rewrite (serv_miss _ _ _ _ E).
Qed.

(** [table_ok] is kept by every operation. *)

Lemma table_ok_reset st i found fn lifetime :
  find fn (timeouts (this st)) = Some (i, found) ->
  table_ok st -> table_ok (reset_state st i found fn lifetime).
Proof.
  intros Hfind [Hnd Hlive]. apply find_Some in Hfind as [Hi Hfn].
  split.
  - simpl. rewrite list_fmap_insert. simpl.
    rewrite list_insert_id; [done|]. rewrite list_lookup_fmap. by rewrite Hi.
  - intros h tm. unfold live_timers, reset_state. simpl.
    rewrite lookup_insert. case_decide as Hh.
    + intros [= <-]. subst h. simpl. rewrite Hfn.
      apply list_elem_of_insert. by eapply lookup_lt_Some.
    + rewrite lookup_delete. case_decide as Hd; [done|]. intros Hl.
      apply Hlive in Hl. apply list_elem_of_lookup in Hl as [j Hj].
      apply list_elem_of_lookup. exists j.
      rewrite list_lookup_insert. case_decide as Hij; [|done].
      destruct Hij as [-> _]. rewrite Hi in Hj. injection Hj as ->.
      simpl in Hd. congruence.
Qed.

Lemma table_ok_init st fn data lifetime :
  find fn (timeouts (this st)) = None ->
  table_ok st -> table_ok (initFile fn data lifetime st).1.
Proof.
  intros Hfind [Hnd Hlive].
  pose proof (initFile_spec fn data lifetime st) as Hi. simpl in Hi.
  destruct (Fs.writeFileSync _ _ _); rewrite Hi; simpl.
  - split; simpl.
    + rewrite fmap_app. apply NoDup_app. split; [done|]. split.
      * intros x Hx Hx'. apply list_elem_of_fmap in Hx as [e [-> He]].
        simpl in Hx'. apply list_elem_of_singleton in Hx'.
        by eapply find_None.
      * simpl. apply NoDup_singleton.
    + intros h tm. unfold live_timers. simpl.
      rewrite lookup_insert. case_decide as Hh.
      * intros [= <-]. subst h. simpl. apply elem_of_app. right.
        by apply list_elem_of_singleton.
      * intros Hl. apply elem_of_app. left. by apply Hlive.
  - split; [done|]. exact Hlive.
Qed.

Lemma table_ok_serv data fn lifetime st :
  table_ok st -> table_ok (serv data fn lifetime st).1.
Proof.
  intros Hok. destruct (find fn (timeouts (this st))) as [[i found]|] eqn:E.
  - rewrite (serv_hit _ _ _ _ _ _ E). simpl. by apply table_ok_reset.
  - rewrite (serv_miss _ _ _ _ E). simpl. by apply table_ok_init.
Qed.

Lemma table_ok_delete fn st :
  table_ok st -> table_ok (delete fn st).1.
Proof.
  intros [Hnd Hlive].
  destruct (delete_spec fn st) as (st' & b & -> & _ & Ht & Hl & _). simpl.
  split.
  - rewrite Ht. eapply sublist_NoDup; [exact Hnd|].
    apply fmap_sublist, sublist_filter.
  - intros h tm. rewrite Hl, Ht. intros Hh.
    assert (live_timers st !! h = Some tm) as Hlv.
    { destruct (find fn (timeouts (this st))) as [[i found]|]; [|done].
      apply lookup_delete_Some in Hh. tauto. }
    pose proof (Hlive _ _ Hlv) as Hin.
    apply list_elem_of_filter. split; [|done]. simpl. intros Hfn.
    destruct (find fn (timeouts (this st))) as [[i found]|] eqn:E.
    + apply lookup_delete_Some in Hh as [Hne _].
      apply find_Some in E as [Hi Hf].
      apply list_elem_of_lookup in Hin as [j Hj].
      assert (j = i) as ->.
      { eapply NoDup_alt; [exact Hnd| |]; rewrite list_lookup_fmap.
        - rewrite Hj. simpl. reflexivity.
        - rewrite Hi. simpl. congruence. }
      rewrite Hi in Hj. injection Hj as ->. simpl in Hne. congruence.
    + eapply find_None; [exact E|exact Hin|]. exact Hfn.
Qed.

Lemma table_ok_clear h st :
  table_ok st ->
  table_ok (on_sys (fun s => set_timers (Timers.clearTimeout (timers s) h) s) st).
Proof.
  intros [Hnd Hlive]. split; [done|].
  intros h' tm. unfold live_timers. simpl. intros Hl.
  apply lookup_delete_Some in Hl as [_ Hl]. by apply Hlive.
Qed.

Lemma fire_spec h st :
  (fire h st).1 =
    match live_timers st !! h with
    | Some tm =>
        (delete (Timers.tm_filename tm)
           (on_sys (fun s => set_timers (Timers.clearTimeout (timers s) h) s) st)).1
    | None => st
    end.
Proof.
  unfold fire, live_timers. unfold Eff.bind at 1. unfold Eff.get.
  destruct (Timers.live (timers (sys st)) !! h) as [tm|]; [|done].
  unfold clearTimeout. unfold Eff.bind at 1. unfold Eff.modify.
  unfold Eff.bind.
  destruct (delete_spec (Timers.tm_filename tm)
              (on_sys (fun s => set_timers (Timers.clearTimeout (timers s) h) s) st))
    as (st' & b & -> & _). reflexivity.
Qed.

Lemma table_ok_fire h st : table_ok st -> table_ok (fire h st).1.
Proof.
  intros Hok. rewrite fire_spec. destruct (live_timers st !! h); [|done].
  by apply table_ok_delete, table_ok_clear.
Qed.

(** *** The purge of [empty] *)

Lemma follow_not_link fuel d p q n :
  Fs.follow fuel d p = Some (q, Some n) -> is_link n = false.
Proof.
  revert p. induction fuel as [|fuel IH]; intros p; simpl;
    destruct (Fs.nodes d !! p) as [[data| |t]|] eqn:E; intros H;
    try (by injection H as <- <-); try done; eauto.
Qed.

Lemma target_not_link d p n : Fs.target d p = Some n -> is_link n = false.
Proof.
  unfold Fs.target. destruct (Fs.follow Fs.max_links d p) as [[q o]|] eqn:E; [|done].
  intros ->. by eapply follow_not_link.
Qed.

Lemma statSync_never_link d p st :
  Fs.statSync d p = Ret st -> Fs.isSymbolicLink st = false.
Proof.
  unfold Fs.statSync. destruct (Fs.target d p) as [n|] eqn:E; [|done].
  intros [= <-]. apply target_not_link in E.
  unfold Fs.isSymbolicLink. simpl. by destruct n.
Qed.

(** [lstatSync], which the purge does not use, would tell a link. *)
Lemma lstatSync_tells_link d p t :
  Fs.nodes d !! p = Some (Fs.Symlink t) ->
  exists stat, Fs.lstatSync d p = Ret stat /\ Fs.isSymbolicLink stat = true.
Proof. intros H. unfold Fs.lstatSync. rewrite H. eauto. Qed.

Lemma target_plain d p n :
  Fs.nodes d !! p = Some n -> is_link n = false -> Fs.target d p = Some n.
Proof.
  intros H Hn. unfold Fs.target, Fs.max_links. simpl. rewrite H.
  by destruct n.
Qed.

Lemma empty_one_spec dir file st :
  empty_one dir file st =
    (if Fs.existsSync (disk (sys st)) (dir, file)
     then attempt_unlink (dir, file) st else st, Ret tt).
Proof.
  destruct st as [[f l] [u d q c]].
  unfold empty_one, unlinkSync, attempt_unlink. eff_unfold. simpl.
  unfold Fs.existsSync.
  destruct (Fs.statSync d (dir, file)) as [stat|e] eqn:Es.
  - rewrite (statSync_never_link _ _ _ Es). simpl.
    unfold Fs.statSync in Es. destruct (Fs.target d (dir, file)); [|done].
    simpl. destruct (Fs.unlinkSync d (dir, file)); reflexivity.
  - unfold Fs.statSync in Es. by destruct (Fs.target d (dir, file)).
Qed.

Lemma unlinkSync_nodes d p d' q :
  Fs.unlinkSync d p = Ret d' -> q <> p -> Fs.nodes d' !! q = Fs.nodes d !! q.
Proof.
  unfold Fs.unlinkSync. intros H Hq.
  destruct (Fs.nodes d !! p) as [[data| |t]|]; try done;
    case_bool_decide; try done; injection H as <-; simpl;
    by rewrite lookup_delete_ne.
Qed.

Lemma unlinkSync_dirs d p d' :
  Fs.unlinkSync d p = Ret d' ->
  Fs.dirs d' = Fs.dirs d /\ Fs.readonly d' = Fs.readonly d.
Proof.
  unfold Fs.unlinkSync. intros H.
  destruct (Fs.nodes d !! p) as [[data| |t]|]; try done;
    case_bool_decide; try done; by injection H as <-.
Qed.

Lemma attempt_unlink_nodes p st q :
  q <> p ->
  Fs.nodes (disk (sys (attempt_unlink p st))) !! q = Fs.nodes (disk (sys st)) !! q.
Proof.
  intros Hq. unfold attempt_unlink. simpl.
  destruct (Fs.unlinkSync (disk (sys st)) p) eqn:E; [|done].
  by eapply unlinkSync_nodes.
Qed.

(** The loop never throws; it leaves the table and the timers alone, only
    adds to the record of attempts, and by the time it is over it has
    attempted every entry of the listing that is not a link. *)
Lemma for_of_empty dir files st :
  exists st',
    for_of files (empty_one dir) st = (st', Ret tt) /\
    this st' = this st /\
    timers (sys st') = timers (sys st) /\
    USER_DATA (sys st') = USER_DATA (sys st) /\
    (forall c, c ∈ syscalls (sys st) -> c ∈ syscalls (sys st')) /\
    (forall q, q.1 <> dir \/ q.2 ∉ files ->
               Fs.nodes (disk (sys st')) !! q = Fs.nodes (disk (sys st)) !! q) /\
    (forall file n, file ∈ files ->
                    Fs.nodes (disk (sys st)) !! (dir, file) = Some n ->
                    is_link n = false ->
                    SysUnlink (dir, file) ∈ syscalls (sys st')).
Proof.
  revert st. induction files as [|x files IH]; intros st.
  - exists st. simpl. unfold Eff.ret. repeat split; try done.
    intros file n Hin. by apply elem_of_nil in Hin.
  - simpl. unfold Eff.bind. rewrite empty_one_spec.
    set (st1 := if Fs.existsSync _ _ then _ else st).
    destruct (IH st1) as (st' & -> & Hthis & Htm & Hud & Hlog & Hnodes & Hatt).
    assert (this st1 = this st /\ timers (sys st1) = timers (sys st) /\
            USER_DATA (sys st1) = USER_DATA (sys st)) as (H1 & H2 & H3).
    { unfold st1. by destruct (Fs.existsSync _ _). }
    assert (forall c, c ∈ syscalls (sys st) -> c ∈ syscalls (sys st1)) as Hlog1.
    { unfold st1. destruct (Fs.existsSync _ _); [|done]. simpl.
      intros c Hc. apply elem_of_app. by left. }
    assert (forall q, q <> (dir, x) ->
              Fs.nodes (disk (sys st1)) !! q = Fs.nodes (disk (sys st)) !! q) as Hn1.
    { unfold st1. destruct (Fs.existsSync _ _); [|done].
      intros q Hq. by apply attempt_unlink_nodes. }
    exists st'. repeat split; try congruence.
    + intros c Hc. by apply Hlog, Hlog1.
    + intros q Hq. rewrite Hnodes.
      * apply Hn1. destruct q as [qd qf]. simpl in Hq. intros [= -> ->].
        destruct Hq as [Hq|Hq]; [done|]. apply Hq. by left.
      * destruct Hq as [Hq|Hq]; [by left|]. right. intros Hin. apply Hq. by right.
    + intros file n Hin Hnode Hlink.
      destruct (decide (file = x)) as [->|Hne].
      * apply Hlog. unfold st1, Fs.existsSync.
        rewrite (target_plain _ _ _ Hnode Hlink). simpl.
        apply elem_of_app. right. by apply list_elem_of_singleton.
      * apply elem_of_cons in Hin as [?|Hin]; [done|].
        eapply Hatt; [exact Hin| |exact Hlink].
        rewrite Hn1; [done|]. congruence.
Qed.

Lemma listing_elem d dir file n :
  Fs.nodes d !! (dir, file) = Some n -> file ∈ listing d dir.
Proof.
  intros H. apply list_elem_of_omap. exists ((dir, file), n). split.
  - by apply elem_of_map_to_list.
  - simpl. by rewrite decide_True.
Qed.

Lemma mkdirSync_spec d dir d1 :
  Fs.mkdirSync d dir = Ret d1 ->
  Fs.existsSync_dir d1 dir = true /\ Fs.nodes d1 = Fs.nodes d.
Proof.
  unfold Fs.mkdirSync, Fs.existsSync_dir. intros H.
  destruct (bool_decide (dir ∈ Fs.dirs d)) eqn:E1.
  - injection H as <-. by rewrite E1.
  - destruct (bool_decide (dir ∈ Fs.readonly d)); [done|].
    injection H as <-. simpl. split; [|done].
    apply bool_decide_eq_true. set_solver.
Qed.

(** [new]: what construction amounts to once the environment variable is
    set. *)
Lemma new_spec folder_name s root :
  USER_DATA s = Some root ->
  truthy_string root = true ->
  let dir := Fs.resolve_cache root folder_name in
  match Fs.mkdirSync (disk s) dir with
  | Throw e => new folder_name s = (s, Throw e)
  | Ret d1 =>
      exists st',
        for_of (listing d1 dir) (empty_one dir)
          (mkState (mkFileServer dir []) (set_disk d1 s)) = (st', Ret tt) /\
        new folder_name s = (sys st', Ret (this st'))
  end.
Proof.
  intros Hu Ht dir. destruct s as [u d q c]. simpl in *. subst u.
  unfold new. simpl. rewrite Ht. simpl. fold dir.
  unfold setup, empty. eff_unfold. simpl.
  destruct (Fs.mkdirSync d dir) as [d1|e] eqn:Em.
  - destruct (mkdirSync_spec _ _ _ Em) as [Hex Hn].
    destruct (for_of_empty dir (listing d1 dir)
                (mkState (mkFileServer dir []) (mkSys (Some root) d1 q c)))
      as (st' & Hfor & _).
    exists st'. split; [exact Hfor|].
    destruct (Fs.existsSync_dir d dir) eqn:Ed.
    + assert (d1 = d) as ->.
      { unfold Fs.mkdirSync in Em. unfold Fs.existsSync_dir in Ed.
        rewrite Ed in Em. congruence. }
      simpl. rewrite Ed. simpl. unfold Fs.readdirSync. rewrite Ed.
      fold (listing d dir). unfold set_disk in Hfor. simpl in Hfor.
      by rewrite Hfor.
    + simpl. rewrite Hex. simpl. unfold Fs.readdirSync. rewrite Hex.
      fold (listing d1 dir). unfold on_sys, set_disk. simpl.
      by rewrite Hfor.
  - destruct (Fs.existsSync_dir d dir) eqn:Ed; [|done].
    unfold Fs.mkdirSync in Em. unfold Fs.existsSync_dir in Ed.
    by rewrite Ed in Em.
Qed.

Lemma new_inv folder_name s s' fs :
  new folder_name s = (s', Ret fs) ->
  exists root,
    USER_DATA s = Some root /\
    folder fs = Fs.resolve_cache root folder_name /\
    timeouts fs = [] /\
    timers s' = timers s /\
    (forall file n,
        Fs.nodes (disk s) !! (folder fs, file) = Some n ->
        is_link n = false ->
        SysUnlink (folder fs, file) ∈ syscalls s').
Proof.
  intros Hnew.
  destruct (USER_DATA s) as [root|] eqn:Hu; [|by unfold new in Hnew; rewrite Hu in Hnew].
  destruct (truthy_string root) eqn:Ht;
    [|by unfold new in Hnew; rewrite Hu, Ht in Hnew].
  pose proof (new_spec folder_name s root Hu Ht) as Hs. simpl in Hs.
  destruct (Fs.mkdirSync (disk s) _) as [d1|e] eqn:Em; [|congruence].
  destruct Hs as (st' & Hfor & Hn). rewrite Hn in Hnew. injection Hnew as <- <-.
  destruct (for_of_empty (Fs.resolve_cache root folder_name)
              (listing d1 (Fs.resolve_cache root folder_name))
              (mkState (mkFileServer (Fs.resolve_cache root folder_name) []) (set_disk d1 s)))
    as (st2 & Hfor2 & Hthis & Htm & _ & _ & _ & Hatt).
  rewrite Hfor in Hfor2. injection Hfor2 as <-.
  exists root. rewrite Hthis. simpl. repeat split; try done.
  intros file n Hnode Hlink.
  apply mkdirSync_spec in Em as [_ Hnodes].
  eapply Hatt; [|simpl; rewrite Hnodes; exact Hnode|exact Hlink].
  eapply listing_elem. rewrite Hnodes. exact Hnode.
Qed.

Lemma reachable_table_ok st : reachable st -> table_ok st.
Proof.
  induction 1 as [s folder_name s' fs Hlive Hnew|st o _ IH].
  - apply new_inv in Hnew as (root & _ & _ & Ht & Htm & _).
    split; simpl.
    + rewrite Ht. apply NoDup_nil_2.
    + unfold live_timers. simpl. rewrite Htm, Hlive. intros h tm.
      by rewrite lookup_empty.
  - destruct o; simpl.
    + by apply table_ok_serv.
    + by apply table_ok_delete.
    + by apply table_ok_fire.
Qed.

(** *** Serving and deleting *)

(** C6. In every state reachable from construction by [serv], [delete]
    and timers firing, a file name has at most one live timer and one entry
    in the table; [serv] on a name that has a live timer cancels it, starts
    one with the new lifetime, answers ["/files/<name>"], and neither
    touches the disk nor adds an entry. *)
Theorem serv_keeps_one_timer st :
  reachable st ->
  one_timer_per_file st /\
  NoDup (filename <$> timeouts (this st)) /\
  forall data fn lifetime h tm,
    live_timers st !! h = Some tm ->
    Timers.tm_filename tm = fn ->
    exists st' h',
      serv data fn lifetime st = (st', Ret ("/files/" ++ fn)) /\
      disk (sys st') = disk (sys st) /\
      syscalls (sys st') = syscalls (sys st) /\
      filename <$> timeouts (this st') = filename <$> timeouts (this st) /\
      live_timers st' =
        <[h' := Timers.mkTimer fn (default 600 lifetime * 1000)]>
          (base.delete h (live_timers st)) /\
      one_timer_per_file st'.
Proof.
  intros Hreach. pose proof (reachable_table_ok _ Hreach) as Hok.
  split; [by apply table_ok_one_timer|]. split; [apply Hok|].
  intros data fn lifetime h tm Hlive <-.
  destruct Hok as [Hnd Htab]. pose proof (Htab _ _ Hlive) as Hin.
  destruct (find_is_Some (Timers.tm_filename tm) _ _ Hin eq_refl) as [[i found] Hfind].
  pose proof (find_Some _ _ _ _ Hfind) as [Hi Hfn].
  assert (found = mkEntry (Timers.tm_filename tm) h) as Hfound.
  { apply list_elem_of_lookup in Hin as [j Hj].
    assert (j = i) as ->.
    { eapply NoDup_alt; [exact Hnd| |]; rewrite list_lookup_fmap.
      - by rewrite Hj.
      - rewrite Hi. simpl. by rewrite Hfn. }
    congruence. }
  exists (reset_state st i found (Timers.tm_filename tm) (default default_lifetime lifetime)),
    (Timers.next (timers (sys st))).
  split; [by apply serv_hit|]. repeat split.
  - simpl. rewrite list_fmap_insert. simpl.
    apply list_insert_id. rewrite list_lookup_fmap. by rewrite Hi.
  - unfold live_timers. simpl. by rewrite Hfound.
  - apply table_ok_one_timer, table_ok_reset; [done|]. by split.
Qed.

(** C7. [delete] on a name with no file behind it answers [false], does
    not throw, and leaves no entry for the name in the table (nor, when the
    table was in order, a live timer). *)
Theorem delete_missing_file st fn :
  Fs.nodes (disk (sys st)) !! resolveFile (this st) fn = None ->
  exists st',
    delete fn st = (st', Ret false) /\
    (forall e, e ∈ timeouts (this st') -> filename e <> fn) /\
    find fn (timeouts (this st')) = None /\
    (table_ok st ->
     forall h tm, live_timers st' !! h = Some tm -> Timers.tm_filename tm <> fn).
Proof.
  intros Hnone.
  pose proof (table_ok_delete fn st) as Hpres.
  destruct (delete_spec fn st) as (st' & b & Hdel & _ & Ht & _ & _ & Hun).
  unfold Fs.unlinkSync in Hun. rewrite Hnone in Hun. destruct Hun as [-> _].
  rewrite Hdel in Hpres. simpl in Hpres.
  assert (forall e, e ∈ timeouts (this st') -> filename e <> fn) as Hno.
  { intros e. rewrite Ht. intros He. by apply list_elem_of_filter in He as [? _]. }
  exists st'. repeat split; [done|done| |].
  - destruct (find fn (timeouts (this st'))) as [[i e]|] eqn:E; [|done].
    apply find_Some in E as [Hi Hf]. exfalso. eapply Hno; [|exact Hf].
    apply list_elem_of_lookup. eauto.
  - intros Hok h tm Hl Hf. destruct (Hpres Hok) as [_ Htab].
    apply Htab in Hl. by apply Hno in Hl.
Qed.

(** The loop goes through its entries one after the other. *)
Lemma for_of_app dir l1 l2 st :
  for_of (l1 ++ l2) (empty_one dir) st =
    for_of l2 (empty_one dir) (for_of l1 (empty_one dir) st).1.
Proof.
  revert st. induction l1 as [|x l1 IH]; intros st; [done|].
  simpl. unfold Eff.bind. rewrite empty_one_spec. apply IH.
Qed.

Lemma attempt_unlink_deletes p st q :
  Fs.nodes (disk (sys (attempt_unlink p st))) !! q = None \/
  Fs.nodes (disk (sys (attempt_unlink p st))) !! q = Fs.nodes (disk (sys st)) !! q.
Proof.
  unfold attempt_unlink. simpl.
  destruct (Fs.unlinkSync (disk (sys st)) p) as [d'|e] eqn:E; [|by right].
  destruct (decide (q = p)) as [->|Hq]; [|right; by eapply unlinkSync_nodes].
  left. unfold Fs.unlinkSync in E.
  destruct (Fs.nodes (disk (sys st)) !! p) as [[data| |t]|]; try done;
    case_bool_decide; try done; injection E as <-; simpl; apply lookup_delete_eq.
Qed.

(** What the loop adds to the record are attempts on its own entries, and
    all it does to the disk is to delete. *)
Lemma for_of_adds dir files st :
  let st' := (for_of files (empty_one dir) st).1 in
  (forall c, c ∈ syscalls (sys st') ->
             c ∈ syscalls (sys st) \/ exists f, f ∈ files /\ c = SysUnlink (dir, f)) /\
  (forall q, Fs.nodes (disk (sys st')) !! q = None \/
             Fs.nodes (disk (sys st')) !! q = Fs.nodes (disk (sys st)) !! q).
Proof.
  revert st. induction files as [|x files IH]; intros st; simpl.
  { split; [by left|by right]. }
  unfold Eff.bind. rewrite empty_one_spec.
  set (st1 := if Fs.existsSync _ _ then _ else st).
  destruct (IH st1) as [Hlog Hdel]. split.
  - intros c Hc. apply Hlog in Hc as [Hc|(f & Hf & ->)].
    + unfold st1 in Hc. destruct (Fs.existsSync _ _); [|by left].
      simpl in Hc. apply elem_of_app in Hc as [Hc|Hc]; [by left|].
      apply list_elem_of_singleton in Hc as ->. right. exists x. split; [by left|done].
    + right. exists f. split; [by right|done].
  - intros q. destruct (Hdel q) as [Hq|Hq]; [by left|]. rewrite Hq.
    unfold st1. destruct (Fs.existsSync _ _); [|by right].
    apply attempt_unlink_deletes.
Qed.

(** What resolves on a disk resolves alike on a disk that has more. *)
Lemma follow_deleted fuel d d' p q n :
  (forall x, Fs.nodes d' !! x = None \/ Fs.nodes d' !! x = Fs.nodes d !! x) ->
  Fs.follow fuel d' p = Some (q, Some n) ->
  Fs.follow fuel d p = Some (q, Some n).
Proof.
  intros Hdel. revert p. induction fuel as [|fuel IH]; intros p; simpl;
    (destruct (Hdel p) as [Hp|Hp]; rewrite Hp; [done|]);
    destruct (Fs.nodes d !! p) as [[data| |t]|]; try done.
  apply IH.
Qed.

Lemma existsSync_deleted d d' p :
  (forall x, Fs.nodes d' !! x = None \/ Fs.nodes d' !! x = Fs.nodes d !! x) ->
  Fs.existsSync d' p = true -> Fs.existsSync d p = true.
Proof.
  intros Hdel. unfold Fs.existsSync, Fs.target.
  destruct (Fs.follow Fs.max_links d' p) as [[q [n|]]|] eqn:E; try done.
  by rewrite (follow_deleted _ _ _ _ _ _ Hdel E).
Qed.

Lemma existsSync_link d p t n :
  Fs.nodes d !! p = Some (Fs.Symlink t) ->
  Fs.nodes d !! t = Some n ->
  is_link n = false ->
  Fs.existsSync d p = true.
Proof.
  intros Hp Ht Hn. unfold Fs.existsSync, Fs.target, Fs.max_links. simpl.
  rewrite Hp. simpl. rewrite Ht. by destruct n.
Qed.

(** [readdirSync] lists a name once. *)
Lemma NoDup_listing d dir : NoDup (listing d dir).
Proof.
  unfold listing.
  pose proof (NoDup_fst_map_to_list (Fs.nodes d)) as Hnd.
  induction (map_to_list (Fs.nodes d)) as [|[p n] l IH]; simpl; [constructor|].
  apply NoDup_cons in Hnd as [Hp Hnd].
  destruct (decide (p.1 = dir)) as [Hd|Hd]; [|by apply IH].
  constructor; [|by apply IH].
  intros Hin. apply list_elem_of_omap in Hin as ([p' n'] & Hin & Hg).
  simpl in Hg. destruct (decide (p'.1 = dir)) as [Hd'|]; [|done].
  injection Hg as Hg. apply Hp. apply list_elem_of_fmap. exists (p', n').
  split; [|done]. simpl. destruct p, p'; simpl in *; congruence.
Qed.

(** The purge at the moment of one entry: the entry is attempted exactly
    when [existsSync] holds of its path then, and the entry itself is
    what it was when the loop began. *)
Lemma purge_at_entry s dir d1 seen file todo :
  listing d1 dir = (seen ++ file :: todo)%list ->
  let st0 := mkState (mkFileServer dir []) (set_disk d1 s) in
  let at_entry := purge_after s dir d1 seen in
  let st' := (for_of (listing d1 dir) (empty_one dir) st0).1 in
  (Fs.existsSync (disk (sys at_entry)) (dir, file) = true ->
   SysUnlink (dir, file) ∈ syscalls (sys st')) /\
  (SysUnlink (dir, file) ∈ syscalls (sys st') ->
   SysUnlink (dir, file) ∉ syscalls s ->
   Fs.existsSync (disk (sys at_entry)) (dir, file) = true) /\
  Fs.nodes (disk (sys at_entry)) !! (dir, file) = Fs.nodes d1 !! (dir, file) /\
  (forall q, Fs.nodes (disk (sys at_entry)) !! q = None \/
             Fs.nodes (disk (sys at_entry)) !! q = Fs.nodes d1 !! q) /\
  (forall q, Fs.nodes (disk (sys st')) !! q = None \/
             Fs.nodes (disk (sys st')) !! q = Fs.nodes (disk (sys at_entry)) !! q) /\
  (Fs.existsSync (disk (sys at_entry)) (dir, file) = false ->
   Fs.nodes (disk (sys st')) !! (dir, file) = Fs.nodes d1 !! (dir, file)).
Proof.
  intros Hl st0 at_entry st'.
  pose proof (NoDup_listing d1 dir) as Hnd. rewrite Hl in Hnd.
  apply NoDup_app in Hnd as (_ & Hseen & Htodo).
  apply NoDup_cons in Htodo as [Htodo _].
  assert (file ∉ seen) as Hfresh.
  { intros Hin. apply (Hseen file Hin). by left. }
  unfold st'. rewrite Hl, for_of_app. simpl. unfold Eff.bind.
  rewrite empty_one_spec.
  change (for_of seen (empty_one dir) st0).1 with at_entry.
  set (st1 := if Fs.existsSync _ _ then _ else at_entry).
  destruct (for_of_empty dir seen st0) as (st2 & Hrun & _ & _ & _ & _ & Hframe0 & _).
  assert (at_entry = st2) as Hmid.
  { unfold at_entry, purge_after. fold st0. by rewrite Hrun. }
  destruct (for_of_adds dir seen st0) as [Hlog0 Hdel0].
  fold (purge_after s dir d1 seen) in Hlog0, Hdel0. fold at_entry in Hlog0, Hdel0.
  destruct (for_of_empty dir todo st1) as (st3 & Hrun1 & _ & _ & _ & Hkeep & Hframe1 & _).
  destruct (for_of_adds dir todo st1) as [Hlog1 Hdel1].
  rewrite Hrun1 in Hlog1, Hdel1. rewrite Hrun1. simpl in *.
  assert (Fs.nodes (disk (sys at_entry)) !! (dir, file) = Fs.nodes d1 !! (dir, file))
    as Hsame.
  { rewrite Hmid. apply (Hframe0 (dir, file)). by right. }
  split; [|split; [|split; [exact Hsame|split; [exact Hdel0|split]]]].
  - intros Hex. apply Hkeep. unfold st1. rewrite Hex. simpl.
    apply elem_of_app. right. by apply list_elem_of_singleton.
  - intros Hin Hnew. apply Hlog1 in Hin as [Hin|(f & Hf & Heq)].
    2:{ injection Heq as ->. done. }
    unfold st1 in Hin. destruct (Fs.existsSync _ _); [done|].
    apply Hlog0 in Hin as [Hin|(f & Hf & Heq)]; [done|].
    injection Heq as ->. done.
  - intros q. destruct (Hdel1 q) as [Hq|Hq]; [by left|]. rewrite Hq.
    unfold st1. destruct (Fs.existsSync _ _); [|by right].
    apply attempt_unlink_deletes.
  - intros Hex. rewrite (Hframe1 (dir, file)) by (by right).
    unfold st1. rewrite Hex. exact Hsame.
Qed.

(** C10, as amended.  Whenever the folder exists or can be made,
    construction succeeds whatever the unlinks do.  [statSync] never
    describes a link, so no entry is spared as one, and the purge attempts
    an entry of the folder exactly when [existsSync] holds of its path at
    the moment the loop comes to it.  Hence every entry that is not a
    link is attempted; a link is attempted when what it points to is there
    and is still there after the purge, as everything outside the folder
    is; and a link whose target is missing is not attempted and stays. *)
Theorem purge_follows_links s folder_name root d1 :
  USER_DATA s = Some root ->
  truthy_string root = true ->
  Fs.mkdirSync (disk s) (Fs.resolve_cache root folder_name) = Ret d1 ->
  exists s' fs,
    new folder_name s = (s', Ret fs) /\
    folder fs = Fs.resolve_cache root folder_name /\
    (forall d p stat, Fs.statSync d p = Ret stat -> Fs.isSymbolicLink stat = false) /\
    (forall seen file todo,
        listing d1 (folder fs) = (seen ++ file :: todo)%list ->
        SysUnlink (folder fs, file) ∉ syscalls s ->
        (SysUnlink (folder fs, file) ∈ syscalls s' <->
         Fs.existsSync (disk (sys (purge_after s (folder fs) d1 seen))) (folder fs, file)
           = true)) /\
    (forall file n,
        Fs.nodes (disk s) !! (folder fs, file) = Some n ->
        is_link n = false ->
        SysUnlink (folder fs, file) ∈ syscalls s') /\
    (forall file t n,
        Fs.nodes (disk s) !! (folder fs, file) = Some (Fs.Symlink t) ->
        Fs.nodes (disk s') !! t = Some n ->
        is_link n = false ->
        SysUnlink (folder fs, file) ∈ syscalls s') /\
    (forall q, q.1 <> folder fs -> Fs.nodes (disk s') !! q = Fs.nodes (disk s) !! q) /\
    (forall file t,
        Fs.nodes (disk s) !! (folder fs, file) = Some (Fs.Symlink t) ->
        Fs.existsSync (disk s) (folder fs, file) = false ->
        SysUnlink (folder fs, file) ∉ syscalls s ->
        (SysUnlink (folder fs, file) ∉ syscalls s') /\
        Fs.nodes (disk s') !! (folder fs, file) = Some (Fs.Symlink t)).
Proof.
  intros Hu Ht Hm.
  pose proof (new_spec folder_name s root Hu Ht) as Hs. simpl in Hs.
  rewrite Hm in Hs. destruct Hs as (st' & Hfor & Hnew).
  set (dir := Fs.resolve_cache root folder_name) in *.
  set (st0 := mkState (mkFileServer dir []) (set_disk d1 s)) in *.
  destruct (for_of_empty dir (listing d1 dir) st0)
    as (st2 & Hfor2 & Hthis & _ & _ & _ & Hframe & _).
  rewrite Hfor in Hfor2. injection Hfor2 as <-.
  assert (folder (this st') = dir) as Hdir by (by rewrite Hthis).
  assert (st' = (for_of (listing d1 dir) (empty_one dir) st0).1) as Hst'
    by (by rewrite Hfor).
  destruct (mkdirSync_spec _ _ _ Hm) as [_ Hnodes].
  assert (forall x, Fs.nodes d1 !! x = None \/ Fs.nodes d1 !! x = Fs.nodes (disk s) !! x)
    as Hd1 by (intros x; right; by rewrite Hnodes).
  exists (sys st'), (this st'). rewrite Hdir.
  split; [exact Hnew|]. split; [done|]. split; [apply statSync_never_link|].
  split; [|split; [|split; [|split]]].
  - intros seen file todo Hl Hfresh.
    destruct (purge_at_entry s dir d1 seen file todo Hl) as (Hthen & Honly & _).
    fold st0 in Hthen, Honly. rewrite <- Hst' in Hthen, Honly.
    split; [intros Hin; by apply Honly|exact Hthen].
  - apply new_inv in Hnew as (root' & _ & Hf & _ & _ & Hatt).
    intros file n. specialize (Hatt file n). by rewrite Hdir in Hatt.
  - intros file t n Hlink Htarget Hn.
    assert (file ∈ listing d1 dir) as Hin.
    { eapply listing_elem. rewrite Hnodes. exact Hlink. }
    apply list_elem_of_split in Hin as (seen & todo & Hl).
    destruct (purge_at_entry s dir d1 seen file todo Hl)
      as (Hthen & _ & Hsame & _ & Hdel & _).
    fold st0 in Hthen, Hdel. rewrite <- Hst' in Hthen, Hdel.
    apply Hthen. apply (existsSync_link _ _ t n); [| |exact Hn].
    + etrans; [exact Hsame|]. rewrite Hnodes. exact Hlink.
    + destruct (Hdel t) as [Hq|Hq].
      * assert (@None Fs.node = Some n) as Hbad
          by (etrans; [symmetry; exact Hq|exact Htarget]).
        discriminate Hbad.
      * etrans; [symmetry; exact Hq|exact Htarget].
  - intros q Hq. rewrite (Hframe q) by (by left). simpl. by rewrite Hnodes.
  - intros file t Hlink Hdangling Hfresh.
    assert (file ∈ listing d1 dir) as Hin.
    { eapply listing_elem. rewrite Hnodes. exact Hlink. }
    apply list_elem_of_split in Hin as (seen & todo & Hl).
    destruct (purge_at_entry s dir d1 seen file todo Hl)
      as (_ & Honly & _ & Hdel0 & _ & Hstays).
    fold st0 in Honly, Hstays. rewrite <- Hst' in Honly, Hstays.
    assert (Fs.existsSync (disk (sys (purge_after s dir d1 seen))) (dir, file) = false)
      as Hno.
    { destruct (Fs.existsSync (disk (sys (purge_after s dir d1 seen))) (dir, file))
        eqn:Hex; [|done].
      apply (existsSync_deleted d1) in Hex; [|exact Hdel0].
      apply (existsSync_deleted (disk s)) in Hex; [|exact Hd1].
      congruence. }
    split.
    + intros Hin. apply Honly in Hin; [congruence|exact Hfresh].
    + etrans; [apply Hstays; exact Hno|]. rewrite Hnodes. exact Hlink.
Qed.

(** The stale folder: the file and the link to a file are unlinked, the
    dangling link is neither attempted nor removed. *)
Lemma purge_skips_dangling_link :
  ~ purge_unlinks_every_entry stale_process "files".
Proof.
  intros H.
  destruct (new "files" stale_process) as [s' [fs|e]] eqn:E.
  2:{ vm_compute in E. discriminate E. }
  specialize (H s' fs E "dangling").
  vm_compute in E. injection E as <- <-.
  assert (is_Some (Fs.nodes (disk stale_process)
                     !! ("/data/.cache/files", "dangling"))) as Hthere.
  { vm_compute. eauto. }
  apply H in Hthere.
  repeat (apply elem_of_cons in Hthere as [Hthere|Hthere]; [discriminate Hthere|]).
  by apply elem_of_nil in Hthere.
Qed.

Lemma purge_follows_links_witness :
  exists s' fs,
    new "files" stale_process = (s', Ret fs) /\
    SysUnlink (folder fs, "a.png") ∈ syscalls s' /\
    SysUnlink (folder fs, "cover") ∈ syscalls s' /\
    (SysUnlink (folder fs, "dangling") ∉ syscalls s') /\
    Fs.nodes (disk s') !! (folder fs, "dangling") = Some (Fs.Symlink ("/tmp", "gone")).
Proof.
  destruct (purge_follows_links stale_process "files" "/data" stale_disk
              eq_refl eq_refl eq_refl)
    as (s' & fs & Hnew & Hf & _ & _ & Hatt & Hlink & Hframe & Hdangling).
  exists s', fs. split; [exact Hnew|]. rewrite Hf in *.
  split; [|split].
  - apply (Hatt "a.png" (Fs.File [])); reflexivity.
  - apply (Hlink "cover" ("/data/covers", "1.jpg") (Fs.File [])); [reflexivity| |reflexivity].
    rewrite Hframe; [reflexivity|]. intros H. discriminate H.
  - apply (Hdangling "dangling" ("/tmp", "gone")); [reflexivity|reflexivity|].
    apply not_elem_of_nil.
Defined.

(** A server built on the stale folder that served ["p.png"] for one
    second and then again for five. *)
Lemma serv_keeps_one_timer_witness :
  exists st,
    reachable st /\ one_timer_per_file st /\
    exists st' h',
      serv [] "p.png" (Some 5) st = (st', Ret "/files/p.png") /\
      live_timers st' !! h' = Some (Timers.mkTimer "p.png" 5000).
Proof.
  destruct (new "files" stale_process) as [s' [fs|e]] eqn:E.
  2:{ vm_compute in E. discriminate E. }
  set (st := run_op (OpServ [] "p.png" (Some 1)) (mkState fs s')).
  assert (reachable st) as Hreach.
  { apply reach_op, (reach_new stale_process "files" s' fs eq_refl E). }
  destruct (serv_keeps_one_timer st Hreach) as (Hone & _ & Hserv).
  exists st. split; [exact Hreach|]. split; [exact Hone|].
  assert (live_timers st !! O = Some (Timers.mkTimer "p.png" 1000)) as Hl.
  { unfold st. vm_compute in E. injection E as <- <-. reflexivity. }
  destruct (Hserv [] "p.png" (Some 5) O _ Hl eq_refl)
    as (st' & h' & Hs & _ & _ & _ & Hlive & _).
  exists st', h'. split; [exact Hs|].
  rewrite Hlive. apply lookup_insert_eq.
Defined.

(** A table that still holds a timer for ["a.png"] although the file is
    gone. *)
Lemma delete_missing_file_witness :
  let st := mkState (mkFileServer "/data/.cache/files" [mkEntry "a.png" O])
              (mkSys (Some "/data") (Fs.mkDisk {["/data/.cache/files"]} ∅ ∅)
                 (Timers.mkQueue {[O := Timers.mkTimer "a.png" 600000]} 1) []) in
  exists st',
    delete "a.png" st = (st', Ret false) /\
    find "a.png" (timeouts (this st')) = None.
Proof.
  intros st.
  destruct (delete_missing_file st "a.png" eq_refl) as (st' & Hd & _ & Hf & _).
  exists st'. split; [exact Hd|exact Hf].
Defined.

End FileServerFacts.

(** * Properties of the fetch engine *)

Module MirrorFacts.
Import Mirror MirrorSpec.

Section Facts.
Context (E : Env).

Lemma preserves_exits {A} (m : Eff.M World A) : preserves m -> exits m.
Proof. intros H w. exists ExitNone. apply H. Qed.

Lemma preserves_ret {A} (a : A) : preserves (Eff.ret a).
Proof. by intros w. Qed.

Lemma preserves_throw {A} e : preserves (@Eff.throw World A e).
Proof. by intros w. Qed.

Lemma preserves_lift {A} (o : outcome A) : preserves (Eff.lift_outcome o).
Proof. by intros w. Qed.

Lemma preserves_get : preserves (@Eff.get World).
Proof. by intros w. Qed.

Lemma preserves_emit e : preserves (Eff.modify (emit e)).
Proof. by intros w. Qed.

Lemma preserves_on_sys f : preserves (Eff.modify (on_sys f)).
Proof. by intros w. Qed.

Lemma preserves_bind {A B} (m : Eff.M World A) (k : A -> Eff.M World B) :
  preserves m -> (forall a, preserves (k a)) -> preserves (Eff.bind m k).
Proof.
  intros Hm Hk w. unfold Eff.bind. specialize (Hm w).
  destruct (m w) as [w1 [a|e]]; simpl in *; [|done].
  by rewrite Hk.
Qed.

Lemma preserves_try_catch {A} (m : Eff.M World A) (h : exn -> Eff.M World A) :
  preserves m -> (forall e, preserves (h e)) -> preserves (Eff.try_catch m h).
Proof.
  intros Hm Hh w. unfold Eff.try_catch. specialize (Hm w).
  destruct (m w) as [w1 [a|e]]; simpl in *; [done|].
  by rewrite Hh.
Qed.

Lemma exits_bind_l {A B} (m : Eff.M World A) (k : A -> Eff.M World B) :
  preserves m -> (forall a, exits (k a)) -> exits (Eff.bind m k).
Proof.
  intros Hm Hk w. unfold Eff.bind. specialize (Hm w).
  destruct (m w) as [w1 [a|e]]; simpl in *.
  - destruct (Hk a w1) as [k' Hk']. exists k'. by rewrite Hk', Hm.
  - exists ExitNone. done.
Qed.

Lemma exits_bind_r {A B} (m : Eff.M World A) (k : A -> Eff.M World B) :
  exits m -> (forall a, preserves (k a)) -> exits (Eff.bind m k).
Proof.
  intros Hm Hk w. unfold Eff.bind. destruct (Hm w) as [k' Hk'].
  destruct (m w) as [w1 [a|e]]; simpl in *.
  - exists k'. by rewrite Hk.
  - by exists k'.
Qed.

Create HintDb inst.

Hint Resolve preserves_ret preserves_throw preserves_lift preserves_get
  preserves_emit preserves_on_sys : inst.

Ltac preserve :=
  repeat first
    [ progress (intros)
    | apply preserves_bind
    | apply preserves_try_catch
    | solve [auto with inst]
    | match goal with
      | |- preserves (match ?x with _ => _ end) => destruct x
      | |- preserves (if ?x then _ else _) => destruct x
      end ].

Lemma preserves_wait : preserves wait.
Proof. unfold wait. preserve. Qed.

Lemma preserves_logger what : preserves (logger what).
Proof. unfold logger. preserve. Qed.

Hint Resolve preserves_wait preserves_logger : inst.

Lemma preserves_FileServer_serv data fn : preserves (FileServer_serv data fn).
Proof.
  intros w. unfold FileServer_serv.
  destruct (FileServer.getInstance None _) as [[inst s] [fs|e]]; [|done].
  by destruct (FileServer.serv data fn None _) as [st [r|e]].
Qed.

Lemma preserves_saveToCache fn buffer : preserves (saveToCache E fn buffer).
Proof. unfold saveToCache. preserve. Qed.

Lemma preserves_loadFromCache fn returnType : preserves (loadFromCache E fn returnType).
Proof. unfold loadFromCache. preserve. Qed.

Lemma preserves_fetch_image u referer identifier config :
  preserves (fetch_image E u referer identifier config).
Proof. unfold fetch_image. preserve. Qed.

Lemma preserves_internalFetch config type : preserves (internalFetch E config type).
Proof. unfold internalFetch, direct_attempt, render. preserve. Qed.

Hint Resolve preserves_FileServer_serv preserves_saveToCache preserves_loadFromCache
  preserves_fetch_image preserves_internalFetch : inst.

Lemma exits_release : exits release.
Proof. intros w. by exists ExitRelease. Qed.

Lemma exits_returnFetch data fn : exits (returnFetch data fn).
Proof.
  unfold returnFetch. apply exits_bind_r.
  - intros w. by exists ExitReturnFetch.
  - intros _. preserve.
Qed.

Lemma exits_release_throw {A} e : exits (Eff.bind release (fun _ => @Eff.throw World A e)).
Proof. apply exits_bind_r; [apply exits_release|preserve]. Qed.

Lemma exits_fetch_rest config type : exits (fetch_rest E config type).
Proof.
  unfold fetch_rest.
  apply exits_bind_l; [auto with inst|]. intros res.
  unfold fetch_finish.
  destruct (_ || _); [apply exits_release_throw|].
  destruct (String.eqb (typeof res) "string").
  { destruct type; try apply exits_returnFetch; try apply exits_release_throw.
    destruct (JSON_parse E (as_text res)) as [j|].
    - intros w. unfold Eff.try_catch.
      destruct (exits_returnFetch (VData j) None w) as [k Hk].
      destruct (returnFetch (VData j) None w) as [w1 [a|e]] eqn:Er; [by exists k|].
      unfold returnFetch, Eff.bind, Eff.modify, Eff.ret in Er. discriminate Er.
    - intros w. unfold Eff.try_catch, Eff.throw at 1.
      apply exits_release_throw. }
  destruct (String.eqb (typeof res) "object").
  { destruct type; try apply exits_returnFetch; apply exits_release_throw. }
  apply exits_release_throw.
Qed.

Lemma preserves_post_rest u data type config : preserves (post_rest E u data type config).
Proof. unfold post_rest. preserve. Qed.

Lemma exits_downloadImage_miss u returnType referer identifier fn config :
  exits (downloadImage_miss E u returnType referer identifier fn config).
Proof.
  unfold downloadImage_miss.
  apply exits_bind_l; [auto with inst|]. intros _.
  apply exits_bind_l; [auto with inst|]. intros w.
  apply exits_bind_l; [auto with inst|]. intros [buffer|]; [|apply exits_returnFetch].
  destruct (is_image _); [|apply preserves_exits; preserve].
  apply exits_bind_l; [preserve|]. intros _.
  destruct returnType; apply exits_returnFetch.
Qed.

Lemma exits_downloadImage_rest u returnType referer dependsOnParams config :
  exits (downloadImage_rest E u returnType referer dependsOnParams config).
Proof.
  unfold downloadImage_rest.
  apply exits_bind_l; [auto with inst|]. intros id.
  apply exits_bind_l; [auto with inst|]. intros cached.
  destruct (truthy _); [apply exits_returnFetch|apply exits_downloadImage_miss].
Qed.

Lemma exits_rest c : exits (rest E c).
Proof.
  destruct c; simpl.
  - apply exits_fetch_rest.
  - apply preserves_exits, preserves_post_rest.
  - apply exits_downloadImage_rest.
Qed.

(** An operation is its start followed by its rest. *)
Lemma perform_split c w :
  perform E c w =
    match start c w with
    | (w1, Ret _) => rest E c w1
    | (w1, Throw e) => (w1, Throw e)
    end.
Proof. by destruct c. Qed.

(** Its start raises the counter by one, and nothing else of the
    instance. *)
Lemma start_counter c w :
  this (start c w).1 = set_concurrency (concurrency (this w) + 1) (this w).
Proof. by destruct c. Qed.

(** *** The counter along a run *)

Lemma apply_exit_counter k m :
  concurrency m - 1 <= concurrency (apply_exit k m) /\
  waitTime (apply_exit k m) = waitTime m.
Proof.
  destruct k; simpl; unfold decrement; simpl; (split; [|done]); try lia.
  destruct (concurrency m - 1 <? 0)%Z eqn:Hlt; simpl; lia.
Qed.

Lemma step_balanced r mv :
  balanced r ->
  balanced (step E r mv) /\
  waitTime (this (world (step E r mv))) = waitTime (this (world r)).
Proof.
  unfold balanced, counter. intros Hb. destruct mv as [c|i]; simpl.
  - rewrite length_app, start_counter. simpl. split; [lia|done].
  - destruct (in_flight r !! i) as [c|] eqn:Hi; [|done]. simpl.
    destruct (exits_rest c (world r)) as [k ->].
    destruct (apply_exit_counter k (this (world r))) as [Hc Hw].
    split; [|done].
    pose proof (length_delete (in_flight r) i (ltac:(eauto))) as Hl.
    apply lookup_lt_Some in Hi. lia.
Qed.

Lemma run_balanced moves r :
  balanced r ->
  balanced (run E moves r) /\
  waitTime (this (world (run E moves r))) = waitTime (this (world r)).
Proof.
  revert r. induction moves as [|mv moves IH]; intros r Hb; [done|].
  simpl. destruct (step_balanced r mv Hb) as [Hb' Hw].
  destruct (IH _ Hb') as [Hb'' Hw']. split; [done|congruence].
Qed.

Lemma new_fresh opts s s' m :
  new E opts s = (s', Ret m) ->
  concurrency m = 0 /\
  waitTime m = match mc_waitTime opts with
               | Some 0 | None => 200
               | Some n => n
               end.
Proof.
  unfold new. destruct (USER_DATA s); [|done].
  destruct (_ && _).
  - destruct (Fs.mkdirSync _ _); [|done]. by intros [= <- <-].
  - by intros [= <- <-].
Qed.

(** C5, as amended.  On every run of a fresh instance the counter is at
    least the number of operations in flight, hence never negative; the
    delay a call waits is the wait time of the instance times the counter
    as the call has raised it; and when the wait time the instance was
    built with is not negative, that delay is monotone in the counter at
    the moment of the call. *)
Theorem counter_never_negative opts s s' m inst moves1 moves2 :
  new E opts s = (s', Ret m) ->
  let r1 := run E moves1 (fresh m inst s') in
  let r2 := run E moves2 (fresh m inst s') in
  0 <= Z.of_nat (length (in_flight r1)) <= counter r1 /\
  (forall config type,
      trace (start (CallFetch config type) (world r1)).1 =
        (trace (world r1) ++ [EvSleep (delay_of_call (world r1))])%list /\
      delay_of_call (world r1) = waitTime m * (counter r1 + 1)) /\
  (0 <= waitTime m ->
   counter r1 <= counter r2 ->
   delay_of_call (world r1) <= delay_of_call (world r2) /\
   wait_delay (this (world r1)) <= wait_delay (this (world r2))).
Proof.
  intros Hnew r1 r2. apply new_fresh in Hnew as [Hc _].
  assert (balanced (fresh m inst s')) as Hb.
  { unfold balanced, counter. simpl. lia. }
  destruct (run_balanced moves1 _ Hb) as [Hb1 Hw1].
  destruct (run_balanced moves2 _ Hb) as [_ Hw2].
  fold r1 in Hb1, Hw1. fold r2 in Hw2. unfold balanced in Hb1.
  split; [lia|]. split.
  - intros config type. split; [reflexivity|].
    unfold delay_of_call, wait_delay. simpl. by rewrite Hw1.
  - intros Hpos Hle. unfold delay_of_call, wait_delay. simpl.
    rewrite Hw1, Hw2. unfold counter in Hle.
    split; apply Z.mul_le_mono_nonneg_l; try exact Hpos; lia.
Qed.

(** C1 at [post]: the call completes, on either path, with the counter
    one above what it was. *)
Theorem post_never_releases u data type config w :
  exists w' v,
    post E u data type config w = (w', Ret v) /\
    concurrency (this w') = concurrency (this w) + 1.
Proof.
  unfold post, post_rest, acquire, wait, logger.
  unfold Eff.bind, Eff.modify, Eff.get, Eff.ret. simpl.
  destruct (axios_send E type u data config) as [resp|e]; eexists _, _; split;
    reflexivity.
Qed.

(** The other ways a call ends with the counter still raised. *)
Lemma downloadImage_not_image_leaks w u returnType referer (dependsOnParams : bool)
    config root (uri : URL) e buffer mime :
  USER_DATA (sys w) = Some root ->
  new_URL E u = Some uri ->
  Fs.readFileSync (disk (sys w))
    (cache_dir root (this w),
     filenamify E (origin uri ++ pathname uri ++
                     (if dependsOnParams then search uri else EmptyString))) = Throw e ->
  axios_get_arraybuffer E u (or_string referer (host (this w))) config = Ret buffer ->
  fileTypeFromBuffer E buffer = Some mime ->
  is_image mime = false ->
  exists w',
    downloadImage E u returnType referer dependsOnParams config w = (w', Ret VUndefined) /\
    concurrency (this w') = concurrency (this w) + 1.
Proof.
  intros Hu Hurl Hread Hget Hft Himg.
  unfold downloadImage, downloadImage_rest, generateCacheFilename, loadFromCache.
  unfold Eff.bind at 1. unfold acquire at 1. unfold Eff.modify at 1.
  rewrite Hurl. unfold Eff.bind at 1. unfold Eff.lift_outcome at 1.
  unfold Eff.bind at 1. unfold Eff.bind at 1. unfold Eff.get at 1. simpl.
  rewrite Hu. unfold cache_dir in *. simpl.
  assert (getFileMime E buffer = mime) as Hmime.
  { unfold getFileMime. by rewrite Hft. }
  destruct (cacheEnabled E); rewrite ?Hread; simpl;
    unfold downloadImage_miss, fetch_image, wait;
    unfold Eff.bind, Eff.modify, Eff.get, Eff.ret; simpl;
    rewrite Hget, Hmime, Himg; eexists; split; reflexivity.
Qed.

(** *** The transport chain *)

Lemma fetch_unfold config type w :
  fetch E config type w =
    match internalFetch E config type (entered w) with
    | (w1, Ret res) => fetch_finish E res type w1
    | (w1, Throw e) => (w1, Throw e)
    end.
Proof. reflexivity. Qed.

Lemma entered_host w : host (this (entered w)) = host (this w).
Proof. reflexivity. Qed.

Lemma prepare_host m1 m2 config type :
  host m1 = host m2 -> prepare m1 config type = prepare m2 config type.
Proof. unfold prepare. by intros ->. Qed.

Lemma is_no_selector_not_found : is_no_selector (Error "selector_not_found") = false.
Proof. reflexivity. Qed.

Lemma is_no_selector_in t : is_no_selector (Error ("no_selector_in_" ++ t)) = true.
Proof. by destruct t. Qed.

Lemma internalFetch_cases config type w :
  let job := prepare (this w) config type in
  let w1 := emit (EvAxiosGet (set_timeout 5000 job)) w in
  let sel := waitForSelector config in
  internalFetch E config type w =
    match axios_get E (set_timeout 5000 job) with
    | Throw e => if is_no_selector e then (w1, Throw e) else rendered E w job type
    | Ret j =>
        if String.eqb (typeof (VData j)) "string" then
          if truthy_opt_string sel then
            if selector_matches E (as_text (VData j)) (default EmptyString sel)
            then (w1, Ret (VData j))
            else rendered E w job type
          else (w1, Ret (VData j))
        else
          if truthy_opt_string sel
          then (w1, Throw (Error ("no_selector_in_" ++ typeof (VData j))))
          else (w1, Ret (VData j))
    end.
Proof.
  intros job w1 sel. subst sel.
  unfold internalFetch, direct_attempt, render, rendered.
  unfold Eff.bind, Eff.try_catch, Eff.get, Eff.modify, Eff.lift_outcome,
    Eff.ret, Eff.throw. simpl.
  fold job. fold w1.
  destruct (axios_get E (set_timeout 5000 job)) as [j|e]; simpl.
  - destruct j; simpl; destruct (truthy_opt_string (waitForSelector config));
      simpl; try reflexivity.
    destruct (selector_matches E _ _); reflexivity.
  - destruct (is_no_selector e); reflexivity.
Qed.

Lemma fetch_render_throws_leaks config type w e e' :
  let job := prepare (this w) config type in
  axios_get E (set_timeout 5000 job) = Throw e ->
  is_no_selector e = false ->
  crawler E (set_timeout 10000 job) false (Some type) = Throw e' ->
  exists w',
    fetch E config type w = (w', Throw e') /\
    concurrency (this w') = concurrency (this w) + 1.
Proof.
  intros job Hget Hsel Hcrawl.
  rewrite fetch_unfold, internalFetch_cases.
  rewrite (prepare_host _ (this w)) by apply entered_host.
  fold job. rewrite Hget, Hsel. unfold rendered. rewrite Hcrawl.
  eexists; split; reflexivity.
Qed.

Lemma fetch_finish_throw res type w w' e :
  fetch_finish E res type w = (w', Throw e) ->
  message e = "selector_not_found" ->
  res = VError e.
Proof.
  unfold fetch_finish, returnFetch, release.
  unfold Eff.bind, Eff.try_catch, Eff.modify, Eff.throw, Eff.ret.
  intros H Hm.
  destruct res as [|[|b|n|s|l|l]|b|e'|markup]; simpl in H;
    try (destruct type; simpl in H);
    try (destruct (JSON_parse E _); simpl in H);
    injection H as _ H; try discriminate H; subst e; try discriminate Hm;
    reflexivity.
Qed.

(** C2. Whatever the direct attempt throws, unless it is the
    [no_selector_in_] exception, and whenever its textual answer lacks the
    required selector, the job goes to the rendering transport as it was
    prepared for the direct one, with the longer timeout, and the answer of
    that transport is the answer of the chain; an exception
    [selector_not_found] that reaches the caller of [fetch] is one the
    rendering transport produced. *)
Theorem fallback_to_rendering config type w :
  let job := prepare (this w) config type in
  let direct := axios_get E (set_timeout 5000 job) in
  (url job = url config /\ referer job = referer config /\
   cookies job = cookies config /\ waitForSelector job = waitForSelector config /\
   timeout job = timeout config /\ spread job = spread config) /\
  (forall e,
      direct = Throw e -> is_no_selector e = false ->
      internalFetch E config type w = rendered E w job type) /\
  (forall text,
      direct = Ret (JStr text) ->
      truthy_opt_string (waitForSelector config) = true ->
      selector_matches E text (default EmptyString (waitForSelector config)) = false ->
      internalFetch E config type w = rendered E w job type) /\
  (forall w' e,
      fetch E config type w = (w', Throw e) ->
      message e = "selector_not_found" ->
      crawler E (set_timeout 10000 job) false (Some type) = Throw e \/
      crawler E (set_timeout 10000 job) false (Some type) = Ret (VError e)).
Proof.
  intros job direct. split; [by repeat split|]. split; [|split].
  - intros e Hd Hsel. rewrite internalFetch_cases. fold job. fold direct.
    by rewrite Hd, Hsel.
  - intros text Hd Hsel Hmiss. rewrite internalFetch_cases. fold job. fold direct.
    rewrite Hd. simpl. by rewrite Hsel, Hmiss.
  - intros w' e Hf Hm. rewrite fetch_unfold, internalFetch_cases in Hf.
    rewrite (prepare_host _ (this w)) in Hf by apply entered_host.
    fold job in Hf. fold direct in Hf.
    assert (forall w0,
              match rendered E w0 job type with
              | (w1, Ret res) => fetch_finish E res type w1
              | (w1, Throw e) => (w1, Throw e)
              end = (w', Throw e) ->
              crawler E (set_timeout 10000 job) false (Some type) = Throw e \/
              crawler E (set_timeout 10000 job) false (Some type) = Ret (VError e))
      as Hrender.
    { intros w0. unfold rendered.
      destruct (crawler E (set_timeout 10000 job) false (Some type)) as [res|e'].
      - intros Hfin. right. f_equal. by eapply fetch_finish_throw.
      - intros [= _ ->]. by left. }
    assert (forall w0 j, fetch_finish E (VData j) type w0 <> (w', Throw e)) as Hdata.
    { intros w0 j Hfin. by apply fetch_finish_throw in Hfin. }
    destruct direct as [j|e'].
    + destruct (String.eqb (typeof (VData j)) "string");
        destruct (truthy_opt_string (waitForSelector config));
        try (by apply Hdata in Hf).
      * destruct (selector_matches E _ _); [by apply Hdata in Hf|by eapply Hrender].
      * injection Hf as _ <-. simpl in Hm.
        by destruct j as [|b|n|s|l|l].
    + destruct (is_no_selector e') eqn:Hsel; [|by eapply Hrender].
      injection Hf as _ ->. unfold is_no_selector in Hsel.
      rewrite Hm in Hsel. simpl in Hsel. by rewrite andb_false_r in Hsel.
Qed.

(** Where the transports answer, [fetch] gives the counter back on
    whatever path it ends. *)
Lemma fetch_finish_decrements res type w :
  exists clamp, this (fetch_finish E res type w).1 = decrement clamp (this w).
Proof.
  unfold fetch_finish, returnFetch, release.
  unfold Eff.bind, Eff.try_catch, Eff.modify, Eff.throw, Eff.ret.
  destruct res as [|[|b|n|s|l|l]|b|e'|markup]; simpl;
    try (destruct type; simpl);
    try (destruct (JSON_parse E _); simpl);
    first [by exists true | by exists false].
Qed.

Lemma fetch_gives_back config type w w1 res :
  0 <= concurrency (this w) ->
  internalFetch E config type (entered w) = (w1, Ret res) ->
  concurrency (this (fetch E config type w).1) = concurrency (this w).
Proof.
  intros Hc Hi. rewrite fetch_unfold, Hi.
  destruct (fetch_finish_decrements res type w1) as [clamp ->].
  pose proof (preserves_internalFetch config type (entered w)) as Hp.
  rewrite Hi in Hp. simpl in Hp. rewrite Hp.
  unfold decrement. simpl.
  destruct clamp; simpl; [|lia].
  destruct (concurrency (this w) + 1 - 1 <? 0)%Z eqn:Hlt; lia.
Qed.

(** C8. When the transports yield a text that [JSON.parse] rejects,
    [fetch] of type ['json'] throws [invalid_json] (and gives the counter
    back), and [fetch] of type ['string'] returns the text as it is. *)
Theorem invalid_json_or_raw_text config body w wj ws :
  JSON_parse E body = None ->
  internalFetch E config TJson (entered w) = (wj, Ret (VString body)) ->
  internalFetch E config TString (entered w) = (ws, Ret (VString body)) ->
  fetch E config TJson w = (on_this (decrement false) wj, Throw (Error "invalid_json")) /\
  fetch E config TString w = (on_this (decrement true) ws, Ret (VString body)).
Proof.
  intros Hparse Hj Hs. rewrite !fetch_unfold, Hj, Hs.
  unfold fetch_finish, returnFetch, release. simpl. rewrite Hparse.
  split; reflexivity.
Qed.

(** *** Identity *)

Lemma assign_id_unforced m id langs u :
  truthy_opt_string id = false ->
  truthy_string u = true ->
  assign_id E m id langs u = Ret (stable_id E m langs u).
Proof.
  intros Hid Hu. unfold assign_id, uuidv5, stable_id. rewrite Hid, Hu. simpl.
  by destruct (MangaDatabase_get E _).
Qed.

Lemma assign_id_forced m id langs u existing :
  truthy_string id = true ->
  MangaDatabase_get E (ById id langs) = Some existing ->
  assign_id E m (Some id) langs u = Ret existing.
Proof.
  intros Hid Hdb. unfold assign_id, uuidv5. simpl. rewrite Hid. simpl.
  by rewrite Hdb.
Qed.

(** C3. For a tuple with a url, every call of a builder that forces no
    id yields the same identifier, [stable_id] of the tuple, whatever the
    other fields of the record; and a forced id under which the library
    holds a record for the languages yields the identifier of that
    record. *)
Theorem builders_assign_stable_ids m :
  (forall langs u,
      truthy_string u = true ->
      (forall mg : MangaInput,
          truthy_opt_string (mg_id mg) = false -> mg_langs mg = langs -> mg_url mg = u ->
          exists p, mangaPageBuilder E m mg = Ret p /\ page_id p = stable_id E m langs u) /\
      (forall mg : SearchInput,
          truthy_opt_string (sr_id mg) = false -> sr_langs mg = langs -> sr_url mg = u ->
          exists r, searchResultsBuilder E m mg = Ret r /\ result_id r = stable_id E m langs u)) /\
  (forall lang u,
      truthy_string u = true ->
      forall ch : ChapterInput,
        truthy_opt_string (ch_id ch) = false -> ch_lang ch = lang -> ch_url ch = u ->
        exists c, chaptersBuilder E m ch = Ret c /\ chapter_id c = stable_id E m [lang] u) /\
  (forall id existing,
      truthy_string id = true ->
      (forall mg : MangaInput,
          mg_id mg = Some id ->
          MangaDatabase_get E (ById id (mg_langs mg)) = Some existing ->
          exists p, mangaPageBuilder E m mg = Ret p /\ page_id p = existing) /\
      (forall mg : SearchInput,
          sr_id mg = Some id ->
          MangaDatabase_get E (ById id (sr_langs mg)) = Some existing ->
          exists r, searchResultsBuilder E m mg = Ret r /\ result_id r = existing) /\
      (forall ch : ChapterInput,
          ch_id ch = Some id ->
          MangaDatabase_get E (ById id [ch_lang ch]) = Some existing ->
          exists c, chaptersBuilder E m ch = Ret c /\ chapter_id c = existing)).
Proof.
  split; [|split].
  - intros langs u Hu. split.
    + intros mg Hid <- <-. unfold mangaPageBuilder.
      rewrite (assign_id_unforced _ _ _ _ Hid Hu). eauto.
    + intros mg Hid <- <-. unfold searchResultsBuilder.
      rewrite (assign_id_unforced _ _ _ _ Hid Hu). eauto.
  - intros lang u Hu ch Hid <- <-. unfold chaptersBuilder.
    rewrite (assign_id_unforced _ _ _ _ Hid Hu). eauto.
  - intros id existing Hid. split; [|split].
    + intros mg Hmg Hdb. unfold mangaPageBuilder.
      rewrite Hmg, (assign_id_forced _ _ _ _ _ Hid Hdb). eauto.
    + intros mg Hmg Hdb. unfold searchResultsBuilder.
      rewrite Hmg, (assign_id_forced _ _ _ _ _ Hid Hdb). eauto.
    + intros ch Hch Hdb. unfold chaptersBuilder.
      rewrite Hch, (assign_id_forced _ _ _ _ _ Hid Hdb). eauto.
Qed.

(** *** The response cache *)

Lemma cached_value_truthy returnType buffer :
  truthy (cached_value E returnType buffer) = true.
Proof. by destruct returnType. Qed.

Lemma downloadImage_hit w u returnType referer dependsOnParams config root uri buffer :
  USER_DATA (sys w) = Some root ->
  cacheEnabled E = true ->
  new_URL E u = Some uri ->
  Fs.readFileSync (disk (sys w))
    (cache_dir root (this w), cache_key E uri dependsOnParams) = Ret buffer ->
  downloadImage E u returnType referer dependsOnParams config w =
    returnFetch (cached_value E returnType buffer) (Some (cache_key E uri dependsOnParams))
      (emit (EvLog "cache hit") (acquire w).1).
Proof.
  intros Hu Hc Hurl Hread.
  unfold downloadImage, downloadImage_rest, generateCacheFilename, loadFromCache, logger.
  unfold Eff.bind at 1. unfold acquire at 1. unfold Eff.modify at 1.
  rewrite Hurl. unfold Eff.bind at 1. unfold Eff.lift_outcome at 1.
  unfold Eff.bind at 1. unfold Eff.bind at 1. unfold Eff.get at 1. simpl.
  rewrite Hu, Hc. unfold cache_key in Hread. unfold cache_dir in *. simpl.
  rewrite Hread. unfold Eff.bind at 1. unfold Eff.modify at 1.
  fold (cached_value E Cover buffer). fold (cached_value E Page buffer).
  destruct returnType; reflexivity.
Qed.

Lemma returnFetch_trace data fn w :
  trace (returnFetch data fn w).1 = trace w.
Proof.
  unfold returnFetch, Eff.bind, Eff.modify. simpl.
  destruct data as [| | b | |]; try reflexivity.
  destruct fn as [f|]; [|reflexivity].
  destruct (truthy_string f); [|reflexivity].
  unfold FileServer_serv. simpl.
  destruct (FileServer_instance w) as [fs|]; [|reflexivity].
  by destruct (FileServer.serv b f None _) as [st [r|e]].
Qed.

(** C4. When the cache holds the asset, [downloadImage] calls neither
    transport: every transport call in the trace was there before.  A
    cover comes back as the data URI of the cached bytes; a page is handed
    to the file server and comes back as its servable path. *)
Theorem cache_hit_skips_transports w u returnType referer dependsOnParams config buffer :
  cache_holds E w u dependsOnParams buffer ->
  let r := downloadImage E u returnType referer dependsOnParams config w in
  (forall e, e ∈ trace r.1 -> is_transport e = true -> e ∈ trace w) /\
  match returnType with
  | Cover =>
      r.2 = Ret (VString ("data:" ++ getFileMime E buffer ++ ";base64," ++ base64 E buffer))
  | Page =>
      forall uri fn,
        new_URL E u = Some uri -> fn = cache_key E uri dependsOnParams ->
        (truthy_string fn = false -> r.2 = Ret (VBuffer buffer)) /\
        (truthy_string fn = true -> is_Some (FileServer_instance w) ->
         r.2 = Ret (VString ("/files/" ++ fn)))
  end.
Proof.
  intros (root & uri & Hu & Hc & Hurl & Hread) r. unfold r.
  rewrite (downloadImage_hit _ _ _ _ _ _ _ _ _ Hu Hc Hurl Hread).
  split.
  - rewrite returnFetch_trace. simpl. intros e He Ht.
    apply elem_of_app in He as [He|He]; [done|].
    apply list_elem_of_singleton in He. by subst e.
  - destruct returnType; [reflexivity|].
    intros uri' fn Hurl' ->. rewrite Hurl in Hurl'. injection Hurl' as <-.
    unfold returnFetch, Eff.bind, Eff.modify. simpl. split.
    + by intros ->.
    + intros -> [fs Hfs]. unfold FileServer_serv. simpl. rewrite Hfs. simpl.
      pose proof (FileServerFacts.serv_returns buffer (cache_key E uri dependsOnParams) None
                    (FileServer.mkState fs (sys w))) as Hs.
      destruct (FileServer.serv _ _ _ _) as [st [p|e]]; simpl in Hs; [|done].
      by injection Hs as ->.
Qed.

(** *** Content types *)

Lemma is_image_jpeg : is_image "image/jpeg" = true.
Proof. reflexivity. Qed.

(** [downloadImage] when the cache has nothing under the key. *)
Lemma downloadImage_not_cached w u returnType referer dependsOnParams config root uri e :
  USER_DATA (sys w) = Some root ->
  new_URL E u = Some uri ->
  Fs.readFileSync (disk (sys w))
    (cache_dir root (this w), cache_key E uri dependsOnParams) = Throw e ->
  downloadImage E u returnType referer dependsOnParams config w =
    downloadImage_miss E u returnType referer
      (origin uri ++ pathname uri ++ (if dependsOnParams then search uri else EmptyString))
      (cache_key E uri dependsOnParams) config (acquire w).1.
Proof.
  intros Hu Hurl Hread.
  unfold downloadImage, downloadImage_rest, generateCacheFilename, loadFromCache.
  unfold Eff.bind at 1. unfold acquire at 1. unfold Eff.modify at 1.
  rewrite Hurl. unfold Eff.bind at 1. unfold Eff.lift_outcome at 1.
  unfold Eff.bind at 1. unfold Eff.bind at 1. unfold Eff.get at 1. simpl.
  rewrite Hu. unfold cache_key, cache_dir in *. simpl.
  destruct (cacheEnabled E); [|reflexivity]. by rewrite Hread.
Qed.

Lemma downloadImage_miss_cover w u referer identifier fn config buffer :
  axios_get_arraybuffer E u (or_string referer (host (this w))) config = Ret buffer ->
  is_image (getFileMime E buffer) = true ->
  downloadImage_miss E u Cover referer identifier fn config w =
    (on_this (decrement true) (image_saved E w u referer fn config buffer),
     Ret (VString ("data:" ++ getFileMime E buffer ++ ";charset=utf-8;base64,"
                     ++ base64 E buffer))).
Proof.
  intros Hget Himg.
  unfold downloadImage_miss, image_saved, fetch_image, returnFetch.
  unfold Eff.bind at 1. unfold Eff.bind at 1. unfold Eff.get at 1.
  destruct (wait w) as [w1 [[]|e]] eqn:Hw; [|discriminate Hw].
  assert (this w1 = this w) as Hthis.
  { pose proof (preserves_wait w) as H. by rewrite Hw in H. }
  simpl. unfold Eff.bind at 1. unfold Eff.bind at 1. unfold Eff.modify at 1.
  rewrite Hthis, Hget. unfold Eff.ret at 1. rewrite Himg.
  unfold Eff.bind at 1.
  pose proof (preserves_saveToCache fn buffer) as Hs.
  destruct (cache (options (this w))).
  - destruct (saveToCache E fn buffer _) as [w3 [[]|e]] eqn:Hsave; [reflexivity|].
    exfalso. revert Hsave. unfold saveToCache.
    unfold Eff.bind, Eff.get, Eff.modify, Eff.ret, logger. simpl.
    destruct (USER_DATA (sys w1)); [|done]. destruct (cacheEnabled E); [|done].
    simpl. by destruct (Fs.writeFileSync _ _ _).
  - reflexivity.
Qed.

Lemma saveToCache_disk fn buffer w root d :
  USER_DATA (sys w) = Some root ->
  cacheEnabled E = true ->
  Fs.writeFileSync (disk (sys w)) (cache_dir root (this w), fn) buffer = Ret d ->
  disk (sys (saveToCache E fn buffer w).1) = d.
Proof.
  intros Hu Hc Hw. unfold saveToCache.
  unfold Eff.bind, Eff.get, Eff.modify, Eff.ret, logger. simpl.
  rewrite Hu, Hc. simpl. by rewrite Hw.
Qed.

(** C9. A buffer whose type [file-type] does not detect has mime
    [image/jpeg] and passes the image check, which therefore fails only
    for a buffer detected as something that is not an image; fetched as a
    cover such a buffer is written to the cache (when the source caches)
    and returned as a [data:image/jpeg] URI, and so is it on a later hit
    of the cache. *)
Theorem undetected_type_is_jpeg buffer :
  fileTypeFromBuffer E buffer = None ->
  getFileMime E buffer = "image/jpeg" /\
  is_image (getFileMime E buffer) = true /\
  (forall b,
      is_image (getFileMime E b) = false ->
      exists mime, fileTypeFromBuffer E b = Some mime /\ is_image mime = false) /\
  (forall w u referer dependsOnParams config root uri e,
      USER_DATA (sys w) = Some root ->
      new_URL E u = Some uri ->
      Fs.readFileSync (disk (sys w))
        (cache_dir root (this w), cache_key E uri dependsOnParams) = Throw e ->
      axios_get_arraybuffer E u (or_string referer (host (this w))) config = Ret buffer ->
      let r := downloadImage E u Cover referer dependsOnParams config w in
      r.2 = Ret (VString ("data:image/jpeg;charset=utf-8;base64," ++ base64 E buffer)) /\
      (cache (options (this w)) = true -> cacheEnabled E = true ->
       forall d,
         Fs.writeFileSync (disk (sys w))
           (cache_dir root (this w), cache_key E uri dependsOnParams) buffer = Ret d ->
         disk (sys r.1) = d)) /\
  (forall w u referer dependsOnParams config,
      cache_holds E w u dependsOnParams buffer ->
      (downloadImage E u Cover referer dependsOnParams config w).2 =
        Ret (VString ("data:image/jpeg;base64," ++ base64 E buffer))).
Proof.
  intros Hft.
  assert (getFileMime E buffer = "image/jpeg") as Hmime.
  { unfold getFileMime. by rewrite Hft. }
  split; [exact Hmime|]. split; [by rewrite Hmime|]. split; [|split].
  - intros b Hb. unfold getFileMime in Hb.
    destruct (fileTypeFromBuffer E b) as [mime|]; [eauto|done].
  - intros w u referer dependsOnParams config root uri e Hu Hurl Hread Hget r.
    unfold r. clear r.
    rewrite (downloadImage_not_cached _ _ _ _ _ _ _ _ _ Hu Hurl Hread).
    rewrite (downloadImage_miss_cover _ _ _ _ _ _ buffer); [|exact Hget|by rewrite Hmime].
    rewrite Hmime. split; [reflexivity|].
    intros Hopt Hc d Hw. simpl. unfold image_saved. simpl. rewrite Hopt.
    by apply (saveToCache_disk _ _ _ root).
  - intros w u referer dependsOnParams config (root & uri & Hu & Hc & Hurl & Hread).
    rewrite (downloadImage_hit _ _ Cover _ _ _ _ _ _ Hu Hc Hurl Hread).
    simpl. by rewrite Hmime.
Qed.

End Facts.

(** An instance built with a negative wait time: the delay computed with
    two operations in flight is below the one computed with one. *)
Lemma negative_wait_time_decreases :
  ~ wait_grows_with_counter offline (example_options (Some (-5))) example_process.
Proof.
  intros H.
  destruct (new offline (example_options (Some (-5))) example_process)
    as [s' [m|e]] eqn:Hnew; [|vm_compute in Hnew; discriminate Hnew].
  destruct (H s' m None [] [Start (CallFetch example_job THtml)] Hnew) as [_ Hmono].
  vm_compute in Hnew. injection Hnew as <- <-.
  vm_compute in Hmono. apply Hmono; [discriminate|reflexivity].
Qed.

Lemma counter_never_negative_witness :
  exists s' m,
    new offline (example_options None) example_process = (s', Ret m) /\
    let r := run offline [Start (CallFetch example_job THtml); Finish 0]
               (fresh m None s') in
    0 <= counter r.
Proof.
  destruct (new offline (example_options None) example_process)
    as [s' [m|e]] eqn:Hnew; [|vm_compute in Hnew; discriminate Hnew].
  exists s', m. split; [reflexivity|].
  pose proof (counter_never_negative offline (example_options None) example_process
                s' m None [Start (CallFetch example_job THtml); Finish 0] [] Hnew)
    as Hc.
  cbv zeta in Hc. destruct Hc as [Hc _]. cbv zeta. lia.
Defined.

(** ** The statements at work on the examples *)

Lemma fallback_to_rendering_witness :
  let config := mkJob "https://mangadex.org/title/1" None ∅ None (Some "#main") None [] in
  (internalFetch site config THtml example_world).2 =
    Ret (Mirror.VString "<html><div id=main></div></html>").
Proof.
  intros config.
  destruct (fallback_to_rendering site config THtml example_world)
    as (_ & _ & Hmissing & _).
  rewrite (Hmissing "<html>loading</html>" eq_refl eq_refl eq_refl).
  reflexivity.
Defined.

Lemma builders_assign_stable_ids_witness :
  exists p,
    mangaPageBuilder offline example_mirror
      (mkMangaInput None "/title/1" ["en"] [] []) = Ret p /\
    page_id p = stable_id offline example_mirror ["en"] "/title/1".
Proof.
  destruct (builders_assign_stable_ids offline example_mirror) as (Hfree & _ & _).
  destruct (Hfree ["en"] "/title/1" eq_refl) as [Hpage _].
  apply Hpage; reflexivity.
Defined.

Lemma example_cache_holds :
  cache_holds offline example_world "https://mangadex.org/cover.jpg" false [].
Proof.
  exists "/data", (mkURL "https://mangadex.org/cover.jpg" EmptyString EmptyString).
  repeat split; vm_compute; reflexivity.
Defined.

Lemma cache_hit_skips_transports_witness :
  (downloadImage offline "https://mangadex.org/cover.jpg" Cover None false [] example_world).2 =
    Ret (Mirror.VString "data:image/jpeg;base64,AAAA").
Proof.
  destruct (cache_hit_skips_transports offline example_world
              "https://mangadex.org/cover.jpg" Cover None false [] []
              example_cache_holds) as [_ Hr].
  exact Hr.
Defined.

Lemma invalid_json_or_raw_text_witness :
  (fetch site example_job TJson example_world).2 = Throw (Error "invalid_json") /\
  (fetch site example_job TString example_world).2 =
    Ret (Mirror.VString "<html>loading</html>").
Proof.
  destruct (invalid_json_or_raw_text site example_job "<html>loading</html>"
              example_world _ _ eq_refl eq_refl eq_refl) as [Hj Hs].
  rewrite Hj, Hs. split; reflexivity.
Defined.

Lemma undetected_type_is_jpeg_witness :
  getFileMime offline [] = "image/jpeg".
Proof.
  destruct (undetected_type_is_jpeg offline [] eq_refl) as [Hmime _].
  exact Hmime.
Defined.

End MirrorFacts.


(** * More of the file server: proofs *)

Module FileServerMore.
Import FileServer FileServerSpec FileServerFacts FileServerMoreSpec.

(** ** [node:fs]: what is written is read back *)

Lemma follow_lookup fuel d p q o :
  Fs.follow fuel d p = Some (q, o) ->
  Fs.nodes d !! q = o /\ forall n, o = Some n -> is_link n = false.
Proof.
  revert p. induction fuel as [|fuel IH]; intros p; simpl;
    destruct (Fs.nodes d !! p) as [[data| |t]|] eqn:E; intros H;
    try discriminate H; try (eapply IH; exact H);
    injection H as <- <-; (split; [done|]); intros n Hn; by simplify_eq.
Qed.

Lemma follow_written fuel d p q o data :
  Fs.follow fuel d p = Some (q, o) ->
  Fs.follow fuel
    (Fs.mkDisk (Fs.dirs d) (<[q := Fs.File data]> (Fs.nodes d)) (Fs.readonly d)) p =
    Some (q, Some (Fs.File data)).
Proof.
  revert p. induction fuel as [|fuel IH]; intros p; simpl;
    destruct (Fs.nodes d !! p) as [[data'| |t]|] eqn:E; intros H;
    try discriminate H.
  all: try (injection H as <- <-; by rewrite lookup_insert_eq).
  assert (p <> q) as Hne.
  { intros ->. apply follow_lookup in H as [Hq Hl].
    rewrite E in Hq. subst o. by specialize (Hl _ eq_refl). }
  rewrite lookup_insert_ne by done. rewrite E. by apply IH.
Qed.

Lemma writeFileSync_readFileSync d p data d' :
  Fs.writeFileSync d p data = Ret d' -> Fs.readFileSync d' p = Ret data.
Proof.
  unfold Fs.writeFileSync, Fs.readFileSync, Fs.target.
  destruct (Fs.follow Fs.max_links d p) as [[q o]|] eqn:E; [|done].
  intros H.
  assert (d' = Fs.mkDisk (Fs.dirs d) (<[q := Fs.File data]> (Fs.nodes d)) (Fs.readonly d))
    as ->.
  { destruct o as [[| |]|]; try done;
      repeat (case_bool_decide; simpl in H; try done); by injection H as <-. }
  by rewrite (follow_written _ _ _ _ _ data E).
Qed.

(** ** Handles *)

Lemma delete_timers fn st :
  timers (sys (delete fn st).1) =
    match find fn (timeouts (this st)) with
    | Some (_, found) => Timers.clearTimeout (timers (sys st)) (timeout found)
    | None => timers (sys st)
    end.
Proof.
  destruct st as [[f l] [u d q c]].
  unfold delete, unlinkSync, clearTimeout. eff_unfold. simpl.
  unfold resolveFile.
  destruct (find fn l) as [[i found]|]; simpl;
    destruct (Fs.unlinkSync d (f, fn)) eqn:E; reflexivity.
Qed.

Lemma handles_ok_reset st i found fn lifetime :
  find fn (timeouts (this st)) = Some (i, found) ->
  handles_ok st -> handles_ok (reset_state st i found fn lifetime).
Proof.
  intros Hfind [Hnd Hlt]. apply find_Some in Hfind as [Hi _].
  unfold handles_ok, reset_state. simpl. split.
  - apply NoDup_alt. intros j k h Hj Hk.
    rewrite list_fmap_insert, list_lookup_insert in Hj, Hk.
    rewrite length_fmap in Hj, Hk. simpl in Hj, Hk.
    assert (forall j', (timeout <$> timeouts (this st)) !! j' = Some h ->
                       (h < Timers.next (timers (sys st)))%nat) as Hold.
    { intros j' Hj'. rewrite list_lookup_fmap in Hj'.
      destruct (timeouts (this st) !! j') as [e|] eqn:He; [|done].
      injection Hj' as <-. apply Hlt. apply list_elem_of_lookup. eauto. }
    repeat case_decide; simplify_eq;
      first [ lia
            | by eapply NoDup_alt
            | match goal with
              | H : (timeout <$> _) !! _ = Some _ |- _ => apply Hold in H; lia
              end ].
  - intros e He. apply list_elem_of_lookup in He as [j Hj].
    rewrite list_lookup_insert in Hj. case_decide.
    + injection Hj as <-. simpl. lia.
    + assert (e ∈ timeouts (this st)) as Hin by (apply list_elem_of_lookup; eauto).
      specialize (Hlt _ Hin). lia.
Qed.

Lemma handles_ok_init st fn data lifetime :
  handles_ok st -> handles_ok (initFile fn data lifetime st).1.
Proof.
  intros [Hnd Hlt].
  pose proof (initFile_spec fn data lifetime st) as Hi. simpl in Hi.
  destruct (Fs.writeFileSync _ _ _); rewrite Hi; simpl; [|by split].
  unfold handles_ok. simpl. split.
  - rewrite fmap_app. apply NoDup_app. split; [done|]. split.
    + intros h Hh Hh'. apply list_elem_of_singleton in Hh'. subst h.
      apply list_elem_of_fmap in Hh as [e [He Hin]]. specialize (Hlt _ Hin).
      simpl in He. lia.
    + apply NoDup_singleton.
  - intros e He. apply elem_of_app in He as [He|He].
    + specialize (Hlt _ He). lia.
    + apply list_elem_of_singleton in He. subst e. simpl. lia.
Qed.

Lemma handles_ok_serv data fn lifetime st :
  handles_ok st -> handles_ok (serv data fn lifetime st).1.
Proof.
  intros Hok. destruct (find fn (timeouts (this st))) as [[i found]|] eqn:E.
  - rewrite (serv_hit _ _ _ _ _ _ E). simpl. by apply handles_ok_reset.
  - rewrite (serv_miss _ _ _ _ E). simpl. by apply handles_ok_init.
Qed.

Lemma handles_ok_delete fn st :
  handles_ok st -> handles_ok (delete fn st).1.
Proof.
  intros [Hnd Hlt]. pose proof (delete_timers fn st) as Htm.
  destruct (delete_spec fn st) as (st' & b & Hd & _ & Ht & _).
  rewrite Hd in Htm |- *. simpl in *. unfold handles_ok. rewrite Ht. split.
  - eapply sublist_NoDup; [exact Hnd|]. apply fmap_sublist, sublist_filter.
  - intros e He. apply list_elem_of_filter in He as [_ He]. specialize (Hlt _ He).
    rewrite Htm. by destruct (find fn (timeouts (this st))) as [[i found]|].
Qed.

Lemma handles_ok_clear h st :
  handles_ok st ->
  handles_ok (on_sys (fun s => set_timers (Timers.clearTimeout (timers s) h) s) st).
Proof. by intros [Hnd Hlt]. Qed.

Lemma handles_ok_fire h st : handles_ok st -> handles_ok (fire h st).1.
Proof.
  intros Hok. rewrite fire_spec. destruct (live_timers st !! h); [|done].
  by apply handles_ok_delete, handles_ok_clear.
Qed.

Lemma reachable_handles_ok st : reachable st -> handles_ok st.
Proof.
  induction 1 as [s folder_name s' fs Hlive Hnew|st o _ IH].
  - apply new_inv in Hnew as (root & _ & _ & Ht & _).
    unfold handles_ok. simpl. rewrite Ht. split; [apply NoDup_nil_2|].
    intros e He. by apply elem_of_nil in He.
  - destruct o; simpl.
    + by apply handles_ok_serv.
    + by apply handles_ok_delete.
    + by apply handles_ok_fire.
Qed.

(** A live timer with another name is not the one the entry of [fn]
    holds, and it was issued. *)
Lemma other_timer st fn h tm :
  table_ok st -> handles_ok st ->
  live_timers st !! h = Some tm ->
  Timers.tm_filename tm <> fn ->
  (h < Timers.next (timers (sys st)))%nat /\
  forall i found, find fn (timeouts (this st)) = Some (i, found) -> timeout found <> h.
Proof.
  intros [_ Htab] [Hnd Hlt] Hl Hne. apply Htab in Hl. split.
  - by apply Hlt in Hl.
  - intros i found Hfind Heq. apply find_Some in Hfind as [Hi Hf].
    apply list_elem_of_lookup in Hl as [j Hj].
    assert (j = i) as ->.
    { eapply NoDup_alt; [exact Hnd| |]; rewrite list_lookup_fmap.
      - by rewrite Hj.
      - rewrite Hi. simpl. by rewrite Heq. }
    rewrite Hi in Hj. injection Hj as ->. simpl in Hf. congruence.
Qed.

(** ** Serving, deleting, expiring *)

Lemma filter_none fn (l : list entry) :
  find fn l = None -> filter (fun e => filename e ≠ fn) l = l.
Proof.
  intros H. induction l as [|e l IH]; [done|].
  assert (filename e <> fn) as He.
  { eapply find_None; [exact H|]. by left. }
  rewrite filter_cons_True by done. f_equal. apply IH.
  unfold find in *. apply list_find_None. apply list_find_None in H.
  by inversion H.
Qed.

Lemma find_snoc fn (l : list entry) h :
  find fn l = None ->
  find fn (l ++ [mkEntry fn h]) = Some (length l, mkEntry fn h).
Proof.
  intros H. unfold find in *. rewrite list_find_app_r by done. simpl.
  by rewrite decide_True by done.
Qed.

Lemma writeFileSync_plain d p data d' :
  plain d p ->
  Fs.writeFileSync d p data = Ret d' ->
  d' = Fs.mkDisk (Fs.dirs d) (<[p := Fs.File data]> (Fs.nodes d)) (Fs.readonly d) /\
  p.1 ∈ Fs.dirs d /\ p.1 ∉ Fs.readonly d.
Proof.
  unfold plain, Fs.writeFileSync, Fs.max_links. simpl.
  destruct (Fs.nodes d !! p) as [[data'| |t]|]; try done; intros _ H;
    repeat (case_bool_decide; simpl in H; try done); by injection H as <-.
Qed.

(** X1. [getInstance] builds the server on its first call and answers
    that server ever after, whatever folder it is given then, without
    touching the process. *)
Theorem getInstance_keeps_first folder1 s inst1 s1 fs :
  getInstance (Some folder1) (None, s) = ((inst1, s1), Ret fs) ->
  inst1 = Some fs /\
  (exists root, USER_DATA s = Some root /\ folder fs = Fs.resolve_cache root folder1) /\
  forall folder2, getInstance folder2 (inst1, s1) = ((inst1, s1), Ret fs).
Proof.
  unfold getInstance at 1. destruct (negb (truthy_opt_string (Some folder1))); [done|].
  simpl. destruct (new folder1 s) as [s' [fs'|e]] eqn:Hnew; [|done].
  intros [= <- <- <-]. split; [done|]. split; [|done].
  apply new_inv in Hnew as (root & Hu & Hf & _). eauto.
Qed.

(** X2. Serving a name that has no entry, when the write succeeds: the
    bytes can be read back from the file of that name, the table gains one
    entry and the queue one timer, of the lifetime given or of 600
    seconds. *)
Theorem serv_new_file data fn lifetime st d :
  find fn (timeouts (this st)) = None ->
  Fs.writeFileSync (disk (sys st)) (resolveFile (this st) fn) data = Ret d ->
  exists st',
    serv data fn lifetime st = (st', Ret ("/files/" ++ fn)) /\
    Fs.readFileSync (disk (sys st')) (resolveFile (this st') fn) = Ret data /\
    timeouts (this st') =
      (timeouts (this st) ++ [mkEntry fn (Timers.next (timers (sys st)))])%list /\
    live_timers st' =
      <[Timers.next (timers (sys st)) := Timers.mkTimer fn (default 600 lifetime * 1000)]>
        (live_timers st).
Proof.
  intros Hfind Hw. rewrite (serv_miss _ _ _ _ Hfind).
  pose proof (initFile_spec fn data (default default_lifetime lifetime) st) as Hi.
  simpl in Hi. rewrite Hw in Hi. rewrite Hi. simpl.
  eexists. split; [reflexivity|]. simpl. split; [|done].
  by eapply writeFileSync_readFileSync.
Qed.

(** X3. Serving a name that has no entry, when the write fails: the path
    is answered all the same, and neither the table, the queue nor the
    disk has changed. *)
Theorem serv_write_fails data fn lifetime st e :
  find fn (timeouts (this st)) = None ->
  Fs.writeFileSync (disk (sys st)) (resolveFile (this st) fn) data = Throw e ->
  exists st',
    serv data fn lifetime st = (st', Ret ("/files/" ++ fn)) /\
    this st' = this st /\
    disk (sys st') = disk (sys st) /\
    timers (sys st') = timers (sys st).
Proof.
  intros Hfind Hw. rewrite (serv_miss _ _ _ _ Hfind).
  pose proof (initFile_spec fn data (default default_lifetime lifetime) st) as Hi.
  simpl in Hi. rewrite Hw in Hi. rewrite Hi. simpl.
  eexists. split; [reflexivity|]. done.
Qed.

(** X4. [delete] answers whether the entry of the name could be unlinked:
    [true] with the entry gone from the folder, [false] with the disk as
    it was; either way no entry for the name is left in the table and no
    other path of the disk has changed. *)
Theorem delete_answers_unlink fn st :
  let p := resolveFile (this st) fn in
  exists st',
    delete fn st = (st', Ret (removable (disk (sys st)) p)) /\
    find fn (timeouts (this st')) = None /\
    (removable (disk (sys st)) p = true -> Fs.nodes (disk (sys st')) !! p = None) /\
    (removable (disk (sys st)) p = false -> disk (sys st') = disk (sys st)) /\
    (forall q, q <> p -> Fs.nodes (disk (sys st')) !! q = Fs.nodes (disk (sys st)) !! q).
Proof.
  intros p. destruct (delete_spec fn st) as (st' & b & Hd & _ & Ht & _ & _ & Hun).
  fold p in Hun. exists st'.
  assert (find fn (timeouts (this st')) = None) as Hnone.
  { destruct (find fn (timeouts (this st'))) as [[i e]|] eqn:E; [|done].
    apply find_Some in E as [Hi Hf]. rewrite Ht in Hi.
    assert (e ∈ filter (fun e => filename e ≠ fn) (timeouts (this st))) as Hin.
    { apply list_elem_of_lookup. eauto. }
    by apply list_elem_of_filter in Hin as [? _]. }
  unfold removable. unfold Fs.unlinkSync in Hun.
  destruct (Fs.nodes (disk (sys st)) !! p) as [[data| |t]|] eqn:En;
    try (destruct (bool_decide (p.1 ∈ Fs.readonly (disk (sys st)))); simpl in * );
    destruct Hun as [-> Hdisk]; rewrite Hd, Hdisk; simpl;
    repeat split; try done; intros;
    rewrite ?lookup_delete_eq, ?lookup_delete_ne; done.
Qed.

(** X5. A file served under a new name lives as long as its timer: when
    the timer fires the file is unlinked, the table is what it was before
    the name was served and the timer has left the queue. *)
Theorem served_file_expires data fn lifetime st d :
  find fn (timeouts (this st)) = None ->
  plain (disk (sys st)) (resolveFile (this st) fn) ->
  Fs.writeFileSync (disk (sys st)) (resolveFile (this st) fn) data = Ret d ->
  let st1 := (serv data fn lifetime st).1 in
  let h := Timers.next (timers (sys st)) in
  let st2 := (fire h st1).1 in
  live_timers st1 !! h = Some (Timers.mkTimer fn (default 600 lifetime * 1000)) /\
  Fs.nodes (disk (sys st2)) !! resolveFile (this st) fn = None /\
  timeouts (this st2) = timeouts (this st) /\
  live_timers st2 = base.delete h (live_timers st).
Proof.
  intros Hfind Hplain Hw st1 h st2.
  destruct (writeFileSync_plain _ _ _ _ Hplain Hw) as (Hd & Hdir & Hro).
  assert (st1 =
            mkState
              (mkFileServer (folder (this st)) (timeouts (this st) ++ [mkEntry fn h]))
              (mkSys (USER_DATA (sys st)) d
                 (Timers.mkQueue
                    (<[h := delete_after fn (default default_lifetime lifetime)]>
                       (live_timers st)) (S h))
                 (syscalls (sys st) ++ [SysWrite (resolveFile (this st) fn)])))
    as Hst1.
  { unfold st1. rewrite (serv_miss _ _ _ _ Hfind).
    pose proof (initFile_spec fn data (default default_lifetime lifetime) st) as Hi.
    simpl in Hi. rewrite Hw in Hi. by rewrite Hi. }
  assert (live_timers st1 !! h = Some (delete_after fn (default default_lifetime lifetime)))
    as Hlive.
  { rewrite Hst1. unfold live_timers. simpl. apply lookup_insert_eq. }
  split; [exact Hlive|].
  unfold st2. rewrite fire_spec, Hlive. simpl.
  set (st1' := on_sys _ st1).
  destruct (delete_spec fn st1') as (st3 & b & Hdel & _ & Ht & Hl & _ & Hun).
  rewrite Hdel. simpl.
  assert (timeouts (this st1') = (timeouts (this st) ++ [mkEntry fn h])%list) as Htab.
  { unfold st1'. by rewrite Hst1. }
  assert (disk (sys st1') = d) as Hdisk.
  { unfold st1'. by rewrite Hst1. }
  assert (resolveFile (this st1') fn = resolveFile (this st) fn) as Hp.
  { unfold st1'. by rewrite Hst1. }
  rewrite Htab in Ht, Hl. rewrite (find_snoc _ _ _ Hfind) in Hl. simpl in Hl.
  rewrite Hdisk, Hp in Hun. split; [|split].
  - unfold Fs.unlinkSync in Hun. rewrite Hd in Hun. simpl in Hun.
    rewrite lookup_insert_eq in Hun.
    rewrite bool_decide_eq_false_2 in Hun by done.
    destruct Hun as [_ ->]. simpl. by rewrite lookup_delete_eq.
  - rewrite Ht, filter_app, (filter_none _ _ Hfind). simpl.
    rewrite filter_cons_False; [by rewrite filter_nil, app_nil_r|]. simpl. tauto.
  - rewrite Hl. unfold st1'. rewrite Hst1. unfold live_timers. simpl.
    apply map_eq. intros k. rewrite !lookup_delete.
    case_decide; [done|]. by rewrite lookup_insert_ne.
Qed.

(** ** Operations on one name leave the others alone *)

Lemma same_for_refl g st : same_for g st st.
Proof. by split. Qed.

Lemma same_for_trans g st1 st2 st3 :
  same_for g st1 st2 -> same_for g st2 st3 -> same_for g st1 st3.
Proof.
  intros [H1 H1'] [H2 H2']. split.
  - intros e He. by rewrite H2, H1.
  - intros h tm Htm. by rewrite H2', H1'.
Qed.

Lemma same_for_reset st i found fn lifetime g :
  table_ok st -> handles_ok st ->
  find fn (timeouts (this st)) = Some (i, found) ->
  fn <> g ->
  same_for g st (reset_state st i found fn lifetime).
Proof.
  intros Hok Hh Hfind Hne. pose proof (find_Some _ _ _ _ Hfind) as [Hi Hf]. split.
  - intros e He. unfold reset_state. simpl.
    rewrite !list_elem_of_lookup. split; intros [j Hj]; exists j.
    + rewrite list_lookup_insert in Hj. case_decide as Hij; [|done].
      injection Hj as <-. simpl in He. congruence.
    + rewrite list_lookup_insert. case_decide as Hij; [|done].
      destruct Hij as [-> _]. rewrite Hi in Hj. injection Hj as ->. congruence.
  - intros h tm Htm. unfold live_timers, reset_state. simpl. split.
    + rewrite lookup_insert. case_decide.
      * intros [= <-]. simpl in Htm. congruence.
      * rewrite lookup_delete. by case_decide.
    + intros Hl.
      destruct (other_timer st fn h tm Hok Hh Hl) as [Hlt Hother]; [congruence|].
      rewrite lookup_insert_ne by lia.
      rewrite lookup_delete_ne; [done|]. by eapply Hother.
Qed.

Lemma same_for_init st fn data lifetime g :
  table_ok st -> handles_ok st ->
  fn <> g ->
  same_for g st (initFile fn data lifetime st).1.
Proof.
  intros Hok Hh Hne.
  pose proof (initFile_spec fn data lifetime st) as Hi. simpl in Hi.
  destruct (Fs.writeFileSync _ _ _); rewrite Hi; simpl; [|by split].
  split.
  - intros e He. simpl. rewrite elem_of_app, list_elem_of_singleton.
    split; [|tauto]. intros [?| ->]; [done|]. simpl in He. congruence.
  - intros h tm Htm. unfold live_timers. simpl. split.
    + rewrite lookup_insert. case_decide; [|done].
      intros [= <-]. simpl in Htm. congruence.
    + intros Hl.
      destruct (other_timer st fn h tm Hok Hh Hl) as [Hlt _]; [congruence|].
      by rewrite lookup_insert_ne by lia.
Qed.

Lemma same_for_delete st fn g :
  table_ok st -> handles_ok st ->
  fn <> g ->
  same_for g st (delete fn st).1.
Proof.
  intros Hok Hh Hne.
  destruct (delete_spec fn st) as (st' & b & -> & _ & Ht & Hl & _). simpl. split.
  - intros e He. rewrite Ht, list_elem_of_filter. split; [tauto|].
    intros Hin. split; [|done]. congruence.
  - intros h tm Htm. rewrite Hl.
    destruct (find fn (timeouts (this st))) as [[i found]|] eqn:E; [|done].
    rewrite lookup_delete. case_decide as Hd; [|done]. split; [done|].
    intros Hlive. exfalso.
    destruct (other_timer st fn h tm Hok Hh Hlive) as [_ Hother]; [congruence|].
    by eapply Hother.
Qed.

Lemma same_for_clear st h g :
  (forall tm, live_timers st !! h = Some tm -> Timers.tm_filename tm <> g) ->
  same_for g st (on_sys (fun s => set_timers (Timers.clearTimeout (timers s) h) s) st).
Proof.
  intros Hh. split; [done|].
  intros h' tm Htm. unfold live_timers. simpl. rewrite lookup_delete.
  case_decide as Hd; [|done]. subst h'. split; [done|].
  intros Hl. by apply Hh in Hl.
Qed.

(** X6. In a reachable state, serving or deleting a name, or the timer of
    a name firing, changes neither the entry nor the timer of any other
    name. *)
Theorem operations_are_local st o g :
  reachable st ->
  op_name st o <> Some g ->
  same_for g st (run_op o st).
Proof.
  intros Hreach Hname.
  pose proof (reachable_table_ok _ Hreach) as Hok.
  pose proof (reachable_handles_ok _ Hreach) as Hh.
  destruct o as [data fn lifetime|fn|h]; simpl in *.
  - assert (fn <> g) as Hne by congruence.
    destruct (find fn (timeouts (this st))) as [[i found]|] eqn:E.
    + rewrite (serv_hit _ _ _ _ _ _ E). simpl. by apply same_for_reset.
    + rewrite (serv_miss _ _ _ _ E). simpl. by apply same_for_init.
  - apply same_for_delete; [done|done|congruence].
  - rewrite fire_spec. destruct (live_timers st !! h) as [tm|] eqn:El;
      [|apply same_for_refl].
    simpl in Hname. eapply same_for_trans.
    + apply (same_for_clear st h g). intros tm' Htm'. congruence.
    + apply same_for_delete.
      * by apply table_ok_clear.
      * by apply handles_ok_clear.
      * congruence.
Qed.

(** ** The purge, by its result *)

Lemma attempt_unlink_effect p st :
  let st' := attempt_unlink p st in
  Fs.readonly (disk (sys st')) = Fs.readonly (disk (sys st)) /\
  Fs.dirs (disk (sys st')) = Fs.dirs (disk (sys st)) /\
  (forall q, Fs.nodes (disk (sys st')) !! q = None \/
             Fs.nodes (disk (sys st')) !! q = Fs.nodes (disk (sys st)) !! q) /\
  (forall q, Fs.nodes (disk (sys st)) !! q = Some Fs.Directory ->
             Fs.nodes (disk (sys st')) !! q = Some Fs.Directory) /\
  (p.1 ∉ Fs.readonly (disk (sys st)) ->
   forall n, Fs.nodes (disk (sys st)) !! p = Some n -> n <> Fs.Directory ->
             Fs.nodes (disk (sys st')) !! p = None).
Proof.
  unfold attempt_unlink. simpl. unfold Fs.unlinkSync.
  destruct (Fs.nodes (disk (sys st)) !! p) as [[data| |t]|] eqn:E;
    try (destruct (bool_decide (p.1 ∈ Fs.readonly (disk (sys st)))) eqn:Er); simpl;
    repeat split; try done; try (by right);
    try (intros q; destruct (decide (p = q)) as [->|];
         [left; apply lookup_delete_eq|right; by apply lookup_delete_ne]);
    try (intros q Hq; rewrite lookup_delete_ne; [done|congruence]);
    try (intros Hro; by apply bool_decide_eq_true in Er);
    try (intros; by rewrite lookup_delete_eq);
    try (intros _ n; congruence).
Qed.

Lemma purge_loop dir files st :
  let st' := (for_of files (empty_one dir) st).1 in
  Fs.readonly (disk (sys st')) = Fs.readonly (disk (sys st)) /\
  Fs.dirs (disk (sys st')) = Fs.dirs (disk (sys st)) /\
  (forall q, Fs.nodes (disk (sys st')) !! q = None \/
             Fs.nodes (disk (sys st')) !! q = Fs.nodes (disk (sys st)) !! q) /\
  (forall q, Fs.nodes (disk (sys st)) !! q = Some Fs.Directory ->
             Fs.nodes (disk (sys st')) !! q = Some Fs.Directory) /\
  (dir ∉ Fs.readonly (disk (sys st)) ->
   forall file data,
     file ∈ files ->
     Fs.nodes (disk (sys st)) !! (dir, file) = Some (Fs.File data) ->
     Fs.nodes (disk (sys st')) !! (dir, file) = None).
Proof.
  revert st. induction files as [|x files IH]; intros st; simpl.
  { repeat split; try done; [by right|]. intros _ file data Hin.
    by apply elem_of_nil in Hin. }
  unfold Eff.bind. rewrite empty_one_spec.
  set (st1 := if Fs.existsSync _ _ then _ else st).
  destruct (IH st1) as (Hro & Hdirs & Hmono & Hdir & Hgone).
  assert (Fs.readonly (disk (sys st1)) = Fs.readonly (disk (sys st)) /\
          Fs.dirs (disk (sys st1)) = Fs.dirs (disk (sys st)) /\
          (forall q, Fs.nodes (disk (sys st1)) !! q = None \/
                     Fs.nodes (disk (sys st1)) !! q = Fs.nodes (disk (sys st)) !! q) /\
          (forall q, Fs.nodes (disk (sys st)) !! q = Some Fs.Directory ->
                     Fs.nodes (disk (sys st1)) !! q = Some Fs.Directory))
    as (Hro1 & Hdirs1 & Hmono1 & Hdir1).
  { unfold st1. destruct (Fs.existsSync _ _).
    - pose proof (attempt_unlink_effect (dir, x) st) as H. simpl in H. tauto.
    - repeat split; try done. by right. }
  destruct (for_of files (empty_one dir) st1) as [st' o] eqn:Hloop. simpl in *.
  repeat split; try congruence.
  - intros q. destruct (Hmono q) as [?|Hq]; [by left|].
    rewrite Hq. apply Hmono1.
  - intros q Hq. by apply Hdir, Hdir1.
  - intros Hw file data Hin Hnode.
    assert (Fs.nodes (disk (sys st1)) !! (dir, file) = None \/
            Fs.nodes (disk (sys st1)) !! (dir, file) = Some (Fs.File data)) as [Hn|Hn].
    { destruct (Hmono1 (dir, file)) as [?|Hq]; [by left|]. right.
      etrans; [exact Hq|exact Hnode]. }
    + destruct (Hmono (dir, file)) as [?|Hq]; [done|].
      etrans; [exact Hq|exact Hn].
    + destruct (decide (file = x)) as [->|Hne].
      * exfalso. unfold st1 in Hn. unfold Fs.existsSync in Hn.
        rewrite (target_plain _ _ _ Hnode eq_refl) in Hn.
        pose proof (attempt_unlink_effect (dir, x) st) as (_ & _ & _ & _ & Hrm).
        specialize (Hrm Hw _ Hnode ltac:(done)).
        assert (@None Fs.node = Some (Fs.File data)) as Hbad
          by (etrans; [symmetry; exact Hrm|exact Hn]).
        discriminate Hbad.
      * apply (Hgone ltac:(by rewrite Hro1) file data); [|done].
        apply elem_of_cons in Hin as [?|Hin]; done.
Qed.

(** X7. Construction over a folder that is not read-only: the folder
    exists afterwards, none of the regular files it held is left, its
    sub-directories are still there, no entry has appeared anywhere, and
    nothing outside the folder has changed. *)
Theorem purge_empties_folder folder_name s s' fs :
  new folder_name s = (s', Ret fs) ->
  folder fs ∉ Fs.readonly (disk s) ->
  folder fs ∈ Fs.dirs (disk s') /\
  (forall file data,
      Fs.nodes (disk s) !! (folder fs, file) = Some (Fs.File data) ->
      Fs.nodes (disk s') !! (folder fs, file) = None) /\
  (forall file,
      Fs.nodes (disk s) !! (folder fs, file) = Some Fs.Directory ->
      Fs.nodes (disk s') !! (folder fs, file) = Some Fs.Directory) /\
  (forall q, Fs.nodes (disk s') !! q = None \/
             Fs.nodes (disk s') !! q = Fs.nodes (disk s) !! q) /\
  (forall q, q.1 <> folder fs -> Fs.nodes (disk s') !! q = Fs.nodes (disk s) !! q).
Proof.
  intros Hnew Hw.
  pose proof (new_inv _ _ _ _ Hnew) as (root & Hu & Hf & _).
  assert (truthy_string root = true) as Ht.
  { unfold new in Hnew. rewrite Hu in Hnew. by destruct (truthy_string root). }
  pose proof (new_spec folder_name s root Hu Ht) as Hs. simpl in Hs.
  rewrite <- Hf in Hs.
  destruct (Fs.mkdirSync (disk s) (folder fs)) as [d1|e] eqn:Em; [|congruence].
  destruct Hs as (st' & Hfor & Hn). rewrite Hn in Hnew. injection Hnew as <- Hfs.
  pose proof (mkdirSync_spec _ _ _ Em) as [Hex Hnodes].
  assert (Fs.readonly d1 = Fs.readonly (disk s)) as Hro1.
  { unfold Fs.mkdirSync in Em. repeat case_bool_decide; by simplify_eq. }
  set (st0 := mkState (mkFileServer (folder fs) []) (set_disk d1 s)) in *.
  pose proof (purge_loop (folder fs) (listing d1 (folder fs)) st0)
    as (Hro & Hdirs & Hmono & Hdir & Hgone).
  destruct (for_of_empty (folder fs) (listing d1 (folder fs)) st0)
    as (st2 & Hfor2 & _ & _ & _ & _ & Hframe & _).
  rewrite Hfor in Hfor2. injection Hfor2 as <-.
  rewrite Hfor in Hro, Hdirs, Hmono, Hdir, Hgone. simpl in *.
  rewrite Hnodes in *. split; [|split; [|split; [|split]]].
  - rewrite Hdirs. by apply bool_decide_eq_true in Hex.
  - intros file data Hnode. apply (Hgone ltac:(by rewrite Hro1) file data); [|done].
    eapply listing_elem. by rewrite Hnodes.
  - intros file. apply Hdir.
  - exact Hmono.
  - intros q Hq. apply Hframe. by left.
Qed.

(** ** The statements at work on the examples *)

Lemma getInstance_keeps_first_witness :
  exists inst s1 fs,
    getInstance (Some "files") (None, stale_process) = ((inst, s1), Ret fs) /\
    folder fs = "/data/.cache/files" /\
    getInstance (Some "covers") (inst, s1) = ((inst, s1), Ret fs).
Proof.
  destruct (getInstance (Some "files") (None, stale_process))
    as [[inst s1] [fs|e]] eqn:E.
  2:{ vm_compute in E. discriminate E. }
  destruct (getInstance_keeps_first "files" stale_process inst s1 fs E)
    as (_ & (root & Hr & Hf) & Hlater).
  exists inst, s1, fs. split; [reflexivity|]. split; [|apply Hlater].
  rewrite Hf. injection Hr as <-. reflexivity.
Defined.

Lemma serv_new_file_witness :
  exists st',
    serv [] "p.png" None idle_server = (st', Ret "/files/p.png") /\
    live_timers st' !! O = Some (Timers.mkTimer "p.png" 600000).
Proof.
  destruct (serv_new_file [] "p.png" None idle_server _ eq_refl eq_refl)
    as (st' & Hs & _ & _ & Hl).
  exists st'. split; [exact Hs|]. rewrite Hl. apply lookup_insert_eq.
Defined.

Lemma serv_write_fails_witness :
  exists st',
    serv [] "p.png" None orphan_server = (st', Ret "/files/p.png") /\
    this st' = this orphan_server /\
    disk (sys st') = disk (sys orphan_server).
Proof.
  destruct (serv_write_fails [] "p.png" None orphan_server _ eq_refl eq_refl)
    as (st' & Hs & Ht & Hd & _).
  exists st'. split; [exact Hs|]. split; [exact Ht|exact Hd].
Defined.

Lemma delete_answers_unlink_witness :
  exists st',
    delete "p.png" idle_server = (st', Ret false) /\
    disk (sys st') = disk (sys idle_server).
Proof.
  destruct (delete_answers_unlink "p.png" idle_server) as (st' & Hd & _ & _ & Hsame & _).
  exists st'. split; [exact Hd|]. apply Hsame. reflexivity.
Defined.

Lemma served_file_expires_witness :
  let st1 := (serv [] "p.png" (Some 1) idle_server).1 in
  let st2 := (fire O st1).1 in
  live_timers st1 !! O = Some (Timers.mkTimer "p.png" 1000) /\
  Fs.nodes (disk (sys st2)) !! ("/data/.cache/files", "p.png") = None /\
  timeouts (this st2) = [].
Proof.
  destruct (served_file_expires [] "p.png" (Some 1) idle_server _ eq_refl I eq_refl)
    as (Hl & Hgone & Ht & _).
  split; [exact Hl|]. split; [exact Hgone|exact Ht].
Defined.

(** A server built on the stale folder that serves ["q.png"], when
    ["p.png"] is served as well. *)
Lemma operations_are_local_witness :
  exists st,
    reachable st /\
    mkEntry "q.png" O ∈ timeouts (this st) /\
    live_timers st !! O = Some (Timers.mkTimer "q.png" 600000) /\
    let st' := run_op (OpServ [] "p.png" None) st in
    same_for "q.png" st st' /\
    mkEntry "p.png" 1 ∈ timeouts (this st') /\
    mkEntry "q.png" O ∈ timeouts (this st') /\
    live_timers st' !! O = Some (Timers.mkTimer "q.png" 600000).
Proof.
  destruct (new "files" stale_process) as [s' [fs|e]] eqn:E.
  2:{ vm_compute in E. discriminate E. }
  set (st := run_op (OpServ [] "q.png" None) (mkState fs s')).
  assert (reachable st) as Hreach.
  { apply reach_op, (reach_new stale_process "files" s' fs eq_refl E). }
  assert (timeouts (this st) = [mkEntry "q.png" O]) as Htable.
  { unfold st. vm_compute in E. injection E as <- <-. reflexivity. }
  assert (live_timers st !! O = Some (Timers.mkTimer "q.png" 600000)) as Hlive.
  { unfold st. vm_compute in E. injection E as <- <-. reflexivity. }
  assert (mkEntry "q.png" O ∈ timeouts (this st)) as Hentry.
  { rewrite Htable. by apply list_elem_of_singleton. }
  assert (op_name st (OpServ [] "p.png" None) <> Some "q.png") as Hother.
  { simpl. intros H. discriminate H. }
  destruct (operations_are_local st (OpServ [] "p.png" None) "q.png" Hreach Hother)
    as [Hentries Htimers].
  exists st. split; [exact Hreach|]. split; [exact Hentry|]. split; [exact Hlive|].
  split; [by split|]. split; [|split].
  - assert (timeouts (this (run_op (OpServ [] "p.png" None) st)) =
              [mkEntry "q.png" O; mkEntry "p.png" 1]) as ->.
    { unfold st. vm_compute in E. injection E as <- <-. reflexivity. }
    apply elem_of_cons. right. by apply list_elem_of_singleton.
  - by apply (Hentries (mkEntry "q.png" O) eq_refl).
  - by apply (Htimers O (Timers.mkTimer "q.png" 600000) eq_refl).
Defined.

Lemma purge_empties_folder_witness :
  exists s' fs,
    new "files" stale_process = (s', Ret fs) /\
    Fs.nodes (disk s') !! (folder fs, "a.png") = None.
Proof.
  destruct (new "files" stale_process) as [s' [fs|e]] eqn:E.
  2:{ vm_compute in E. discriminate E. }
  assert (folder fs = "/data/.cache/files") as Hf.
  { vm_compute in E. by injection E as <- <-. }
  assert (folder fs ∉ Fs.readonly (disk stale_process)) as Hrw.
  { apply not_elem_of_empty. }
  destruct (purge_empties_folder "files" stale_process s' fs E Hrw)
    as (_ & Hfiles & _).
  exists s', fs. split; [reflexivity|].
  apply (Hfiles "a.png" []). rewrite Hf. reflexivity.
Defined.

End FileServerMore.


(** * More of the fetch engine: proofs *)

Module MirrorMore.
Import Mirror MirrorSpec MirrorFacts MirrorMoreSpec.

Section More.
Context (E : Env).

(** ** What [fetch] and [post] touch *)

Lemma returnFetch_plain data w :
  returnFetch data None w = (on_this (decrement true) w, Ret data).
Proof. unfold returnFetch, Eff.bind, Eff.modify, Eff.ret. by destruct data. Qed.

Lemma fetch_finish_world res type w :
  let w' := (fetch_finish E res type w).1 in
  sys w' = sys w /\ FileServer_instance w' = FileServer_instance w /\ trace w' = trace w.
Proof.
  unfold fetch_finish, release.
  unfold Eff.try_catch, Eff.bind, Eff.modify, Eff.throw.
  destruct res as [|[|b|n|s|l|l]|b|e'|markup]; simpl;
    try (destruct type; simpl);
    try (destruct (JSON_parse E _); simpl);
    rewrite ?returnFetch_plain; done.
Qed.

Lemma entered_world w :
  sys (entered w) = sys w /\
  FileServer_instance (entered w) = FileServer_instance w /\
  trace (entered w) = (trace w ++ [EvSleep (delay_of_call w)])%list /\
  this (entered w) = set_concurrency (concurrency (this w) + 1) (this w).
Proof. done. Qed.

(** X8. [fetch] waits once, calls the direct transport once and first,
    then the rendering transport once or not at all, each with the job as
    [fetch] prepared it; it writes nothing itself, sets no timer and
    leaves the file server alone. *)
Theorem fetch_tries_each_transport_once config type w :
  let job := prepare (this w) config type in
  let direct := EvAxiosGet (set_timeout 5000 job) in
  let rendering := EvCrawl (set_timeout 10000 job) false (Some type) in
  let w' := (fetch E config type w).1 in
  (trace w' = (trace w ++ [EvSleep (delay_of_call w); direct])%list \/
   trace w' = (trace w ++ [EvSleep (delay_of_call w); direct; rendering])%list) /\
  sys w' = sys w /\
  FileServer_instance w' = FileServer_instance w.
Proof.
  intros job direct rendering w'. unfold w'.
  rewrite fetch_unfold, internalFetch_cases.
  rewrite (prepare_host _ (this w)) by apply entered_host.
  fold job. fold direct.
  assert (forall w1 o,
            sys w1 = sys w -> FileServer_instance w1 = FileServer_instance w ->
            (trace w1 = (trace w ++ [EvSleep (delay_of_call w); direct])%list \/
             trace w1 = (trace w ++ [EvSleep (delay_of_call w); direct; rendering])%list) ->
            let w2 := (match o with
                       | Ret res => fetch_finish E res type w1
                       | Throw e => (w1, Throw e)
                       end).1 in
            (trace w2 = (trace w ++ [EvSleep (delay_of_call w); direct])%list \/
             trace w2 = (trace w ++ [EvSleep (delay_of_call w); direct; rendering])%list) /\
            sys w2 = sys w /\ FileServer_instance w2 = FileServer_instance w) as Hfin.
  { intros w1 [res|e] Hs Hf Ht; simpl; [|done].
    destruct (fetch_finish_world res type w1) as (Hs' & Hf' & Ht').
    rewrite Hs', Hf', Ht'. done. }
  assert (trace (emit direct (entered w)) =
            (trace w ++ [EvSleep (delay_of_call w); direct])%list) as Hd.
  { simpl. by rewrite <- app_assoc. }
  assert (trace (emit rendering (emit direct (entered w))) =
            (trace w ++ [EvSleep (delay_of_call w); direct; rendering])%list) as Hr.
  { simpl. by rewrite <- !app_assoc. }
  unfold rendered. fold direct rendering.
  destruct (axios_get E (set_timeout 5000 job)) as [j|e].
  - destruct (String.eqb (typeof (VData j)) "string");
      destruct (truthy_opt_string (waitForSelector config));
      try destruct (selector_matches E _ _);
      first [ apply (Hfin _ (Ret _)); by auto
            | apply (Hfin _ (Throw _)); by auto
            | apply (Hfin _ (crawler E _ _ _)); by auto ].
  - destruct (is_no_selector e);
      first [ apply (Hfin _ (Throw _)); by auto
            | apply (Hfin _ (crawler E _ _ _)); by auto ].
Qed.

(** ** The errors of [fetch] *)

Lemma fetch_finish_errors res type w w' e :
  fetch_finish E res type w = (w', Throw e) ->
  res = VError e \/
  e = Error "no_response" \/
  e = Error "invalid_json" \/
  e = Error "cant_parse_json_to_html" \/
  e = Error ("unknown_type: " ++ type_name type) \/
  e = Error "unknown_fetch_error".
Proof.
  unfold fetch_finish, release.
  unfold Eff.try_catch, Eff.bind, Eff.modify, Eff.throw.
  destruct res as [|[|b|n|s|l|l]|b|e'|markup]; simpl;
    try (destruct type; simpl);
    try (destruct (JSON_parse E _); simpl);
    rewrite ?returnFetch_plain; intros H; simplify_eq; tauto.
Qed.

(** X9. What [fetch] may throw: an exception of the direct transport
    that says [no_selector_in_], the [no_selector_in_<type>] of its own
    check, whatever the rendering transport threw or returned as an
    [Error], or one of its five messages. *)
Theorem fetch_throws_only config type w w' e :
  fetch E config type w = (w', Throw e) ->
  let job := prepare (this w) config type in
  (axios_get E (set_timeout 5000 job) = Throw e /\ is_no_selector e = true) \/
  (exists j, axios_get E (set_timeout 5000 job) = Ret j /\
             e = Error ("no_selector_in_" ++ typeof (VData j))) \/
  crawler E (set_timeout 10000 job) false (Some type) = Throw e \/
  crawler E (set_timeout 10000 job) false (Some type) = Ret (VError e) \/
  e = Error "no_response" \/
  e = Error "invalid_json" \/
  e = Error "cant_parse_json_to_html" \/
  e = Error ("unknown_type: " ++ type_name type) \/
  e = Error "unknown_fetch_error".
Proof.
  intros Hf job. rewrite fetch_unfold, internalFetch_cases in Hf.
  rewrite (prepare_host _ (this w)) in Hf by apply entered_host.
  fold job in Hf.
  assert (forall w1,
            match rendered E w1 job type with
            | (w2, Ret res) => fetch_finish E res type w2
            | (w2, Throw e0) => (w2, Throw e0)
            end = (w', Throw e) ->
            crawler E (set_timeout 10000 job) false (Some type) = Throw e \/
            crawler E (set_timeout 10000 job) false (Some type) = Ret (VError e) \/
            e = Error "no_response" \/ e = Error "invalid_json" \/
            e = Error "cant_parse_json_to_html" \/
            e = Error ("unknown_type: " ++ type_name type) \/
            e = Error "unknown_fetch_error") as Hrender.
  { intros w1. unfold rendered.
    destruct (crawler E (set_timeout 10000 job) false (Some type)) as [res|e0].
    - intros H. apply fetch_finish_errors in H as [->|H]; tauto.
    - intros [= _ ->]. tauto. }
  assert (forall w1 j,
            fetch_finish E (VData j) type w1 = (w', Throw e) ->
            e = Error "no_response" \/ e = Error "invalid_json" \/
            e = Error "cant_parse_json_to_html" \/
            e = Error ("unknown_type: " ++ type_name type) \/
            e = Error "unknown_fetch_error") as Hdata.
  { intros w1 j H. apply fetch_finish_errors in H as [H|H]; [done|tauto]. }
  destruct (axios_get E (set_timeout 5000 job)) as [j|e0] eqn:Hget.
  - destruct (String.eqb (typeof (VData j)) "string");
      destruct (truthy_opt_string (waitForSelector config));
      try destruct (selector_matches E _ _);
      try (apply Hdata in Hf; tauto);
      try (apply Hrender in Hf; tauto).
    injection Hf as _ <-. right. left. eauto.
  - destruct (is_no_selector e0) eqn:Hsel.
    + injection Hf as _ ->. tauto.
    + apply Hrender in Hf. tauto.
Qed.

(** X10. When no selector is required, what the direct transport
    answers is final: the rendering transport is not tried, even when
    [fetch] cannot use the answer.  A number or a boolean fails with
    [unknown_fetch_error] whatever the type asked for, and structured data
    asked for as ['html'] fails with [cant_parse_json_to_html]; both give
    the counter back. *)
Theorem direct_answer_is_final config type w j :
  let job := prepare (this w) config type in
  axios_get E (set_timeout 5000 job) = Ret j ->
  truthy_opt_string (waitForSelector config) = false ->
  let r := fetch E config type w in
  trace r.1 = (trace w ++ [EvSleep (delay_of_call w); EvAxiosGet (set_timeout 5000 job)])%list /\
  ((typeof (VData j) = "number" \/ typeof (VData j) = "boolean") ->
   r.2 = Throw (Error "unknown_fetch_error") /\
   this r.1 = decrement false (this (entered w))) /\
  (typeof (VData j) = "object" -> type = THtml ->
   r.2 = Throw (Error "cant_parse_json_to_html") /\
   this r.1 = decrement false (this (entered w))).
Proof.
  intros job Hget Hsel r. unfold r.
  rewrite fetch_unfold, internalFetch_cases.
  rewrite (prepare_host _ (this w)) by apply entered_host.
  fold job. rewrite Hget, Hsel.
  assert (forall w1, trace (fetch_finish E (VData j) type w1).1 = trace w1) as Htr.
  { intros w1. apply fetch_finish_world. }
  split; [|split].
  - destruct (String.eqb _ _); rewrite Htr; simpl; by rewrite <- app_assoc.
  - intros Hty. destruct j; simpl in Hty; destruct Hty as [Hty|Hty]; try discriminate Hty;
      by destruct type.
  - intros Hty ->. destruct j; simpl in Hty; try discriminate Hty; done.
Qed.

(** X11. A required selector and a direct answer that is not text:
    [fetch] throws [no_selector_in_<type of the answer>] without trying
    the rendering transport, and with the counter still raised. *)
Theorem selector_in_structured_answer config type w j :
  let job := prepare (this w) config type in
  axios_get E (set_timeout 5000 job) = Ret j ->
  typeof (VData j) <> "string" ->
  truthy_opt_string (waitForSelector config) = true ->
  exists w',
    fetch E config type w = (w', Throw (Error ("no_selector_in_" ++ typeof (VData j)))) /\
    trace w' = (trace w ++ [EvSleep (delay_of_call w); EvAxiosGet (set_timeout 5000 job)])%list /\
    concurrency (this w') = concurrency (this w) + 1.
Proof.
  intros job Hget Hty Hsel.
  rewrite fetch_unfold, internalFetch_cases.
  rewrite (prepare_host _ (this w)) by apply entered_host.
  fold job. rewrite Hget, Hsel.
  destruct (String.eqb (typeof (VData j)) "string") eqn:Heq.
  { by apply String.eqb_eq in Heq. }
  eexists. split; [reflexivity|]. simpl. by rewrite <- app_assoc.
Qed.

(** X12. When the direct transport fails and the rendering transport
    answers nothing, [fetch] throws [no_response], having tried both, and
    the counter is what it was. *)
Theorem fetch_no_response config type w e :
  let job := prepare (this w) config type in
  axios_get E (set_timeout 5000 job) = Throw e ->
  is_no_selector e = false ->
  crawler E (set_timeout 10000 job) false (Some type) = Ret VUndefined ->
  exists w',
    fetch E config type w = (w', Throw (Error "no_response")) /\
    trace w' = (trace w ++ [EvSleep (delay_of_call w);
                            EvAxiosGet (set_timeout 5000 job);
                            EvCrawl (set_timeout 10000 job) false (Some type)])%list /\
    concurrency (this w') = concurrency (this w).
Proof.
  intros job Hget Hsel Hcrawl.
  rewrite fetch_unfold, internalFetch_cases.
  rewrite (prepare_host _ (this w)) by apply entered_host.
  fold job. rewrite Hget, Hsel. unfold rendered. rewrite Hcrawl.
  eexists. split; [reflexivity|]. simpl. split; [by rewrite <- !app_assoc|lia].
Qed.

(** ** [post] *)

Lemma post_world u data type config w :
  post E u data type config w =
    match axios_send E type u data config with
    | Ret resp => (emit (EvAxiosSend type u config) (entered w), Ret resp)
    | Throw _ =>
        (emit (EvLog "post error") (emit (EvAxiosSend type u config) (entered w)),
         Ret VUndefined)
    end.
Proof.
  unfold post, post_rest, entered, logger.
  unfold Eff.bind, Eff.modify, Eff.get, Eff.ret. simpl.
  by destruct (axios_send E type u data config).
Qed.

(** X13. [post] never throws.  It waits once and sends once; the answer
    of the transport is its result, and whatever the transport throws
    becomes [undefined] after one call of the logger.  The disk, the
    timers and the file server are not touched. *)
Theorem post_swallows_errors u data type config w :
  let r := post E u data type config w in
  let sent := [EvSleep (delay_of_call w); EvAxiosSend type u config] in
  sys r.1 = sys w /\ FileServer_instance r.1 = FileServer_instance w /\
  (forall resp,
      axios_send E type u data config = Ret resp ->
      r.2 = Ret resp /\ trace r.1 = (trace w ++ sent)%list) /\
  (forall e,
      axios_send E type u data config = Throw e ->
      r.2 = Ret VUndefined /\
      trace r.1 = (trace w ++ sent ++ [EvLog "post error"])%list).
Proof.
  intros r sent. unfold r. rewrite post_world.
  destruct (axios_send E type u data config) as [resp|e]; simpl;
    (split; [done|]); (split; [done|]); split; try done.
  - intros resp' [= <-]. split; [done|]. by rewrite <- app_assoc.
  - intros e' _. split; [done|]. by rewrite <- !app_assoc.
Qed.

Lemma sleeps_app tr1 tr2 : sleeps (tr1 ++ tr2) = (sleeps tr1 ++ sleeps tr2)%list.
Proof. apply omap_app. Qed.

Lemma post_step u data type config w :
  let w' := (post E u data type config w).1 in
  concurrency (this w') = concurrency (this w) + 1 /\
  waitTime (this w') = waitTime (this w) /\
  sleeps (trace w') =
    (sleeps (trace w) ++ [waitTime (this w) * (concurrency (this w) + 1)])%list.
Proof.
  rewrite post_world.
  destruct (axios_send E type u data config) as [resp|e]; simpl;
    rewrite ?sleeps_app; simpl; rewrite ?app_nil_r; done.
Qed.

Lemma delays_from_chain waitTime c n :
  (0 < waitTime -> chain Z.lt (delays_from waitTime c n)) /\
  (waitTime < 0 -> chain Z.gt (delays_from waitTime c n)).
Proof.
  revert c. induction n as [|n IH]; intros c; [done|].
  destruct n as [|n]; [done|].
  destruct (IH (c + 1)) as [IHlt IHgt].
  change (delays_from waitTime c (S (S n))) with
    (waitTime * (c + 1) :: delays_from waitTime (c + 1) (S n)).
  change (delays_from waitTime (c + 1) (S n)) with
    (waitTime * (c + 1 + 1) :: delays_from waitTime (c + 1 + 1) n) in *.
  split; intros Hw; (split; [nia|auto]).
Qed.

(** X14. Calls of [post] made one after the other, each awaited, all
    return and leave the counter raised by their number; their delays are
    the wait time times [c + 1], ..., [c + n] for [c] the counter at the
    start.  So each waits longer than the one before when the wait time is
    positive, and less when it is negative, which the constructor
    accepts. *)
Theorem posts_accumulate calls w :
  let r := post_all E calls w in
  let delays :=
    delays_from (waitTime (this w)) (concurrency (this w)) (length calls) in
  r.2 = Ret tt /\
  concurrency (this r.1) = concurrency (this w) + Z.of_nat (length calls) /\
  sleeps (trace r.1) = (sleeps (trace w) ++ delays)%list /\
  (0 < waitTime (this w) -> chain Z.lt delays) /\
  (waitTime (this w) < 0 -> chain Z.gt delays).
Proof.
  intros r delays.
  assert (r.2 = Ret tt /\
          concurrency (this r.1) = concurrency (this w) + Z.of_nat (length calls) /\
          sleeps (trace r.1) = (sleeps (trace w) ++ delays)%list) as (Hr & Hc & Hs).
  { unfold r, delays. clear r delays.
    revert w. induction calls as [|c calls IH]; intros w.
    { simpl. rewrite app_nil_r. split; [done|]. split; [lia|done]. }
    cbn [post_all length delays_from]. unfold Eff.bind.
    destruct (post_step (pc_url c) (pc_data c) (pc_type c) (pc_config c) w)
      as (Hc & Hw & Hs).
    pose proof (post_world (pc_url c) (pc_data c) (pc_type c) (pc_config c) w) as Hp.
    destruct (post E (pc_url c) (pc_data c) (pc_type c) (pc_config c) w) as [w1 [v|e]].
    2:{ exfalso. destruct (axios_send E _ _ _ _); discriminate Hp. }
    simpl in Hc, Hw, Hs. destruct (IH w1) as (Hr & Hc' & Hs').
    split; [exact Hr|]. split.
    - rewrite Hc', Hc. lia.
    - rewrite Hs', Hs, Hw, Hc, <- app_assoc. done. }
  split; [exact Hr|]. split; [exact Hc|]. split; [exact Hs|].
  apply delays_from_chain.
Qed.

(** ** [downloadImage] *)

(** The key under which the cache has nothing to give. *)
Lemma downloadImage_missed w u returnType referer dependsOnParams config root uri :
  USER_DATA (sys w) = Some root ->
  new_URL E u = Some uri ->
  (cacheEnabled E = true ->
   exists e, Fs.readFileSync (disk (sys w))
               (cache_dir root (this w), cache_key E uri dependsOnParams) = Throw e) ->
  downloadImage E u returnType referer dependsOnParams config w =
    downloadImage_miss E u returnType referer
      (origin uri ++ pathname uri ++ (if dependsOnParams then search uri else EmptyString))
      (cache_key E uri dependsOnParams) config (acquire w).1.
Proof.
  intros Hu Hurl Hread.
  unfold downloadImage, downloadImage_rest, generateCacheFilename, loadFromCache.
  unfold Eff.bind at 1. unfold acquire at 1. unfold Eff.modify at 1.
  rewrite Hurl. unfold Eff.bind at 1. unfold Eff.lift_outcome at 1.
  unfold Eff.bind at 1. unfold Eff.bind at 1. unfold Eff.get at 1. simpl.
  rewrite Hu. unfold cache_key, cache_dir in *. simpl.
  destruct (cacheEnabled E); [|reflexivity].
  destruct Hread as [e Hread]; [done|]. by rewrite Hread.
Qed.

(** X15. [downloadImage] raises the counter before it looks at its
    arguments: a url that [URL] rejects, or a process without
    [USER_DATA], makes it throw with the counter raised and nothing else
    done: no wait, no transport, nothing written. *)
Theorem downloadImage_fails_early u returnType referer dependsOnParams config w :
  (new_URL E u = None ->
   downloadImage E u returnType referer dependsOnParams config w =
     (on_this (fun m => set_concurrency (concurrency m + 1) m) w,
      Throw (Error "Invalid URL"))) /\
  (is_Some (new_URL E u) -> USER_DATA (sys w) = None ->
   downloadImage E u returnType referer dependsOnParams config w =
     (on_this (fun m => set_concurrency (concurrency m + 1) m) w,
      Throw (Error "USER_DATA is not defined"))).
Proof.
  unfold downloadImage, downloadImage_rest, generateCacheFilename, loadFromCache.
  unfold Eff.bind, acquire, Eff.modify, Eff.lift_outcome, Eff.get, Eff.throw.
  split.
  - by intros ->.
  - intros [uri ->] Hu. simpl. by rewrite Hu.
Qed.

(** X16. When the cache has nothing and the direct transport fails, the
    rendering transport is asked once for the image, by the selector of
    its identifier.  If it throws, so does [downloadImage], with the
    counter raised; if it answers anything but bytes, [downloadImage]
    returns [undefined] and gives the counter back.  Nothing is written
    either way. *)
Theorem downloadImage_without_bytes w u returnType referer dependsOnParams config
    root uri e :
  USER_DATA (sys w) = Some root ->
  new_URL E u = Some uri ->
  (cacheEnabled E = true ->
   exists e', Fs.readFileSync (disk (sys w))
                (cache_dir root (this w), cache_key E uri dependsOnParams) = Throw e') ->
  let from := or_string referer (host (this w)) in
  axios_get_arraybuffer E u from config = Throw e ->
  let identifier :=
    origin uri ++ pathname uri ++ (if dependsOnParams then search uri else EmptyString) in
  let job := mkJob u (Some from) ∅ None (Some (image_selector identifier))
               (Some 10000) config in
  let r := downloadImage E u returnType referer dependsOnParams config w in
  let tried :=
    trace r.1 = (trace w ++ [EvSleep (delay_of_call w); EvAxiosGetImage u from config;
                             EvCrawl job true None])%list /\
    sys r.1 = sys w /\
    FileServer_instance r.1 = FileServer_instance w in
  (forall e', crawler E job true None = Throw e' ->
              r.2 = Throw e' /\ concurrency (this r.1) = concurrency (this w) + 1 /\
              tried) /\
  (forall v, crawler E job true None = Ret v -> (forall b, v <> VBuffer b) ->
             r.2 = Ret VUndefined /\
             concurrency (this r.1) = Z.max 0 (concurrency (this w)) /\
             tried).
Proof.
  intros Hu Hurl Hread from Hget identifier job r tried. unfold tried, r.
  rewrite (downloadImage_missed _ _ _ _ _ _ _ _ Hu Hurl Hread).
  fold identifier.
  unfold downloadImage_miss, fetch_image, wait.
  unfold Eff.bind, Eff.modify, Eff.get, Eff.ret, Eff.lift_outcome. simpl.
  fold from. rewrite Hget. fold job.
  split.
  - intros e' ->. simpl. split; [done|]. split; [done|].
    split; [by rewrite <- !app_assoc|done].
  - intros v -> Hv.
    destruct v as [|j|b| |]; try (by destruct (Hv b)); simpl;
      (split; [done|]);
      (split; [|split; [by rewrite <- !app_assoc|done]]);
      unfold decrement; simpl;
      destruct (concurrency (this w) + 1 - 1 <? 0)%Z eqn:Hlt; simpl; lia.
Qed.

(** What the cache is offered leaves the instance and the environment of
    the process alone. *)
Lemma saveToCache_env fn buffer w :
  let w' := (saveToCache E fn buffer w).1 in
  USER_DATA (sys w') = USER_DATA (sys w) /\
  timers (sys w') = timers (sys w) /\
  FileServer_instance w' = FileServer_instance w /\
  this w' = this w.
Proof.
  unfold saveToCache.
  unfold Eff.bind, Eff.get, Eff.modify, Eff.ret, logger. simpl.
  destruct (USER_DATA (sys w)) eqn:Hu; [|done].
  destruct (cacheEnabled E); [|done]. simpl.
  by destruct (Fs.writeFileSync _ _ _).
Qed.

Lemma image_saved_this w u referer fn config buffer :
  this (image_saved E w u referer fn config buffer) = this w.
Proof.
  unfold image_saved. destruct (cache (options (this w))); [|done].
  by destruct (saveToCache_env fn buffer
                 (emit (EvAxiosGetImage u (or_string referer (host (this w))) config)
                    (wait w).1)) as (_ & _ & _ & ->).
Qed.

Lemma decrement_raised m :
  concurrency (decrement true (set_concurrency (concurrency m + 1) m)) =
    Z.max 0 (concurrency m).
Proof.
  unfold decrement. simpl.
  destruct (concurrency m + 1 - 1 <? 0)%Z eqn:Hlt; simpl; lia.
Qed.

(** A cover the direct transport delivers, when the cache has nothing. *)
Lemma downloadImage_cover_fetched w u referer dependsOnParams config root uri buffer :
  USER_DATA (sys w) = Some root ->
  new_URL E u = Some uri ->
  (cacheEnabled E = true ->
   exists e, Fs.readFileSync (disk (sys w))
               (cache_dir root (this w), cache_key E uri dependsOnParams) = Throw e) ->
  axios_get_arraybuffer E u (or_string referer (host (this w))) config = Ret buffer ->
  is_image (getFileMime E buffer) = true ->
  downloadImage E u Cover referer dependsOnParams config w =
    (on_this (decrement true)
       (image_saved E (acquire w).1 u referer (cache_key E uri dependsOnParams) config buffer),
     Ret (VString ("data:" ++ getFileMime E buffer ++ ";charset=utf-8;base64,"
                     ++ base64 E buffer))).
Proof.
  intros Hu Hurl Hread Hget Himg.
  rewrite (downloadImage_missed _ _ _ _ _ _ _ _ Hu Hurl Hread).
  by apply downloadImage_miss_cover.
Qed.

(** X17. The cache round trip.  A cover fetched over the direct
    transport, with both cache settings on and the write succeeding, is
    answered from the cache afterwards: a later call for a url of the same
    origin and path (and the same query, when the data depends on it)
    calls no transport and returns the same bytes, as a data URI without
    the [charset] the first answer had. *)
Theorem cover_is_cached_for_later w u1 u2 referer1 referer2 dependsOnParams
    config1 config2 root uri1 uri2 e buffer d :
  USER_DATA (sys w) = Some root ->
  cacheEnabled E = true ->
  cache (options (this w)) = true ->
  new_URL E u1 = Some uri1 ->
  new_URL E u2 = Some uri2 ->
  origin uri2 = origin uri1 ->
  pathname uri2 = pathname uri1 ->
  (dependsOnParams = true -> search uri2 = search uri1) ->
  let file := (cache_dir root (this w), cache_key E uri1 dependsOnParams) in
  Fs.readFileSync (disk (sys w)) file = Throw e ->
  axios_get_arraybuffer E u1 (or_string referer1 (host (this w))) config1 = Ret buffer ->
  is_image (getFileMime E buffer) = true ->
  Fs.writeFileSync (disk (sys w)) file buffer = Ret d ->
  let r1 := downloadImage E u1 Cover referer1 dependsOnParams config1 w in
  let r2 := downloadImage E u2 Cover referer2 dependsOnParams config2 r1.1 in
  r1.2 = Ret (VString ("data:" ++ getFileMime E buffer ++ ";charset=utf-8;base64,"
                         ++ base64 E buffer)) /\
  r2.2 = Ret (VString ("data:" ++ getFileMime E buffer ++ ";base64," ++ base64 E buffer)) /\
  trace r2.1 = (trace r1.1 ++ [EvLog "cache hit"])%list /\
  sys r2.1 = sys r1.1.
Proof.
  intros Hu Hc Hopt Hurl1 Hurl2 Ho Hp Hs file Hread Hget Himg Hw r1 r2.
  assert (cache_key E uri2 dependsOnParams = cache_key E uri1 dependsOnParams) as Hkey.
  { unfold cache_key. rewrite Ho, Hp. destruct dependsOnParams; [|done]. by rewrite Hs. }
  assert (r1 = (on_this (decrement true)
                  (image_saved E (acquire w).1 u1 referer1
                     (cache_key E uri1 dependsOnParams) config1 buffer),
                Ret (VString ("data:" ++ getFileMime E buffer ++ ";charset=utf-8;base64,"
                                ++ base64 E buffer)))) as Hr1.
  { unfold r1. apply (downloadImage_cover_fetched _ _ _ _ _ root); eauto. }
  set (w2 := emit (EvAxiosGetImage u1 (or_string referer1 (host (this w))) config1)
               (wait (acquire w).1).1).
  assert (r1.1 = on_this (decrement true)
                   (saveToCache E (cache_key E uri1 dependsOnParams) buffer w2).1) as Hw1.
  { rewrite Hr1. simpl. unfold image_saved. simpl. by rewrite Hopt. }
  destruct (saveToCache_env (cache_key E uri1 dependsOnParams) buffer w2)
    as (Henv & _ & _ & Hthis).
  assert (disk (sys (saveToCache E (cache_key E uri1 dependsOnParams) buffer w2).1) = d)
    as Hdisk.
  { by apply (saveToCache_disk E _ _ _ root). }
  assert (downloadImage E u2 Cover referer2 dependsOnParams config2 r1.1 =
            returnFetch (cached_value E Cover buffer)
              (Some (cache_key E uri2 dependsOnParams))
              (emit (EvLog "cache hit") (acquire r1.1).1)) as Hr2.
  { apply (downloadImage_hit E _ _ _ _ _ _ root); try done.
    - rewrite Hw1. simpl. by rewrite Henv.
    - rewrite Hw1. simpl. rewrite Hdisk, Hkey, Hthis.
      by apply (FileServerMore.writeFileSync_readFileSync (disk (sys w))). }
  split; [by rewrite Hr1|]. unfold r2. rewrite Hr2. done.
Qed.

(** X18. What the cache is offered never fails the download.  A cover
    the direct transport delivers is returned as a data URI whether it
    could be cached or not: with either cache setting off nothing is
    written, and when the write fails the disk is as before and the
    attempt is the only trace of it. *)
Theorem cache_write_is_best_effort w u referer dependsOnParams config root uri buffer :
  USER_DATA (sys w) = Some root ->
  new_URL E u = Some uri ->
  (cacheEnabled E = true ->
   exists e, Fs.readFileSync (disk (sys w))
               (cache_dir root (this w), cache_key E uri dependsOnParams) = Throw e) ->
  axios_get_arraybuffer E u (or_string referer (host (this w))) config = Ret buffer ->
  is_image (getFileMime E buffer) = true ->
  let file := (cache_dir root (this w), cache_key E uri dependsOnParams) in
  let r := downloadImage E u Cover referer dependsOnParams config w in
  r.2 = Ret (VString ("data:" ++ getFileMime E buffer ++ ";charset=utf-8;base64,"
                        ++ base64 E buffer)) /\
  concurrency (this r.1) = Z.max 0 (concurrency (this w)) /\
  (cache (options (this w)) && cacheEnabled E = false -> sys r.1 = sys w) /\
  (forall e,
      cache (options (this w)) = true -> cacheEnabled E = true ->
      Fs.writeFileSync (disk (sys w)) file buffer = Throw e ->
      sys r.1 = record_syscall (SysWrite file) (sys w)).
Proof.
  intros Hu Hurl Hread Hget Himg file r. unfold r.
  rewrite (downloadImage_cover_fetched _ _ _ _ _ _ _ _ Hu Hurl Hread Hget Himg).
  split; [done|]. simpl.
  set (w2 := emit (EvAxiosGetImage u (or_string referer (host (this w))) config)
               (wait (acquire w).1).1).
  destruct (saveToCache_env (cache_key E uri dependsOnParams) buffer w2)
    as (_ & _ & _ & Hthis).
  split; [|split].
  - change (concurrency (decrement true (this (image_saved E (acquire w).1 u referer
              (cache_key E uri dependsOnParams) config buffer))) =
            Z.max 0 (concurrency (this w))).
    rewrite image_saved_this. apply decrement_raised.
  - intros Hoff. unfold image_saved. simpl. fold w2.
    destruct (cache (options (this w))); [|done].
    simpl in Hoff. unfold saveToCache.
    unfold Eff.bind, Eff.get, Eff.modify, Eff.ret, logger. simpl.
    by rewrite Hu, Hoff.
  - intros e Hopt Hc Hw. unfold image_saved. simpl. fold w2. rewrite Hopt.
    unfold saveToCache.
    unfold Eff.bind, Eff.get, Eff.modify, Eff.ret, logger. simpl.
    rewrite Hu, Hc. simpl. unfold file, cache_dir in *. simpl. by rewrite Hw.
Qed.

(** X19. A page found in the cache goes through the file server: when
    the server does not serve the name yet and can write it, the bytes are
    readable in its folder afterwards, under the name of the cache key,
    and a timer of 600 seconds is set for them. *)
Theorem cached_page_is_served w u referer dependsOnParams config buffer uri fs d :
  cache_holds E w u dependsOnParams buffer ->
  new_URL E u = Some uri ->
  let fn := cache_key E uri dependsOnParams in
  truthy_string fn = true ->
  FileServer_instance w = Some fs ->
  FileServer.find fn (FileServer.timeouts fs) = None ->
  Fs.writeFileSync (disk (sys w)) (FileServer.resolveFile fs fn) buffer = Ret d ->
  let r := downloadImage E u Page referer dependsOnParams config w in
  let h := Timers.next (timers (sys w)) in
  r.2 = Ret (VString ("/files/" ++ fn)) /\
  FileServer_instance r.1 =
    Some (FileServer.mkFileServer (FileServer.folder fs)
            (FileServer.timeouts fs ++ [FileServer.mkEntry fn h])%list) /\
  Fs.readFileSync (disk (sys r.1)) (FileServer.resolveFile fs fn) = Ret buffer /\
  Timers.live (timers (sys r.1)) =
    <[h := Timers.mkTimer fn 600000]> (Timers.live (timers (sys w))).
Proof.
  intros (root & uri' & Hu & Hc & Hurl' & Hread) Hurl fn Hfn Hfs Hfind Hw r h.
  rewrite Hurl in Hurl'. injection Hurl' as <-.
  unfold r. rewrite (downloadImage_hit E _ _ Page _ _ _ _ _ _ Hu Hc Hurl Hread).
  fold fn. unfold returnFetch, Eff.bind, Eff.modify. simpl. rewrite Hfn.
  unfold FileServer_serv. simpl. rewrite Hfs. simpl.
  rewrite (FileServerFacts.serv_miss buffer fn None (FileServer.mkState fs (sys w)) Hfind).
  pose proof (FileServerFacts.initFile_spec fn buffer
                (default FileServer.default_lifetime None)
                (FileServer.mkState fs (sys w))) as Hi.
  simpl in Hi. rewrite Hw in Hi. simpl. rewrite Hi. simpl.
  split; [done|]. split; [done|]. split; [|done].
  by apply (FileServerMore.writeFileSync_readFileSync (disk (sys w))).
Qed.

(** X20. A page found in the cache when no file server was ever
    created: [downloadImage] throws what [getInstance] throws, after it
    has given the counter back, and writes nothing. *)
Theorem cached_page_without_server w u referer dependsOnParams config buffer uri :
  cache_holds E w u dependsOnParams buffer ->
  new_URL E u = Some uri ->
  truthy_string (cache_key E uri dependsOnParams) = true ->
  FileServer_instance w = None ->
  let r := downloadImage E u Page referer dependsOnParams config w in
  r.2 = Throw (Error "couldn't create instance, no folder given") /\
  concurrency (this r.1) = Z.max 0 (concurrency (this w)) /\
  sys r.1 = sys w /\
  FileServer_instance r.1 = None.
Proof.
  intros (root & uri' & Hu & Hc & Hurl' & Hread) Hurl Hfn Hfs r.
  rewrite Hurl in Hurl'. injection Hurl' as <-.
  unfold r. rewrite (downloadImage_hit E _ _ Page _ _ _ _ _ _ Hu Hc Hurl Hread).
  unfold returnFetch, Eff.bind, Eff.modify. simpl. rewrite Hfn.
  unfold FileServer_serv. simpl. rewrite Hfs. simpl.
  split; [done|]. split; [|done].
  unfold decrement; simpl.
  destruct (concurrency (this w) + 1 - 1 <? 0)%Z eqn:Hlt; simpl; lia.
Qed.

(** ** The counter *)

(** X21. The ledger of [fetch], for a counter that is not negative: the
    counter is left raised exactly when the chain of transports throws,
    and [fetch] throws the same; whenever the chain answers, with
    anything, the counter is back to what it was when [fetch] returns or
    throws. *)
Theorem fetch_counter_ledger config type w :
  0 <= concurrency (this w) ->
  let r := fetch E config type w in
  match internalFetch E config type (entered w) with
  | (_, Ret _) => concurrency (this r.1) = concurrency (this w)
  | (_, Throw e) => r.2 = Throw e /\ concurrency (this r.1) = concurrency (this w) + 1
  end.
Proof.
  intros Hc r. unfold r.
  destruct (internalFetch E config type (entered w)) as [w1 [res|e]] eqn:Hi.
  - by apply (fetch_gives_back E _ _ _ w1 res).
  - rewrite fetch_unfold, Hi. split; [done|]. simpl.
    pose proof (preserves_internalFetch E config type (entered w)) as Hp.
    rewrite Hi in Hp. simpl in Hp. by rewrite Hp.
Qed.

Lemma start_waits c w :
  waits_at_start c = true ->
  sleeps (trace (start c w).1) =
    (sleeps (trace w) ++ [waitTime (this w) * (concurrency (this w) + 1)])%list.
Proof.
  destruct c; [| |done]; intros _; simpl; by rewrite sleeps_app.
Qed.

(** X22. Calls of [fetch] and [post] made together, before any of them
    ends, are staggered: the k-th waits the wait time times the counter
    plus k, and all of them are in flight with the counter raised by their
    number. *)
Theorem concurrent_calls_are_staggered calls r :
  Forall (fun c => waits_at_start c = true) calls ->
  let r' := run E (Start <$> calls) r in
  in_flight r' = (in_flight r ++ calls)%list /\
  counter r' = counter r + Z.of_nat (length calls) /\
  sleeps (trace (world r')) =
    (sleeps (trace (world r)) ++
       delays_from (waitTime (this (world r))) (counter r) (length calls))%list.
Proof.
  revert r. induction calls as [|c calls IH]; intros r Hall.
  { simpl. rewrite !app_nil_r. split; [done|]. split; [lia|done]. }
  apply Forall_cons in Hall as [Hc Hall].
  cbn [fmap list_fmap run foldl length delays_from]. cbv zeta.
  destruct (IH (step E r (Start c)) Hall) as (Hf & Hn & Hs).
  unfold run in Hf, Hn, Hs. cbv zeta in Hf, Hn, Hs.
  rewrite Hf, Hn, Hs. unfold counter. simpl.
  rewrite start_counter, (start_waits _ _ Hc). simpl.
  rewrite <- !app_assoc. split; [done|]. split; [lia|done].
Qed.

(** ** The builders *)

Lemma assign_id_throws m id langs u e :
  assign_id E m id langs u = Throw e <->
  truthy_opt_string id = false /\ truthy_string u = false /\
  e = Error "uuidgen: missing options".
Proof.
  unfold assign_id, uuidv5.
  destruct (truthy_opt_string id) eqn:Hid; simpl.
  - destruct (MangaDatabase_get E _); split; try done; by intros (? & _).
  - destruct (truthy_string u); simpl.
    + destruct (MangaDatabase_get E _); split; try done; by intros (_ & ? & _).
    + split; [by intros [= <-]|by intros (_ & _ & ->)].
Qed.

(** X23. A builder throws only for a record that has neither an id to
    force nor a url, and then [uuidgen: missing options]; every other
    record is built. *)
Theorem builders_need_id_or_url m :
  (forall mg e,
      mangaPageBuilder E m mg = Throw e <->
      truthy_opt_string (mg_id mg) = false /\ truthy_string (mg_url mg) = false /\
      e = Error "uuidgen: missing options") /\
  (forall ch e,
      chaptersBuilder E m ch = Throw e <->
      truthy_opt_string (ch_id ch) = false /\ truthy_string (ch_url ch) = false /\
      e = Error "uuidgen: missing options") /\
  (forall mg e,
      searchResultsBuilder E m mg = Throw e <->
      truthy_opt_string (sr_id mg) = false /\ truthy_string (sr_url mg) = false /\
      e = Error "uuidgen: missing options").
Proof.
  split; [|split].
  - intros mg e. rewrite <- assign_id_throws with (m := m) (langs := mg_langs mg).
    unfold mangaPageBuilder. destruct (assign_id E m _ _ _); split; congruence.
  - intros ch e. rewrite <- assign_id_throws with (m := m) (langs := [ch_lang ch]).
    unfold chaptersBuilder. destruct (assign_id E m _ _ _); split; congruence.
  - intros mg e. rewrite <- assign_id_throws with (m := m) (langs := sr_langs mg).
    unfold searchResultsBuilder. destruct (assign_id E m _ _ _); split; congruence.
Qed.

Lemma insert_sorted_perm c l : insert_sorted c l ≡ₚ c :: l.
Proof.
  induction l as [|x l IH]; [done|]. simpl.
  destruct (Qle_bool (number c) (number x)); [done|].
  by rewrite IH, Permutation_swap.
Qed.

Lemma insert_sorted_ascending c l : ascending l -> ascending (insert_sorted c l).
Proof.
  induction l as [|x l IH]; [done|]. intros [Hx Hl]. simpl.
  destruct (Qle_bool (number c) (number x)) eqn:Hle.
  - apply Qle_bool_iff in Hle. split; [|by split]. constructor; [done|].
    eapply Forall_impl; [exact Hx|]. intros y Hy. simpl in Hy.
    by eapply Qle_trans.
  - assert (Qle (number x) (number c)) as Hxc.
    { destruct (Qlt_le_dec (number x) (number c)) as [Hlt|Hge].
      - by apply Qlt_le_weak.
      - apply Qle_bool_iff in Hge. congruence. }
    split; [|by apply IH].
    rewrite insert_sorted_perm. by constructor.
Qed.

(** X24. The page [mangaPageBuilder] builds lists the chapters it was
    given, all of them and no other, in ascending order of their numbers.
    (Nothing is said here of the order of chapters of equal number.) *)
Theorem page_chapters_sorted m mg p :
  mangaPageBuilder E m mg = Ret p ->
  ascending (page_chapters p) /\ page_chapters p ≡ₚ mg_chapters mg.
Proof.
  unfold mangaPageBuilder. destruct (assign_id E m _ _ _); [|done].
  intros [= <-]. simpl. unfold sort_chapters.
  induction (mg_chapters mg) as [|c l [IHa IHp]]; [done|]. simpl. split.
  - by apply insert_sorted_ascending.
  - by rewrite insert_sorted_perm, IHp.
Qed.

(** ** The headers of a job *)

(** X25. The headers both transports receive: those of the caller, but
    for two.  [referer] is overwritten, unless the type is ['json'], with
    the referer of the job or else the host without its scheme; [Cookie]
    is overwritten, when the job has cookies, even none, with their
    [name=value;] pairs followed by the path and the domain. *)
Theorem prepared_headers m config type :
  let h := headers (prepare m config type) in
  let domain := strip_scheme (host m) in
  (forall k, k <> "referer" -> k <> "Cookie" -> h !! k = headers config !! k) /\
  h !! "referer" =
    match type with
    | TJson => headers config !! "referer"
    | _ => Some (or_string (referer config) domain)
    end /\
  h !! "Cookie" =
    match cookies config with
    | Some cs => Some (join_cookies cs ++ " path=/; domain=" ++ domain)
    | None => headers config !! "Cookie"
    end.
Proof.
  intros h domain. unfold h, prepare. simpl. fold domain.
  split; [|split].
  - intros k Hr Hc.
    destruct (cookies config), type; simpl;
      rewrite ?lookup_insert_ne by done; done.
  - destruct (cookies config), type; simpl;
      rewrite ?(lookup_insert_ne _ "Cookie" "referer") by done;
      rewrite ?lookup_insert_eq; done.
  - destruct (cookies config), type; simpl;
      rewrite ?lookup_insert_eq; rewrite ?(lookup_insert_ne _ "referer" "Cookie") by done;
      done.
Qed.

Lemma strip_scheme_from_length k s :
  (String.length (strip_scheme_from k s) <= String.length s)%nat.
Proof.
  revert k. induction s as [|c s IH]; intros k; [done|].
  cbn [strip_scheme_from]. destruct k as [|k].
  - destruct (String.prefix "https://" (String c s)); [specialize (IH 7%nat); simpl; lia|].
    destruct (String.prefix "http://" (String c s)); [specialize (IH 6%nat); simpl; lia|].
    specialize (IH 0%nat). simpl. lia.
  - specialize (IH k). simpl. lia.
Qed.

Lemma prefix_cons a t c s :
  String.prefix (String a t) (String c s) =
    if Ascii.ascii_dec a c then String.prefix t s else false.
Proof. reflexivity. Qed.

(** X26. [strip_scheme], the replacement [#internalFetch] applies to the
    host: a leading [https://] or [http://] is dropped and the rest
    treated alike, a character that is not [h] is kept, and the result is
    never longer than the host. *)
Theorem strip_scheme_drops_schemes s :
  strip_scheme ("https://" ++ s) = strip_scheme s /\
  strip_scheme ("http://" ++ s) = strip_scheme s /\
  (forall c, String c EmptyString <> "h" ->
             strip_scheme (String c s) = String c (strip_scheme s)) /\
  (String.length (strip_scheme s) <= String.length s)%nat.
Proof.
  split; [|split; [|split]].
  - unfold strip_scheme. simpl. by destruct s.
  - unfold strip_scheme. simpl. by destruct s.
  - intros c Hc. unfold strip_scheme. cbn [strip_scheme_from].
    rewrite !prefix_cons.
    destruct (Ascii.ascii_dec _ c) as [<-|_]; [by destruct Hc|done].
  - apply strip_scheme_from_length.
Qed.

(** ** Construction *)

(** X27. The constructor needs [USER_DATA], and throws without it before
    anything is done.  An instance it builds has the counter at zero, the
    name it was given and a wait time that is never zero: the one it was
    given, or 200 for none or zero; and when caching is on its cache
    directory exists afterwards. *)
Theorem new_mirror opts s :
  (USER_DATA s = None ->
   new E opts s = (s, Throw (Error "USER_DATA is not defined"))) /\
  (forall s' m,
      new E opts s = (s', Ret m) ->
      concurrency m = 0 /\ name m = mc_name opts /\
      waitTime m <> 0 /\
      (forall n, mc_waitTime opts = Some n -> n <> 0 -> waitTime m = n) /\
      (mc_waitTime opts = None \/ mc_waitTime opts = Some 0 -> waitTime m = 200) /\
      exists root,
        USER_DATA s = Some root /\
        (cacheEnabled E = true ->
         Fs.existsSync_dir (disk s') (cache_dir root m) = true)).
Proof.
  unfold new. split.
  - by intros ->.
  - intros s' m. destruct (USER_DATA s) as [root|] eqn:Hu; [|done].
    set (m0 := mkMirror _ _ _ _ _ _ _ _ _ _ _ _).
    assert (waitTime m0 <> 0 /\
            (forall n, mc_waitTime opts = Some n -> n <> 0 -> waitTime m0 = n) /\
            (mc_waitTime opts = None \/ mc_waitTime opts = Some 0 -> waitTime m0 = 200))
      as Hw.
    { simpl. destruct (mc_waitTime opts) as [[| |]|]; (split; [done|]); split;
        try (by intros n [= <-]); try (by intros [|]); done. }
    destruct Hw as (Hw1 & Hw2 & Hw3).
    unfold Fs.existsSync_dir, Fs.mkdirSync.
    destruct (cacheEnabled E); simpl.
    + case_bool_decide as Hin; simpl.
      * intros [= <- <-]. do 5 (split; [done|]).
        exists root. split; [done|]. intros _. by apply bool_decide_eq_true.
      * case_bool_decide; simpl; [done|].
        intros [= <- <-]. do 5 (split; [done|]).
        exists root. split; [done|]. intros _. apply bool_decide_eq_true.
        set_solver.
    + intros [= <- <-]. do 5 (split; [done|]). by exists root.
Qed.

End More.

(** ** The statements at work on the examples *)

Lemma fetch_throws_only_witness :
  exists w', fetch offline example_job THtml example_world =
               (w', Throw (Error "no_response")).
Proof.
  destruct (fetch offline example_job THtml example_world) as [w' [v|e]] eqn:Hf.
  { vm_compute in Hf. discriminate Hf. }
  exists w'. f_equal. f_equal.
  destruct (fetch_throws_only offline example_job THtml example_world w' e Hf)
    as [[H1 H]|[(j & H & _)|[H|[H|[H|H]]]]].
  - injection H1 as <-. discriminate H.
  - discriminate H.
  - discriminate H.
  - discriminate H.
  - exact H.
  - vm_compute in Hf. by injection Hf as _ <-.
Defined.

Lemma direct_answer_is_final_witness :
  (fetch api example_job THtml example_world).2 =
    Throw (Error "cant_parse_json_to_html").
Proof.
  destruct (direct_answer_is_final api example_job THtml example_world _
              eq_refl eq_refl) as (_ & _ & H).
  destruct (H eq_refl eq_refl) as [Hr _]. exact Hr.
Defined.

Lemma selector_in_structured_answer_witness :
  exists w',
    fetch api selector_job THtml example_world =
      (w', Throw (Error "no_selector_in_object")).
Proof.
  assert (typeof (VData (JObj [("result", JStr "ok")])) <> "string") as Hty.
  { intros H. discriminate H. }
  destruct (selector_in_structured_answer api selector_job THtml example_world _
              eq_refl Hty eq_refl) as (w' & Hf & _).
  exists w'. exact Hf.
Defined.

Lemma fetch_no_response_witness :
  exists w',
    fetch offline example_job THtml example_world = (w', Throw (Error "no_response")) /\
    concurrency (this w') = 0.
Proof.
  destruct (fetch_no_response offline example_job THtml example_world _
              eq_refl eq_refl eq_refl) as (w' & Hf & _ & Hc).
  exists w'. split; [exact Hf|exact Hc].
Defined.

Lemma post_swallows_errors_witness :
  (post offline "https://api.mangadex.org/auth" VUndefined Post [] example_world).2 =
    Ret VUndefined.
Proof.
  destruct (post_swallows_errors offline "https://api.mangadex.org/auth" VUndefined
              Post [] example_world) as (_ & _ & _ & H).
  destruct (H _ eq_refl) as [Hr _]. exact Hr.
Defined.

Lemma posts_accumulate_witness :
  let call := mkPostCall "https://api.mangadex.org/auth" VUndefined Post [] in
  let r := post_all offline [call; call; call] example_world in
  sleeps (trace r.1) = [200; 400; 600] /\ chain Z.lt [200; 400; 600].
Proof.
  intros call.
  destruct (posts_accumulate offline [call; call; call] example_world)
    as (_ & _ & Hs & Hlt & _).
  split; [exact Hs|]. apply Hlt. reflexivity.
Defined.

Lemma downloadImage_fails_early_witness :
  (downloadImage api "cover.jpg" Cover None false [] example_world).2 =
    Throw (Error "Invalid URL").
Proof.
  destruct (downloadImage_fails_early api "cover.jpg" Cover None false []
              example_world) as [H _].
  rewrite (H eq_refl). reflexivity.
Defined.

Lemma downloadImage_without_bytes_witness :
  (downloadImage offline "https://mangadex.org/page.jpg" Page None false []
     example_world).2 = Ret VUndefined.
Proof.
  destruct (downloadImage_without_bytes offline example_world
              "https://mangadex.org/page.jpg" Page None false [] "/data"
              (mkURL "https://mangadex.org/page.jpg" EmptyString EmptyString)
              (AxiosError "getaddrinfo ENOTFOUND" None)
              eq_refl eq_refl (fun _ => ex_intro _ (Error "ENOENT") eq_refl) eq_refl)
    as [_ H].
  destruct (H VUndefined eq_refl) as [Hr _]; [intros b Hb; discriminate Hb|exact Hr].
Defined.

Lemma cover_is_cached_for_later_witness :
  let u := "https://mangadex.org/page.jpg" in
  let r1 := downloadImage site u Cover None false [] example_world in
  let r2 := downloadImage site u Cover (Some "https://mangadex.org") false [] r1.1 in
  r1.2 = Ret (Mirror.VString "data:image/jpeg;charset=utf-8;base64,AAAA") /\
  r2.2 = Ret (Mirror.VString "data:image/jpeg;base64,AAAA").
Proof.
  intros u.
  destruct (cover_is_cached_for_later site example_world u u None
              (Some "https://mangadex.org") false [] [] "/data"
              (mkURL u EmptyString EmptyString) (mkURL u EmptyString EmptyString)
              (Error "ENOENT") [] _
              eq_refl eq_refl eq_refl eq_refl eq_refl eq_refl eq_refl (fun _ => eq_refl)
              eq_refl eq_refl eq_refl eq_refl) as (H1 & H2 & _).
  split; [exact H1|exact H2].
Defined.

Lemma cache_write_is_best_effort_witness :
  let u := "https://mangadex.org/page.jpg" in
  let r := downloadImage site u Cover None false [] bare_world in
  r.2 = Ret (Mirror.VString "data:image/jpeg;charset=utf-8;base64,AAAA") /\
  sys r.1 = record_syscall (SysWrite ("/data/.cache/mangadex", u)) example_process.
Proof.
  intros u.
  destruct (cache_write_is_best_effort site bare_world u None false [] "/data"
              (mkURL u EmptyString EmptyString) []
              eq_refl eq_refl (fun _ => ex_intro _ (Error "ENOENT") eq_refl)
              eq_refl eq_refl) as (Hr & _ & _ & Hw).
  split; [exact Hr|]. apply (Hw (Error "ENOENT")); reflexivity.
Defined.

Lemma served_cache_holds :
  cache_holds offline served_world "https://mangadex.org/cover.jpg" false [].
Proof.
  exists "/data", (mkURL "https://mangadex.org/cover.jpg" EmptyString EmptyString).
  repeat split; vm_compute; reflexivity.
Defined.

Lemma cached_page_is_served_witness :
  let u := "https://mangadex.org/cover.jpg" in
  let r := downloadImage offline u Page None false [] served_world in
  r.2 = Ret (Mirror.VString "/files/https://mangadex.org/cover.jpg") /\
  Fs.readFileSync (disk (sys r.1)) ("/data/.cache/files", u) = Ret [].
Proof.
  intros u.
  destruct (cached_page_is_served offline served_world u None false [] []
              (mkURL u EmptyString EmptyString)
              (FileServer.mkFileServer "/data/.cache/files" []) _
              served_cache_holds eq_refl eq_refl eq_refl eq_refl eq_refl)
    as (Hr & _ & Hread & _).
  split; [exact Hr|exact Hread].
Defined.

Lemma cached_page_without_server_witness :
  (downloadImage offline "https://mangadex.org/cover.jpg" Page None false []
     example_world).2 = Throw (Error "couldn't create instance, no folder given").
Proof.
  destruct (cached_page_without_server offline example_world
              "https://mangadex.org/cover.jpg" None false [] []
              (mkURL "https://mangadex.org/cover.jpg" EmptyString EmptyString)
              example_cache_holds eq_refl eq_refl eq_refl) as [Hr _].
  exact Hr.
Defined.

Lemma fetch_counter_ledger_witness :
  concurrency (this (fetch site example_job TString example_world).1) = 0 /\
  concurrency (this (fetch api selector_job THtml example_world).1) = 1.
Proof.
  split.
  - exact (fetch_counter_ledger site example_job TString example_world (Z.le_refl 0)).
  - exact (proj2 (fetch_counter_ledger api selector_job THtml example_world
                    (Z.le_refl 0))).
Defined.

Lemma concurrent_calls_are_staggered_witness :
  let calls := [CallFetch example_job THtml;
                CallPost "https://api.mangadex.org/auth" VUndefined Post [];
                CallFetch selector_job THtml] in
  sleeps (trace (world (run offline (Start <$> calls) (mkRun example_world [])))) =
    [200; 400; 600].
Proof.
  intros calls.
  assert (Forall (fun c => waits_at_start c = true) calls) as Hall.
  { repeat constructor. }
  destruct (concurrent_calls_are_staggered offline calls (mkRun example_world []) Hall)
    as (_ & _ & Hs).
  exact Hs.
Defined.

Lemma builders_need_id_or_url_witness :
  mangaPageBuilder offline example_mirror (mkMangaInput None EmptyString ["en"] [] []) =
    Throw (Error "uuidgen: missing options").
Proof.
  destruct (builders_need_id_or_url offline example_mirror) as (H & _ & _).
  apply H. repeat split.
Defined.

Lemma page_chapters_sorted_witness :
  exists p,
    mangaPageBuilder offline example_mirror
      (mkMangaInput None "/title/1" ["en"]
         [example_chapter 2; example_chapter 1; example_chapter 3] []) = Ret p /\
    ascending (page_chapters p).
Proof.
  destruct (mangaPageBuilder offline example_mirror
              (mkMangaInput None "/title/1" ["en"]
                 [example_chapter 2; example_chapter 1; example_chapter 3] []))
    as [p|e] eqn:Hb; [|vm_compute in Hb; discriminate Hb].
  exists p. split; [reflexivity|].
  destruct (page_chapters_sorted offline example_mirror _ p Hb) as [Ha _].
  exact Ha.
Defined.

Lemma prepared_headers_witness :
  let h := headers (prepare example_mirror example_job THtml) in
  h !! "referer" = Some "mangadex.org" /\ h !! "accept" = None.
Proof.
  destruct (prepared_headers example_mirror example_job THtml) as (Hk & Hr & _).
  split; [exact Hr|].
  apply (Hk "accept"); intros H; discriminate H.
Defined.

Lemma strip_scheme_drops_schemes_witness :
  strip_scheme "mangadex.org" = "m" ++ strip_scheme "angadex.org".
Proof.
  destruct (strip_scheme_drops_schemes "angadex.org") as (_ & _ & H & _).
  apply H. intros Hc. discriminate Hc.
Defined.

Lemma new_mirror_witness :
  exists s' m,
    new offline (example_options None) example_process = (s', Ret m) /\
    waitTime m <> 0 /\
    Fs.existsSync_dir (disk s') "/data/.cache/mangadex" = true.
Proof.
  destruct (new offline (example_options None) example_process)
    as [s' [m|e]] eqn:Hnew; [|vm_compute in Hnew; discriminate Hnew].
  destruct (new_mirror offline (example_options None) example_process)
    as [_ H].
  destruct (H s' m Hnew) as (_ & Hn & Hw & _ & _ & (root & Hr & Hdir)).
  exists s', m. split; [reflexivity|]. split; [exact Hw|].
  injection Hr as <-. specialize (Hdir eq_refl).
  unfold cache_dir in Hdir. rewrite Hn in Hdir. exact Hdir.
Defined.

End MirrorMore.
